(** * sparsebak: a shallow embedding of the delta-map, send, prune and
    receive logic of [sparsebak.py], with the properties of its
    specification stated over that embedding.

    Conventions.  Python integers are [Z]; [//] and [%] are [Z.div] and
    [Z.modulo] (both floor, as in Python, for every sign of the operands);
    a division by zero is written out as [ZeroDivisionError].  Byte strings
    are lists of [Z] in [0, 256).  A Python exception or [exit] is a value
    of [exn]; a function that may raise returns an [outcome]. *)

From Stdlib Require Import ZArith List String Ascii Lia QArith Qround.
From Stdlib Require Import HexadecimalString HexadecimalN.
From stdpp Require Import gmap strings list.

Local Open Scope Z_scope.

(** ** Python primitives *)

Abbreviation bytes := (list Z).

Inductive exn : Type :=
| ValueError (msg : string)
| IndexError (what : string)
| KeyError (key : string)
| ZeroDivisionError
| BufferError (msg : string)
| NotImplementedError (msg : string)
| RuntimeError (msg : string)
| UnboundLocalError (var : string)
| ZlibError
| SystemExit (code : Z) (msg : string)
| OverflowError.

Inductive outcome (A : Type) : Type :=
| Ok (a : A)
| Raise (e : exn).
Arguments Ok {A} a.
Arguments Raise {A} e.

Definition obind {A B} (c : outcome A) (k : A -> outcome B) : outcome B :=
  match c with
  | Ok a => k a
  | Raise e => Raise e
  end.

Notation "'try!' x ':=' c 'in' k" := (obind c (fun x => k))
  (at level 10, x pattern, c at level 100, k at level 200).

(** [x_it(code, text)]: write the text to stderr and [exit(code)]. *)
Definition x_it {A} (code : Z) (text : string) : outcome A :=
  Raise (SystemExit code text).

(** [range(start, stop, step)] for a positive step (the only use in the
    source; the callers below reject a chunk size that is not positive
    before they iterate). *)
Definition py_range (start stop step : Z) : list Z :=
  if step <=? 0 then []
  else map (fun i => start + Z.of_nat i * step)
           (seq 0 (Z.to_nat ((stop - start + step - 1) / step))).

(** Index of a sequence of length [len] as Python resolves it: a negative
    index counts from the end, anything outside is an [IndexError]. *)
Definition py_index (len i : Z) : option nat :=
  if i <? 0 then (if i + len <? 0 then None else Some (Z.to_nat (i + len)))
  else if i <? len then Some (Z.to_nat i) else None.

(** A slice bound as Python clamps it. *)
Definition py_clamp (len i : Z) : Z :=
  if i <? 0 then Z.max 0 (i + len) else Z.min i len.

(** [l[start:stop]]. *)
Definition py_slice {A} (l : list A) (start stop : Z) : list A :=
  let n := Z.of_nat (length l) in
  let a := py_clamp n start in
  let b := py_clamp n stop in
  firstn (Z.to_nat (b - a)) (skipn (Z.to_nat a) l).

(** [l[-1]]. *)
Definition py_last {A} (l : list A) : option A := last l.

(** [l.index(x)]: position of the first element equal to [x]. *)
Fixpoint py_list_index `{EqDecision A} (x : A) (l : list A) : option nat :=
  match l with
  | [] => None
  | y :: l' => if decide (y = x) then Some 0%nat
               else option_map S (py_list_index x l')
  end.

(** Lowercase hexadecimal digits of a natural number, no padding. *)
Definition hex_of_N (n : N) : string :=
  NilEmpty.string_of_uint (N.to_hex_uint n).

Fixpoint string_repeat (c : ascii) (n : nat) : string :=
  match n with
  | O => EmptyString
  | S n' => String c (string_repeat c n')
  end.

Definition zfill (width : nat) (s : string) : string :=
  (string_repeat "0" (width - String.length s) ++ s)%string.

(** ["%0<width>x" % n]. *)
Definition format_0x (width : nat) (n : Z) : string :=
  if n <? 0 then ("-" ++ zfill (width - 1) (hex_of_N (Z.to_N (- n))))%string
  else zfill width (hex_of_N (Z.to_N n)).

(** [s[a:b]] on strings. *)
Definition str_slice (s : string) (a b : Z) : string :=
  string_of_list_ascii (py_slice (list_ascii_of_string s) a b).

(** [b.hex()] / [hexdigest()]: two lowercase digits for each byte. *)
Definition hexlify (b : bytes) : string :=
  fold_right (fun x acc => (format_0x 2 (x mod 256) ++ acc)%string) EmptyString b.

(** [int.from_bytes(b, "big")]. *)
Definition int_from_bytes_big (b : bytes) : Z :=
  fold_left (fun acc x => acc * 256 + x) b 0.

(** [bytes(n)]: [n] zero bytes; a negative count is a [ValueError]. *)
Definition py_bytes (n : Z) : outcome bytes :=
  if n <? 0 then Raise (ValueError "negative count")
  else Ok (repeat 0 (Z.to_nat n)).

(** ** White space and [int()] *)

(** [c.isspace()] on ASCII. *)
Definition is_space (c : ascii) : bool :=
  let n := nat_of_ascii c in
  ((9 <=? n) && (n <=? 13) || (28 <=? n) && (n <=? 32))%nat.

Fixpoint lstrip (s : string) : string :=
  match s with
  | EmptyString => EmptyString
  | String c s' => if is_space c then lstrip s' else s
  end.

Definition str_rev (s : string) : string :=
  string_of_list_ascii (rev (list_ascii_of_string s)).

(** [s.strip()]. *)
Definition strip (s : string) : string :=
  str_rev (lstrip (str_rev (lstrip s))).

(** The value of a decimal digit, [None] for any other character. *)
Definition digit_value (c : ascii) : option Z :=
  let n := nat_of_ascii c in
  if ((48 <=? n) && (n <=? 57))%nat then Some (Z.of_nat n - 48) else None.

(** The digits of a decimal literal after the sign: one or more digits,
    with single underscores allowed between digits only.  [acc] is the
    value read so far, [after_digit] whether the character before was a
    digit. *)
Fixpoint int_digits (acc : Z) (after_digit : bool) (s : string) : option Z :=
  match s with
  | EmptyString => if after_digit then Some acc else None
  | String c s' =>
      match digit_value c with
      | Some d => int_digits (acc * 10 + d) true s'
      | None =>
          if Ascii.eqb c "_" && after_digit then int_digits acc false s'
          else None
      end
  end.

(** [int(s)] for a string: white space around the literal is dropped, then
    an optional sign and the digits; anything else is the [ValueError],
    whose message goes on with the text that was given.  (The limit on
    the number of digits that later interpreters set is not part of
    it.) *)
Definition py_int (s : string) : outcome Z :=
  let invalid := Raise (ValueError "invalid literal for int() with base 10") in
  let digits t sign :=
    match int_digits 0 false t with
    | Some n => Ok (sign * n)
    | None => invalid
    end in
  match strip s with
  | EmptyString => invalid
  | String c t =>
      if Ascii.eqb c "-" then digits t (-1)
      else if Ascii.eqb c "+" then digits t 1
      else digits (String c t) 1
  end.

(** [zlib.compress(buf, level)] fails before it reads [buf] when the level
    does not fit a C [int] ([OverflowError]) or is none of [-1] and
    [0..9] ([zlib.error]); [None] when it goes on to compress. *)
Definition compress_level_error (level : Z) : option exn :=
  if (level <? - 2 ^ 31) || (2 ^ 31 <=? level) then Some OverflowError
  else if (level <? -1) || (9 <? level) then Some ZlibError
  else None.

(** ** Constants of the program *)

Definition bs : Z := 512.
Definition lvm_block_factor : Z := 128.
Definition bkchunksize : Z := 1 * lvm_block_factor * bs.
Definition max_address : Z := 0xffffffffffffffff.
(** [max_address.bit_length() // 4]. *)
Definition chdigits : nat := Z.to_nat ((Z.log2 max_address + 1) / 4).
(** [address_split = [len(hex(max_address))-2-7, 7]]. *)
Definition address_split : Z * Z := (Z.of_nat chdigits - 7, 7).
(** [addrsplit = -address_split[1]]. *)
Definition addrsplit : Z := - snd address_split.

(** [chformat % addr] with [chformat = "%016x"]. *)
Definition chformat (addr : Z) : string := format_0x chdigits addr.

(** [pjoin(a, b)] for a relative, non-empty [b]. *)
Definition pjoin (a b : string) : string := (a ++ "/" ++ b)%string.

(** ** Chunk addressing *)

(** [last_chunk_addr(volsize, chunksize)]; the callers have raised
    [ZeroDivisionError] before for a zero chunk size. *)
Definition last_chunk_addr (volsize chunksize : Z) : Z :=
  (volsize - 1) - ((volsize - 1) mod chunksize).

(** [Volume.mapsize(volume_size=None)]: [vol_volsize] is [self.volsize],
    the size of the last session, used when the argument is [None] or 0. *)
Definition mapsize (vol_volsize chunksize : Z) (volume_size : option Z)
  : outcome Z :=
  let volume_size :=
    match volume_size with
    | Some v => if v =? 0 then vol_volsize else v
    | None => vol_volsize
    end in
  if chunksize =? 0 then Raise ZeroDivisionError
  else Ok (volume_size / chunksize / 8 + 1).

(** The size the specification gives for the Delta Map, in its own words:
    [ceil(volsize / chunksize / 8) + 1], over the rationals. *)
Definition spec_mapsize (volsize chunksize : Z) : Z :=
  Qceiling (inject_Z volsize / inject_Z chunksize / inject_Z 8) + 1.

(** ** Data model: sessions, volumes, the archive set *)

(** [ArchiveSet.Volume.Ses]; [ses_volume] is the name of the owning volume
    (the source keeps a reference to the object). *)
Record Ses : Type := mkSes {
  ses_name : string;
  ses_volume : string;
  ses_path : string;
  ses_localtime : string;
  ses_volsize : Z;
  ses_format : string;
  ses_sequence : Z;
  ses_previous : string
}.

(** [ArchiveSet.Volume]; [first] and [last] are [None] until a session
    exists. *)
Record Volume : Type := mkVolume {
  vol_name : string;
  vol_path : string;
  vol_sessions : gmap string Ses;
  vol_sesnames : list string;
  vol_first : option string;
  vol_last : option string;
  vol_volsize : Z;
  vol_que_meta_update : string
}.

(** The persisted variables of [ArchiveSet] that the operations below read,
    and the master session list [allsessions], each session named by its
    volume and its own name. *)
Record ArchiveSet : Type := mkArchiveSet {
  as_chunksize : Z;
  as_compression : string;
  as_compr_level : string;
  as_vgname : string;
  as_destmountpoint : string;
  as_nvols : nat;
  as_allsessions : list (string * string)
}.

(** ** The Delta Map as the program accesses it through [mmap] *)

Fixpoint ofold {A B} (f : A -> B -> outcome A) (l : list B) (a : A)
  : outcome A :=
  match l with
  | [] => Ok a
  | x :: l' => try! a' := f a x in ofold f l' a'
  end.

(** [mm[i]]. *)
Definition mm_get (mm : bytes) (i : Z) : outcome Z :=
  match py_index (Z.of_nat (length mm)) i with
  | Some n =>
      match mm !! n with
      | Some v => Ok v
      | None => Raise (IndexError "mmap index out of range")
      end
  | None => Raise (IndexError "mmap index out of range")
  end.

(** [mm[i] |= v]. *)
Definition mm_or (mm : bytes) (i v : Z) : outcome bytes :=
  match py_index (Z.of_nat (length mm)) i with
  | Some n =>
      match mm !! n with
      | Some x => Ok (<[n := Z.lor x v]> mm)
      | None => Raise (IndexError "mmap index out of range")
      end
  | None => Raise (IndexError "mmap index out of range")
  end.

(** [os.ftruncate(fd, n)]: cut the file at [n] bytes or extend it with
    zeros. *)
Definition ftruncate (f : bytes) (n : Z) : bytes :=
  firstn (Z.to_nat n) f ++ repeat 0 (Z.to_nat n - length f)%nat.

(** Bit [k] of a Delta Map: bit [k mod 8] of byte [k / 8]. *)
Definition chunk_bit (bmap : bytes) (k : Z) : bool :=
  match bmap !! Z.to_nat (k / 8) with
  | Some v => Z.testbit v (k mod 8)
  | None => false
  end.

(** ** update_delta_digest *)

(** A child of the [diff] element of the thin-delta document. *)
Record delta : Type := mkDelta {
  dtag : string;
  dbegin : Z;
  dlength : Z
}.

Record delta_state : Type := mkDeltaState {
  ds_bmap : bytes;
  ds_byte : Z;       (* bmap_byte *)
  ds_lastindex : Z;  (* lastindex *)
  ds_new : Z;        (* dnewblocks *)
  ds_freed : Z       (* dfreedblocks *)
}.

(** The body of [for blockpos in range(blockbegin, blockbegin + blocklen)]. *)
Definition mark_block (chunksize : Z) (st : delta_state) (blockpos : Z)
  : outcome delta_state :=
  if chunksize / bs =? 0 then Raise ZeroDivisionError
  else
    let volsegment := blockpos / (chunksize / bs) in
    let bmap_pos := volsegment / 8 in
    try! (mm, byte) :=
      (if negb (bmap_pos =? ds_lastindex st)
       then try! mm := mm_or (ds_bmap st) (ds_lastindex st) (ds_byte st) in
            Ok (mm, 0)
       else Ok (ds_bmap st, ds_byte st)) in
    Ok (mkDeltaState mm (Z.lor byte (Z.shiftl 1 (volsegment mod 8))) bmap_pos
                     (ds_new st) (ds_freed st)).

(** The body of [for delta in dtree.find("diff")]. *)
Definition apply_delta (chunksize dblocksize : Z) (st : delta_state) (d : delta)
  : outcome delta_state :=
  let blockbegin := dbegin d * dblocksize in
  let blocklen := dlength d * dblocksize in
  let counted :=
    if bool_decide (dtag d = "different"%string \/ dtag d = "right_only"%string)
    then Some (mkDeltaState (ds_bmap st) (ds_byte st) (ds_lastindex st)
                            (ds_new st + blocklen) (ds_freed st))
    else if bool_decide (dtag d = "left_only"%string)
    then Some (mkDeltaState (ds_bmap st) (ds_byte st) (ds_lastindex st)
                            (ds_new st) (ds_freed st + blocklen))
    else None (* superfluous tag: continue *) in
  match counted with
  | None => Ok st
  | Some st' =>
      ofold (mark_block chunksize) (py_range blockbegin (blockbegin + blocklen) 1) st'
  end.

(** [update_delta_digest(datavol)]: [bmap] is the content of the volume's
    [deltamap] file, [snap2size] the size of the [.tock] snapshot,
    [dblocksize] the [data_block_size] attribute and [diff] the children of
    [diff].  The result is the content of [deltamap-tmp] and the returned
    flag; with no session the map file is not even renamed. *)
Definition update_delta_digest (vol : Volume) (chunksize snap2size dblocksize : Z)
    (diff : list delta) (bmap : bytes) : outcome (bytes * bool) :=
  if bool_decide (size (vol_sessions vol) = 0%nat) then Ok (bmap, false)
  else
    try! msize := mapsize (vol_volsize vol) chunksize (Some snap2size) in
    let bmap_mm := ftruncate bmap msize in
    try! st := ofold (apply_delta chunksize dblocksize) diff
                     (mkDeltaState bmap_mm 0 0 0 0) in
    try! mm := mm_or (ds_bmap st) (ds_lastindex st) (ds_byte st) in
    Ok (mm, ds_new st + ds_freed st >? 0).

(** Chunk [k] of size [chunksize] holds a byte of the range
    [[begin*dbs*512, (begin+length)*dbs*512)] of the element [d]. *)
Definition chunk_intersects (chunksize dblocksize : Z) (d : delta) (k : Z) : Prop :=
  exists x, dbegin d * dblocksize * 512 <= x < (dbegin d + dlength d) * dblocksize * 512
            /\ x / chunksize = k.

(** The element is one the translator marks: [different], [right_only] or
    [left_only]. *)
Definition delta_marks (d : delta) : Prop :=
  dtag d = "different"%string \/ dtag d = "right_only"%string
  \/ dtag d = "left_only"%string.

(** ** send_volume *)

(** The library functions the send and receive paths call: [zlib.compress],
    [hashlib.sha256(...).digest()] and [zlib.decompress], which gives
    [None] where the library raises [zlib.error].  [zlib_compress] stands
    for [zlib.compress] at a level it accepts; what it raises for any
    other level is [compress_level_error], which the chunk loop asks
    first. *)
Class Codec : Type := {
  zlib_compress : bytes -> Z -> bytes;
  sha256_digest : bytes -> bytes;
  zlib_decompress : bytes -> Z -> Z -> option bytes
}.

(** [hashlib.sha256(buf).hexdigest()]. *)
Definition sha256_hexdigest `{Codec} (buf : bytes) : string :=
  hexlify (sha256_digest buf).

(** The experimental deduplication index ([--testing-dedup]), as the chunk
    loop uses it: look the digest up; a hit gives the index of the session
    and the hexadecimal address of the chunk already archived, a miss adds
    the digest with the current address and session index. *)
Class DedupIndex (D : Type) : Type := {
  dedup_enabled : bool;
  dedup_probe : D -> bytes -> Z -> Z -> D * option (Z * string)
}.

(** [options.dedup == 0]: no index. *)
#[export] Instance no_dedup : DedupIndex unit := {
  dedup_enabled := false;
  dedup_probe := fun d _ _ _ => (d, None)
}.

(** [ctypes.c_int64(x).value] and [ctypes.c_uint64(x).value]. *)
Definition c_int64 (x : Z) : Z := (x + 2 ^ 63) mod 2 ^ 64 - 2 ^ 63.
Definition c_uint64 (x : Z) : Z := x mod 2 ^ 64.

(** [options.dedup == 3]: the table [hashindex(id PRIMARY KEY, chunk,
    ses_id)]; a row is [(id, (chunk, ses_id))]. *)
Definition sql_table : Type := list (bytes * (Z * Z)).

Definition sql_select (t : sql_table) (id : bytes) : option (Z * Z) :=
  snd <$> List.find (fun r => bool_decide (fst r = id)) t.

#[export] Instance sql_dedup : DedupIndex sql_table := {
  dedup_enabled := true;
  dedup_probe := fun t bhashb addr ses_index =>
    match sql_select t bhashb with
    | Some (ddch, ddses_i) => (t, Some (ddses_i, chformat (c_uint64 ddch)))
    | None => (t ++ [(bhashb, (c_int64 addr, ses_index))], None)
    end
}.

(** An entry added to the tar stream: a file with its data, or a hard link
    ([LNKTYPE]) to a chunk archived before. *)
Inductive tar_entry : Type :=
| TarFile (name : string) (data : bytes)
| TarLink (name : string) (linkname : string).

Definition tar_name (e : tar_entry) : string :=
  match e with
  | TarFile n _ => n
  | TarLink n _ => n
  end.

(** What the chunk loop has produced so far: the lines of the manifest as
    (hash, file name) pairs, the chunk entries of the tar stream, and the
    counters. *)
Record send_state (D : Type) : Type := mkSendState {
  ss_manifest : list (string * string);
  ss_tar : list tar_entry;
  ss_started : bool;   (* stream_started *)
  ss_bcount : Z;
  ss_ddbytes : Z;
  ss_dedup : D
}.
Arguments mkSendState {D}.
Arguments ss_manifest {D}.
Arguments ss_tar {D}.
Arguments ss_started {D}.
Arguments ss_bcount {D}.
Arguments ss_ddbytes {D}.
Arguments ss_dedup {D}.

(** [vf.seek(addr); vf.read(chunksize)]. *)
Definition vf_read (vf : bytes) (addr chunksize : Z) : bytes :=
  firstn (Z.to_nat chunksize) (skipn (Z.to_nat addr) vf).

(** The loop-invariant values of the chunk loop. *)
Record send_env : Type := mkSendEnv {
  se_chunksize : Z;
  se_compression : string;
  se_compresslevel : Z;
  se_sendall_addr : Z;
  se_lchunk_addr : Z;
  se_zeros : bytes;
  se_sdir : string;
  se_ses_index : Z;
  se_allsessions : list (string * string);
  se_vf : bytes;
  se_bmap_mm : bytes
}.

(** [destfile = "x" + chformat % addr]. *)
Definition destfile_of (addr : Z) : string := ("x" ++ chformat addr)%string.

(** ["%s-tmp/%s/%s" % (sdir, destfile[1:addrsplit], destfile)]. *)
Definition tar_path (sdir destfile : string) : string :=
  (sdir ++ "-tmp/" ++ str_slice destfile 1 addrsplit ++ "/" ++ destfile)%string.

(** The body of [for addr in range(0, snap2size, chunksize)]. *)
Definition send_chunk `{Codec} `{DedupIndex D} (env : send_env)
    (st : send_state D) (addr : Z) : outcome (send_state D) :=
  let chunksize := se_chunksize env in
  let chunk := addr / chunksize in
  let bmap_pos := chunk / 8 in
  let b := chunk mod 8 in
  try! selected :=
    (if addr >=? se_sendall_addr env then Ok true
     else try! v := mm_get (se_bmap_mm env) bmap_pos in
          Ok (negb (Z.land v (Z.shiftl 1 b) =? 0))) in
  if negb selected then Ok st
  else
    let buf := vf_read (se_vf env) addr chunksize in
    let destfile := destfile_of addr in
    if bool_decide (buf = se_zeros env) && (addr <? se_lchunk_addr env)
    then Ok (mkSendState (ss_manifest st ++ [("0"%string, destfile)]) (ss_tar st)
                         true (ss_bcount st) (ss_ddbytes st) (ss_dedup st))
    else if negb (String.eqb (se_compression env) "zlib")
    then Raise (UnboundLocalError "compress")
    else
      match compress_level_error (se_compresslevel env) with
      | Some e => Raise e
      | None =>
      let buf := zlib_compress buf (se_compresslevel env) in
      let bhashb := sha256_digest buf in
      let name := tar_path (se_sdir env) destfile in
      let manifest := ss_manifest st ++ [(hexlify bhashb, destfile)] in
      let '(idx, hit) :=
        if dedup_enabled
        then dedup_probe (ss_dedup st) bhashb addr (se_ses_index env)
        else (ss_dedup st, None) in
      match hit with
      | Some (ddses_i, ddchx) =>
          let all := se_allsessions env in
          match py_index (Z.of_nat (length all)) ddses_i with
          | None => Raise (IndexError "list index out of range")
          | Some i =>
              match all !! i with
              | None => Raise (IndexError "list index out of range")
              | Some (ddvol, ddname) =>
                  let sesdir :=
                    if (Z.of_nat i =? se_ses_index env)
                    then (ddname ++ "-tmp")%string else ddname in
                  let linkname :=
                    (ddvol ++ "/" ++ sesdir ++ "/" ++ str_slice ddchx 0 addrsplit
                     ++ "/x" ++ ddchx)%string in
                  Ok (mkSendState manifest (ss_tar st ++ [TarLink name linkname])
                                  true (ss_bcount st)
                                  (ss_ddbytes st + Z.of_nat (length buf)) idx)
              end
          end
      | None =>
          Ok (mkSendState manifest (ss_tar st ++ [TarFile name buf])
                          true (ss_bcount st + Z.of_nat (length buf))
                          (ss_ddbytes st) idx)
      end
      end.

(** The send-all threshold [sendall_addr] (the two [if] statements before
    the stream is opened). *)
Definition compute_sendall_addr (send_all : bool)
    (prior_size snap2size chunksize : Z) : Z :=
  let sendall_addr := if send_all then 0 else snap2size + 1 in
  if negb send_all then
    let next_chunk_addr := last_chunk_addr prior_size chunksize + chunksize in
    if prior_size >? snap2size then sendall_addr
    else if snap2size - 1 >=? next_chunk_addr then next_chunk_addr
    else sendall_addr
  else sendall_addr.

(** [Volume.new_session(sname)]; the fields the constructor leaves at
    [None] are filled by the caller right after. *)
Definition new_session (vol : Volume) (sname : string) : outcome (Volume * Ses) :=
  let ns := mkSes sname (vol_name vol) (pjoin (vol_path vol) sname)
                  "" 0 "" 0 "none" in
  try! (ns, first) :=
    (match vol_first vol with
     | None => Ok (ns, Some sname)
     | Some f =>
         match vol_last vol with
         | None => Raise (KeyError "None")
         | Some l =>
             match vol_sessions vol !! l with
             | None => Raise (KeyError l)
             | Some ls =>
                 Ok (mkSes (ses_name ns) (ses_volume ns) (ses_path ns)
                           (ses_localtime ns) (ses_volsize ns) (ses_format ns)
                           (ses_sequence ls + 1) l, Some f)
             end
         end
     end) in
  Ok (mkVolume (vol_name vol) (vol_path vol) (<[sname := ns]> (vol_sessions vol))
               (vol_sesnames vol ++ [sname]) first (Some sname)
               (vol_volsize vol) (vol_que_meta_update vol), ns).

(** What [send_volume] leaves behind: the session manifest, the chunk
    entries of the tar stream, the returned [stream_started], the volume
    and master session list with the new session, and the index. *)
Record send_result (D : Type) : Type := mkSendResult {
  sr_manifest : list (string * string);
  sr_tar : list tar_entry;
  sr_started : bool;
  sr_vol : Volume;
  sr_allsessions : list (string * string);
  sr_dedup : D
}.
Arguments mkSendResult {D}.
Arguments sr_manifest {D}.
Arguments sr_tar {D}.
Arguments sr_started {D}.
Arguments sr_vol {D}.
Arguments sr_allsessions {D}.
Arguments sr_dedup {D}.

(** [send_volume(datavol, localtime)]: [snap2size] and [vf] are the size
    and the bytes of the [.tock] snapshot, [bmap] the content of
    [deltamap-tmp], [tarfile] the option [--tarfile], [idx] the
    deduplication index built before.  The session is made with the path
    [<vol.path>/S_<localtime>-tmp]; after a stream that was started,
    [ses.path[:-4]] takes the [-tmp] off again.  Progress output and the
    hand-over of the stream to the destination are left out. *)
Definition send_volume `{Codec} `{DedupIndex D} (aset : ArchiveSet) (vol : Volume)
    (snap2size : Z) (vf : bytes) (bmap : bytes) (localtime : string)
    (tarfile : bool) (idx : D) : outcome (send_result D) :=
  let chunksize := as_chunksize aset in
  try! bmap_size := mapsize (vol_volsize vol) chunksize (Some snap2size) in
  let bksession := ("S_" ++ localtime)%string in
  let sdir := pjoin (vol_name vol) bksession in
  let send_all := bool_decide (size (vol_sessions vol) = 0%nat) in
  let prior_size := vol_volsize vol in
  try! (vol1, ses) := new_session vol bksession in
  let ses_at path :=
    mkSes (ses_name ses) (ses_volume ses) path localtime snap2size
          (if tarfile then "tar" else "folders")%string
          (ses_sequence ses) (ses_previous ses) in
  let ses_index := Z.of_nat (length (as_allsessions aset)) in
  let allsessions := as_allsessions aset ++ [(vol_name vol, bksession)] in
  try! zeros := py_bytes chunksize in
  let lchunk_addr := last_chunk_addr snap2size chunksize in
  let sendall_addr := compute_sendall_addr send_all prior_size snap2size chunksize in
  try! compresslevel := py_int (as_compr_level aset) in
  let bmap_mm := if send_all then [0] else bmap in
  let env := mkSendEnv chunksize (as_compression aset) compresslevel
                       sendall_addr lchunk_addr zeros sdir ses_index
                       allsessions vf bmap_mm in
  try! st := ofold (send_chunk env) (py_range 0 snap2size chunksize)
                   (mkSendState [] [] false 0 0 idx) in
  let vol2 :=
    if ss_started st
    then mkVolume (vol_name vol1) (vol_path vol1)
                  (<[bksession := ses_at (vol_path vol ++ "/" ++ bksession)%string]>
                     (vol_sessions vol1))
                  (vol_sesnames vol1)
                  (vol_first vol1) (vol_last vol1) snap2size "false"
    else mkVolume (vol_name vol1) (vol_path vol1)
                  (<[bksession := ses_at (vol_path vol ++ "/" ++ bksession
                                          ++ "-tmp")%string]>
                     (vol_sessions vol1))
                  (vol_sesnames vol1)
                  (vol_first vol1) (vol_last vol1) (vol_volsize vol1)
                  (vol_que_meta_update vol1) in
  Ok (mkSendResult (ss_manifest st) (ss_tar st) (ss_started st) vol2
                   allsessions (ss_dedup st)).

(** ** String helpers of the option and date handling *)

(** [s.lower()] on ASCII. *)
Definition lower_ascii (c : ascii) : ascii :=
  let n := nat_of_ascii c in
  if ((65 <=? n) && (n <=? 90))%nat then ascii_of_nat (n + 32) else c.

Fixpoint str_lower (s : string) : string :=
  match s with
  | EmptyString => EmptyString
  | String c s' => String (lower_ascii c) (str_lower s')
  end.

(** [s.split(sep)] for a one-character separator. *)
Fixpoint str_split (sep : ascii) (s : string) : list string :=
  match s with
  | EmptyString => [EmptyString]
  | String c s' =>
      if Ascii.eqb c sep then EmptyString :: str_split sep s'
      else match str_split sep s' with
           | [] => [String c EmptyString]
           | w :: ws => String c w :: ws
           end
  end.

(** [s.partition(sep)] for a one-character separator. *)
Fixpoint str_partition (sep : ascii) (s : string) : string * string * string :=
  match s with
  | EmptyString => (EmptyString, EmptyString, EmptyString)
  | String c s' =>
      if Ascii.eqb c sep then (EmptyString, String c EmptyString, s')
      else let '(a, d, b) := str_partition sep s' in (String c a, d, b)
  end.

(** [s.startswith(p)] and the rest of [s] after the prefix. *)
Fixpoint strip_prefix (p s : string) : option string :=
  match p, s with
  | EmptyString, _ => Some s
  | String a p', String b s' => if Ascii.eqb a b then strip_prefix p' s' else None
  | String _ _, EmptyString => None
  end.

(** [c in s]. *)
Fixpoint str_contains (c : ascii) (s : string) : bool :=
  match s with
  | EmptyString => false
  | String d s' => Ascii.eqb c d || str_contains c s'
  end.

(** Python's order on strings: lexicographic on the code points. *)
Definition str_le (a b : string) : bool := String.leb a b.
Definition str_lt (a b : string) : bool := String.ltb a b.

(** ** The session list of the 16-bit dedup indexes *)

Definition ses_w : Z := 2.

(** [sessions = aset.allsessions[:2**(ses_w*8)-(len(aset.vols))-1]] of
    [init_dedup_index4]. *)
Definition init_dedup_index4_sessions (aset : ArchiveSet) : list (string * string) :=
  py_slice (as_allsessions aset) 0 (2 ^ (ses_w * 8) - Z.of_nat (as_nvols aset) - 1).

(** The same line of [init_dedup_index5]. *)
Definition init_dedup_index5_sessions (aset : ArchiveSet) : list (string * string) :=
  py_slice (as_allsessions aset) 0 (2 ^ (ses_w * 8) - Z.of_nat (as_nvols aset) - 1).

(** ** delete_session, merge_sessions, prune_sessions *)

(** What an operation does outside the volume record. *)
Inductive event : Type :=
| EvRmtree (path : string)                       (* shutil.rmtree *)
| EvDestMerge (merge_target target : string) (sources : list string)
| EvSaveInfo (ses : string)
| EvSaveVolinfo
| EvDestUpdate (target : string).

(** The state the prune path changes: the volume, the master session list
    and the trace of outside effects. *)
Record pstate : Type := mkPState {
  ps_vol : Volume;
  ps_allsessions : list (string * string);
  ps_events : list event
}.

(** Remove position [i] of a list ([del l[i]]). *)
Definition list_del {A} (l : list A) (i : nat) : list A :=
  firstn i l ++ skipn (S i) l.

(** [Volume.delete_session(sname)]: the state after the call and what it
    returned or raised. *)
Definition delete_session (st : pstate) (sname : string) : pstate * outcome string :=
  let vol := ps_vol st in
  match vol_sessions vol !! sname with
  | None => (st, Raise (KeyError sname))
  | Some ses =>
      if bool_decide (Some sname = vol_last vol)
      then (st, Raise (NotImplementedError "Cannot delete last session"))
      else
        match py_list_index sname (vol_sesnames vol) with
        | None => (st, Raise (ValueError "not in list"))
        | Some index =>
            match vol_sesnames vol !! S index with
            | None => (st, Raise (IndexError "list index out of range"))
            | Some affected =>
                match vol_sessions vol !! affected with
                | None => (st, Raise (KeyError affected))
                | Some aff =>
                    let aff' := mkSes (ses_name aff) (ses_volume aff) (ses_path aff)
                                      (ses_localtime aff) (ses_volsize aff)
                                      (ses_format aff) (ses_sequence aff)
                                      (ses_previous ses) in
                    let first :=
                      if (index =? 0)%nat then vol_sesnames vol !! 1%nat
                      else vol_first vol in
                    let vol' :=
                      mkVolume (vol_name vol) (vol_path vol)
                               (delete sname (<[affected := aff']> (vol_sessions vol)))
                               (list_del (vol_sesnames vol) index)
                               first (vol_last vol) (vol_volsize vol)
                               (vol_que_meta_update vol) in
                    match py_list_index (vol_name vol, sname) (ps_allsessions st) with
                    | None =>
                        (mkPState vol' (ps_allsessions st) (ps_events st),
                         Raise (ValueError "not in list"))
                    | Some i =>
                        (mkPState vol' (list_del (ps_allsessions st) i)
                                  (ps_events st ++ [EvRmtree (pjoin (vol_path vol) sname)]),
                         Ok affected)
                    end
                end
            end
        end
  end.

(** The loop [for ses in sources: affected = volume.delete_session(ses)]. *)
Fixpoint delete_sessions (st : pstate) (sources : list string) : pstate * outcome unit :=
  match sources with
  | [] => (st, Ok tt)
  | s :: rest =>
      match delete_session st s with
      | (st', Ok _) => delete_sessions st' rest
      | (st', Raise e) => (st', Raise e)
      end
  end.

(** [merge_sessions(datavol, sources, target, clear_sources=True)].  The
    merge of the manifests and the commands piped to the destination helper
    are one event; the updates of the local records are as in the source. *)
Definition merge_sessions (st : pstate) (sources : list string) (target : string)
  : pstate * outcome unit :=
  let vol := ps_vol st in
  let formats :=
    ofold (fun (_ : unit) ses =>
             match vol_sessions vol !! ses with
             | None => Raise (KeyError ses)
             | Some s =>
                 if String.eqb (ses_format s) "tar"
                 then x_it 1 "Cannot merge range containing tarfile session."
                 else Ok tt
             end) (sources ++ [target]) tt in
  match formats with
  | Raise e => (st, Raise e)
  | Ok _ =>
      match sources with
      | [] => (st, Raise (IndexError "list index out of range"))
      | merge_target :: _ =>
          let merge_sources := removelast (target :: rev sources) in
          let st1 := mkPState vol (ps_allsessions st)
                       (ps_events st ++ [EvDestMerge merge_target target merge_sources]) in
          match delete_sessions st1 sources with
          | (st2, Raise e) => (st2, Raise e)
          | (st2, Ok _) =>
              let vol2 := ps_vol st2 in
              match vol_sessions vol2 !! target with
              | None => (st2, Raise (KeyError target))
              | Some t =>
                  let vol3 := mkVolume (vol_name vol2) (vol_path vol2)
                                (vol_sessions vol2) (vol_sesnames vol2)
                                (vol_first vol2) (vol_last vol2) (ses_volsize t)
                                (vol_que_meta_update vol2) in
                  (mkPState vol3 (ps_allsessions st2)
                            (ps_events st2 ++ [EvSaveInfo target; EvSaveVolinfo;
                                               EvDestUpdate target]),
                   Ok tt)
              end
          end
      end
  end.

(** [datetime.datetime.strptime(dt, "%Y%m%d-%H%M%S")] succeeds. *)
Class DateTime : Type := {
  strptime_ok : string -> bool
}.

(** The options and the answer to the prompt that [prune_sessions] reads. *)
Record prune_options : Type := mkPruneOptions {
  po_allbefore : bool;
  po_unattended : bool;
  po_answer : string
}.

(** Which [return] of [prune_sessions] was taken. *)
Inductive prune_status : Type :=
| NoExtraSessions
| CannotPruneMostRecent
| NoSessionsInRange
| Pruned (to_prune : list string) (target : string).

(** [for ses in sessions: if ses >= t1: break; to_prune.append(ses)]. *)
Fixpoint all_before (t1 : string) (sessions : list string) : list string :=
  match sessions with
  | [] => []
  | ses :: rest => if str_le t1 ses then [] else ses :: all_before t1 rest
  end.

(** [prune_sessions(datavol, times)]. *)
Definition prune_sessions `{DateTime} (opts : prune_options) (st : pstate)
    (times : list string) : pstate * outcome prune_status :=
  if negb (forallb strptime_ok times)
  then (st, Raise (ValueError "time data does not match format"))
  else
    match times with
    | [] => (st, Raise (IndexError "list index out of range"))
    | time0 :: more =>
        let t1 := ("S_" ++ strip time0)%string in
        let t2o :=
          match more with
          | time1 :: _ =>
              let t2 := ("S_" ++ strip time1)%string in
              if str_le t2 t1
              then x_it 1 "Error: second date-time must be later than first."
              else Ok t2
          | [] => Ok EmptyString
          end in
        match t2o with
        | Raise e => (st, Raise e)
        | Ok t2 =>
            let sessions := vol_sesnames (ps_vol st) in
            match py_last sessions with
            | None => (st, Ok NoExtraSessions)
            | Some newest =>
                if (length sessions <? 2)%nat then (st, Ok NoExtraSessions)
                else if str_le newest t1 || str_le newest t2
                then (st, Ok CannotPruneMostRecent)
                else
                  let to_prune_o :=
                    if po_allbefore opts then Ok (all_before t1 sessions)
                    else if String.eqb t2 "" then
                      Ok (if bool_decide (t1 ∈ sessions) then [t1] else [])
                    else
                      let start :=
                        if bool_decide (t1 ∈ sessions) then py_list_index t1 sessions
                        else match List.find (fun ses => str_lt t1 ses) sessions with
                             | Some ses => py_list_index ses sessions
                             | None => None
                             end in
                      let end_ :=
                        if bool_decide (t2 ∈ sessions)
                        then option_map S (py_list_index t2 sessions)
                        else match List.find (fun ses => str_lt ses t2) (rev sessions) with
                             | Some ses => option_map S (py_list_index ses sessions)
                             | None => Some 0%nat
                             end in
                      match start, end_ with
                      | Some a, Some b =>
                          Ok (py_slice sessions (Z.of_nat a) (Z.of_nat b))
                      | None, _ => Raise (UnboundLocalError "start")
                      | _, None => Raise (ValueError "not in list")
                      end in
                  match to_prune_o with
                  | Raise e => (st, Raise e)
                  | Ok to_prune =>
                      match py_last to_prune with
                      | None => (st, Ok NoSessionsInRange)
                      | Some lastp =>
                          match py_list_index lastp sessions with
                          | None => (st, Raise (ValueError "not in list"))
                          | Some i =>
                              match sessions !! S i with
                              | None => (st, Raise (IndexError "list index out of range"))
                              | Some target_s =>
                                  if negb (po_unattended opts)
                                     && (1 <? length to_prune)%nat
                                     && negb (bool_decide
                                                (str_lower (po_answer opts)
                                                 ∈ ["y"%string; "yes"%string]))
                                  then (st, x_it 0 "")
                                  else
                                    match merge_sessions st to_prune target_s with
                                    | (st', Ok _) => (st', Ok (Pruned to_prune target_s))
                                    | (st', Raise e) => (st', Raise e)
                                    end
                              end
                          end
                      end
                  end
            end
        end
    end.

(** ** receive_volume: the chunk loop and what follows it *)

(** [verify], [receive --save-to] or [diff] (with or without [--remap]). *)
Inductive recv_mode : Type :=
| RecvVerify
| RecvSave
| RecvDiff (remap : bool).

(** The state of the loop.  [rs_mf] holds the unread lines of
    [manifest.verify], each already split at white space; [rs_stream] the
    unread output of the destination helper; [rs_polls] what the successive
    calls of [getvol.poll()] return (nothing left: still running);
    [rs_savef] the writes to the save path with their offsets; [rs_cmpf]
    the unread bytes of the volume compared against.  [rs_rc], [rs_buf]
    and [rs_addr] are the local variables [rc], [buf] and [addr], [None]
    while unbound. *)
Record recv_state : Type := mkRecvState {
  rs_mf : list (list string);
  rs_stream : bytes;
  rs_polls : list (option Z);
  rs_savef_pos : Z;
  rs_savef : list (Z * bytes);
  rs_cmpf : bytes;
  rs_bmap : bytes;
  rs_diff_count : Z;
  rs_rc : option (option Z);
  rs_buf : option bytes;
  rs_addr : option Z
}.

Record recv_env : Type := mkRecvEnv {
  re_mode : recv_mode;
  re_volsize : Z;
  re_chunksize : Z;
  re_compression : string;
  re_zeros : bytes;
  re_lchunk_addr : Z
}.

(** [decomp_bits = 32 + zlib.MAX_WBITS]. *)
Definition decomp_bits : Z := 32 + 15.

(** [diff_compare(dbuf, z)] at address [addr]: the new compare stream, the
    new map and the number of bytes reported as differing. *)
Definition diff_compare (env : recv_env) (remap : bool) (addr : Z)
    (cmpf bmap dbuf : bytes) : outcome (bytes * bytes * Z) :=
  let chunksize := re_chunksize env in
  let n := Z.to_nat chunksize in
  if negb (bool_decide (dbuf = firstn n cmpf)) then
    try! bmap' :=
      (if remap then
         let volsegment := addr / chunksize in
         mm_or bmap (volsegment / 8) (Z.shiftl 1 (volsegment mod 8))
       else Ok bmap) in
    Ok (skipn n cmpf, bmap', Z.of_nat (length dbuf))
  else Ok (skipn n cmpf, bmap, 0).

(** How an iteration of the loop ends: go on with the next address, or
    [break]. *)
Inductive loop_ctl : Type := Continue | Break.

(** The body of [for addr in range(0, volsize, chunksize)]. *)
Definition receive_chunk `{Codec} (env : recv_env) (st : recv_state) (addr : Z)
  : outcome (recv_state * loop_ctl) :=
  let chunksize := re_chunksize env in
  let faddr := ("x" ++ chformat addr)%string in
  let line := match rs_mf st with [] => [] | l :: _ => l end in
  let mf := match rs_mf st with [] => [] | _ :: r => r end in
  match line with
  | [cksum; fname; ses] =>
      if negb (String.eqb fname faddr) then Raise (ValueError "Bad fname")
      else
        let untrusted_size := int_from_bytes_big (firstn 4 (rs_stream st)) in
        let stream := skipn 4 (rs_stream st) in
        if String.eqb (strip cksum) "0" then
          if negb (untrusted_size =? 0) then Raise (ValueError "Expected size 0")
          else
            let pos :=
              match re_mode env with
              | RecvSave => rs_savef_pos st + chunksize
              | _ => rs_savef_pos st
              end in
            try! (cmpf, bmap, dc) :=
              (match re_mode env with
               | RecvDiff remap =>
                   diff_compare env remap addr (rs_cmpf st) (rs_bmap st) (re_zeros env)
               | _ => Ok (rs_cmpf st, rs_bmap st, 0)
               end) in
            Ok (mkRecvState mf stream (rs_polls st) pos (rs_savef st) cmpf bmap
                            (rs_diff_count st + dc) (rs_rc st) (rs_buf st)
                            (Some addr), Continue)
        else if (untrusted_size >? chunksize + chunksize / 1024)
                || (untrusted_size <? 1)
        then Raise (BufferError "Bad chunk size")
        else
          let size := untrusted_size in
          let untrusted_buf := firstn (Z.to_nat size) stream in
          let stream := skipn (Z.to_nat size) stream in
          let rc := match rs_polls st with [] => None | r :: _ => r end in
          let polls := match rs_polls st with [] => [] | _ :: p => p end in
          if bool_decide (rc <> None) && (length untrusted_buf =? 0)%nat
          then Ok (mkRecvState mf stream polls (rs_savef_pos st) (rs_savef st)
                               (rs_cmpf st) (rs_bmap st) (rs_diff_count st)
                               (Some rc) (rs_buf st) (Some addr), Break)
          else if negb (Z.of_nat (length untrusted_buf) =? size)
          then Raise (BufferError "Got fewer bytes than expected")
          else if negb (String.eqb cksum (sha256_hexdigest untrusted_buf))
          then Raise (ValueError "Bad hash")
          else if negb (String.eqb (re_compression env) "zlib"
                        || String.eqb (re_compression env) "gzip")
          then Raise (UnboundLocalError "decompress")
          else
            try! untrusted_decomp :=
              (match zlib_decompress untrusted_buf decomp_bits chunksize with
               | Some d => Ok d
               | None => Raise ZlibError
               end) in
            let dlen := Z.of_nat (length untrusted_decomp) in
            if negb (dlen =? chunksize) && (addr <? re_lchunk_addr env)
            then Raise (BufferError "Decompressed to a wrong length")
            else if (addr =? re_lchunk_addr env)
                    && negb (dlen =? re_volsize env - re_lchunk_addr env)
            then Raise (BufferError "Decompressed to a wrong length")
            else
              let buf := untrusted_decomp in
              match re_mode env with
              | RecvVerify =>
                  Ok (mkRecvState mf stream polls (rs_savef_pos st) (rs_savef st)
                                  (rs_cmpf st) (rs_bmap st) (rs_diff_count st)
                                  (Some rc) (Some buf) (Some addr), Continue)
              | RecvSave =>
                  Ok (mkRecvState mf stream polls (rs_savef_pos st + dlen)
                                  (rs_savef st ++ [(rs_savef_pos st, buf)])
                                  (rs_cmpf st) (rs_bmap st) (rs_diff_count st)
                                  (Some rc) (Some buf) (Some addr), Continue)
              | RecvDiff remap =>
                  try! (cmpf, bmap, dc) :=
                    diff_compare env remap addr (rs_cmpf st) (rs_bmap st) buf in
                  Ok (mkRecvState mf stream polls (rs_savef_pos st) (rs_savef st)
                                  cmpf bmap (rs_diff_count st + dc)
                                  (Some rc) (Some buf) (Some addr), Continue)
              end
  | _ => Raise (ValueError "not enough values to unpack")
  end.

(** The [for] loop, left at the first [break]. *)
Fixpoint receive_loop `{Codec} (env : recv_env) (st : recv_state) (addrs : list Z)
  : outcome recv_state :=
  match addrs with
  | [] => Ok st
  | addr :: rest =>
      try! (st', ctl) := receive_chunk env st addr in
      match ctl with
      | Continue => receive_loop env st' rest
      | Break => Ok st'
      end
  end.

(** The statements after the loop, up to the end of the function. *)
Definition receive_finish (env : recv_env) (st : recv_state) : outcome recv_state :=
  match rs_rc st with
  | None => Raise (UnboundLocalError "rc")
  | Some rc =>
      if match rc with Some c => c >? 0 | None => false end
      then Raise (RuntimeError "Error code from getvol process")
      else
        match rs_addr st with
        | None => Raise (UnboundLocalError "addr")
        | Some addr =>
            match rs_buf st with
            | None => Raise (UnboundLocalError "buf")
            | Some buf =>
                if negb (addr + Z.of_nat (length buf) =? re_volsize env)
                then Raise (ValueError "Received range does not match volume size")
                else
                  match re_mode env with
                  | RecvDiff false =>
                      if negb (rs_diff_count st =? 0)
                      then x_it 1 "bytes differ."
                      else Ok st
                  | _ => Ok st
                  end
            end
        end
  end.

(** The Delta Map as [diff --remap] opens it: the file, made of zeros
    where it does not exist (which is what the truncation makes of an empty
    one), is cut or extended to [vol.mapsize()] before it is mapped.  The
    other modes open no map. *)
Definition open_deltamap (mode : recv_mode) (volsize chunksize : Z) (bmap : bytes)
  : outcome bytes :=
  match mode with
  | RecvDiff true =>
      try! msize := mapsize volsize chunksize None in
      Ok (ftruncate bmap msize)
  | _ => Ok bmap
  end.

(** [receive_volume]: [mf] is the merged manifest written by the sort
    pipeline, [stream] the bytes the destination helper sends, [polls] the
    process states seen, [cmpf] the compare volume and [bmap] the content
    of the Delta Map file of a [diff].  Of the statements before the chunk
    loop those are kept that the loop depends on: [zeros], [lchunk_addr]
    and the opening of the map. *)
Definition receive_volume `{Codec} (mode : recv_mode) (volsize chunksize : Z)
    (compression : string) (mf : list (list string)) (stream : bytes)
    (polls : list (option Z)) (cmpf bmap : bytes) : outcome recv_state :=
  try! zeros := py_bytes chunksize in
  if chunksize =? 0 then Raise ZeroDivisionError
  else
    let env := mkRecvEnv mode volsize chunksize compression zeros
                         (last_chunk_addr volsize chunksize) in
    try! bmap_mm := open_deltamap mode volsize chunksize bmap in
    try! st := receive_loop env
                 (mkRecvState mf stream polls 0 [] cmpf bmap_mm 0 None None None)
                 (py_range 0 volsize chunksize) in
    receive_finish env st.

(** ** arch_init *)

(** The command-line options [arch_init] reads; [chfactor] is [None]
    without [--chunk-factor]. *)
Record init_options : Type := mkInitOptions {
  io_source : string;
  io_dest : string;
  io_subdir : string;
  io_compression : string;
  io_chfactor : option Z
}.

(** The persisted variables of a new archive set. *)
Record ArchiveConf : Type := mkArchiveConf {
  ac_chunksize : Z;
  ac_compression : string;
  ac_compr_level : string;
  ac_vgname : string;
  ac_poolname : string;
  ac_destsys : string;
  ac_destdir : string;
  ac_destmountpoint : string
}.

(** The values [ArchiveSet.__init__] sets before a configuration exists. *)
Definition default_conf : ArchiveConf :=
  mkArchiveConf bkchunksize "zlib" "4" "" "" "" "." "".

Definition dtypes : list string :=
  ["qubes://"; "ssh://"; "qubes-ssh://"; "internal:"]%string.

(** The loop over [dtypes]: the last value of [i] and the three parts of
    the destination. *)
Fixpoint parse_dest (types : list string) (i : string) (dest : string)
  : string * (string * string * string) :=
  match types with
  | [] => (i, (EmptyString, EmptyString, EmptyString))
  | t :: rest =>
      match strip_prefix t dest with
      | Some r => (t, str_partition "/" r)
      | None => parse_dest rest t dest
      end
  end.

(** [arch_init(aset)]: the configuration handed to [save_conf], or the
    exception or exit that ends the call before. *)
Definition arch_init (options : init_options) (aset : ArchiveConf)
  : outcome ArchiveConf :=
  if String.eqb (io_source options) "" || String.eqb (io_dest options) ""
  then x_it 1 "--source and --dest are required."
  else
    match str_split "/" (io_source options) with
    | [vgname; poolname] =>
        let '(i, (destsys, delim, mountpoint)) :=
          parse_dest dtypes EmptyString (io_dest options) in
        let parts := str_split "|" destsys in
        if (String.eqb mountpoint "" && String.eqb delim "")
           || (negb (String.eqb i "internal:") && String.eqb destsys "")
           || (String.eqb i "qubes-ssh://"
               && (bool_decide (EmptyString ∈ parts) || (length parts <? 2)%nat))
        then x_it 1 "Error: Malformed --dest specification."
        else
          try! destdir :=
            (if String.eqb (io_subdir options) "" then Ok (ac_destdir aset)
             else match strip (io_subdir options) with
                  | EmptyString => Raise (IndexError "string index out of range")
                  | String c _ =>
                      if Ascii.eqb c "/" then x_it 1 "Subdir cannot be absolute path."
                      else Ok (strip (io_subdir options))
                  end) in
          try! (compression, compr_level) :=
            (if String.eqb (io_compression options) "" then
               Ok (ac_compression aset, ac_compr_level aset)
             else if str_contains ":" (io_compression options) then
               match str_split ":" (strip (io_compression options)) with
               | [compression; compr_level] =>
                   if negb (String.eqb compression "zlib")
                   then x_it 1 "Invalid compression spec."
                   else Ok (compression, compr_level)
               | _ => Raise (ValueError "too many values to unpack")
               end
             else Raise (UnboundLocalError "compression")) in
          try! chunksize :=
            (match io_chfactor options with
             | None => Ok (ac_chunksize aset)
             | Some n =>
                 if n =? 0 then Ok (ac_chunksize aset)
                 else
                   let chunksize := n * bkchunksize in
                   if chunksize >? 16 * 1024 * 1024
                   then x_it 1 "Requested chunk size not supported."
                   else Ok chunksize
             end) in
          Ok (mkArchiveConf chunksize compression compr_level vgname poolname
                            (i ++ destsys)%string destdir (delim ++ mountpoint)%string)
    | _ => Raise (ValueError "not enough or too many values to unpack")
    end.

(** The chunk size arch-init is asked for: [N * 65536]. *)
Definition requested_chunksize (n : Z) : Z := n * bkchunksize.

(** A stand-in for the library functions in closed examples: data stored
    behind a one-byte header, and a two-byte digest (length and sum). *)
Definition stored_codec : Codec := {|
  zlib_compress := fun b _ => 120 :: b;
  sha256_digest := fun b => [Z.of_nat (length b) mod 256; fold_right Z.add 0 b mod 256];
  zlib_decompress := fun b _ _ => match b with 120 :: r => Some r | _ => None end
|}.

(** ** Definitions used to state the properties *)

(** The send-all threshold in the words of the specification: 0 for the
    first session; else, when the volume has grown, the first chunk offset
    beyond the prior size; else [volsize + 1]. *)
Definition spec_sendall_addr (first_session : bool)
    (prior volsize chunksize : Z) : Z :=
  if first_session then 0
  else if volsize >? prior then last_chunk_addr prior chunksize + chunksize
  else volsize + 1.

(** Decimal digits of a number below 100. *)
Definition two_digits (n : nat) : string :=
  String (ascii_of_nat (48 + n / 10)) (String (ascii_of_nat (48 + n mod 10)) EmptyString).

(** The session of volume [vm1] taken [i] seconds into 2019-01-01. *)
Definition session_at_second (i : nat) : string * string :=
  ("vm1"%string,
   ("S_20190101-" ++ two_digits (i / 3600) ++ two_digits (i / 60 mod 60)
    ++ two_digits (i mod 60))%string).

(** An archive of one volume with 65535 sessions. *)
Definition busy_archive : ArchiveSet :=
  mkArchiveSet 65536 "zlib" "4" "vg" "/mnt" 1 (map session_at_second (seq 0 (Z.to_nat 65535))).

(** The options with another [--chunk-factor]. *)
Definition with_chfactor (options : init_options) (n : option Z) : init_options :=
  mkInitOptions (io_source options) (io_dest options) (io_subdir options)
                (io_compression options) n.

(** The configuration with another chunk size. *)
Definition with_chunksize (conf : ArchiveConf) (c : Z) : ArchiveConf :=
  mkArchiveConf c (ac_compression conf) (ac_compr_level conf) (ac_vgname conf)
                (ac_poolname conf) (ac_destsys conf) (ac_destdir conf)
                (ac_destmountpoint conf).
(** Options of an [arch-init] run that names a source and a local
    destination and nothing else. *)
Definition init_options_example : init_options :=
  mkInitOptions "vg0/pool0" "internal:/mnt/backup" "" "" None.


(** A manifest line of an all-zero chunk: hash [0], a file name and the
    session column. *)
Definition zero_entry (line : list string) : Prop :=
  exists fname ses, line = ["0"%string; fname; ses].

(** A receive in [verify] mode of a two-chunk volume with 64 KiB chunks,
    about to read the entry of its first chunk, whose hash is not [0], while
    the helper announces a payload of 0 bytes. *)
Definition recv_env_example : recv_env :=
  mkRecvEnv RecvVerify 131072 65536 "zlib" (repeat 0 (Z.to_nat 65536)) 65536.

Definition recv_state_size0 : recv_state :=
  mkRecvState
    [["e3b0c44298fc1c149afbf4c8996fb92427ae41e4649b934ca495991b7852b855";
      "x0000000000000000"; "S_20190101-000000"]%string]
    [0; 0; 0; 0] [] 0 [] [] [] 0 None None None.


(** [dt] with the session prefix, as [prune_sessions] compares it:
    ["S_" + dt.strip()]. *)
Definition session_of_time (dt : string) : string := ("S_" ++ strip dt)%string.

(** The two bounds [t1] and [t2] of a selection; [t2] is empty for a
    single date-time. *)
Definition selection_t1 (times : list string) : string :=
  match times with
  | time0 :: _ => session_of_time time0
  | [] => EmptyString
  end.

Definition selection_t2 (times : list string) : string :=
  match times with
  | _ :: time1 :: _ => session_of_time time1
  | _ => EmptyString
  end.

(** A selection reaches or passes the newest session name. *)
Definition reaches_newest (times : list string) (newest : string) : Prop :=
  str_le newest (selection_t1 times) = true
  \/ str_le newest (selection_t2 times) = true.

(** A date-time check that accepts exactly 15 characters (the length of
    [YYYYMMDD-HHMMSS]), for closed examples. *)
Definition length15_datetime : DateTime :=
  {| strptime_ok := fun s => (String.length s =? 15)%nat |}.

(** A volume with three sessions, and the state of a prune on it. *)
Definition ses_example (name previous : string) (sequence : Z) : Ses :=
  mkSes name "vm1" ("/var/lib/sparsebak/default/vm1/" ++ name)%string
        (str_slice name 2 17) 1048576 "folders" sequence previous.

Definition vol_example : Volume :=
  mkVolume "vm1" "/var/lib/sparsebak/default/vm1"
    (<["S_20190101-000000"%string := ses_example "S_20190101-000000" "none" 0]>
     (<["S_20190102-000000"%string := ses_example "S_20190102-000000" "S_20190101-000000" 1]>
      (<["S_20190103-000000"%string := ses_example "S_20190103-000000" "S_20190102-000000" 2]>
       ∅)))
    ["S_20190101-000000"; "S_20190102-000000"; "S_20190103-000000"]%string
    (Some "S_20190101-000000"%string) (Some "S_20190103-000000"%string)
    1048576 "false".

Definition pstate_example : pstate :=
  mkPState vol_example
    [("vm1", "S_20190101-000000"); ("vm1", "S_20190102-000000");
     ("vm1", "S_20190103-000000")]%string [].


(** The map the loop has built so far, with the pending byte [bmap_byte]
    counted in at [lastindex]. *)
Definition pending_bit (st : delta_state) (k : Z) : bool :=
  chunk_bit (ds_bmap st) k
  || ((k / 8 =? ds_lastindex st) && Z.testbit (ds_byte st) (k mod 8)).

(** A volume that is configured and mapped but has no session yet. *)
Definition vol_no_session : Volume :=
  mkVolume "vm1" "/var/lib/sparsebak/default/vm1" ∅ [] None None 0 "false".

(** A thin delta of a pool with 64 KiB blocks: blocks 1 and 2 differ,
    block 5 is the same. *)
Definition diff_example : list delta :=
  [mkDelta "different" 1 2; mkDelta "same" 5 1].


(** The chunk at [addr] is sent: it lies at or above the send-all
    threshold, or its Delta Map bit is set. *)
Definition chunk_selected (sendall_addr : Z) (bmap : bytes) (chunksize addr : Z)
  : bool :=
  (sendall_addr <=? addr) || chunk_bit bmap (addr / chunksize).

(** All bytes of the chunk at [addr] are zero. *)
Definition chunk_all_zero (vf : bytes) (addr chunksize : Z) : bool :=
  forallb (Z.eqb 0) (vf_read vf addr chunksize).

(** The chunk is all zero and not the last chunk of the volume. *)
Definition zero_skipped (vf : bytes) (volsize chunksize addr : Z) : bool :=
  chunk_all_zero vf addr chunksize
  && negb (addr =? last_chunk_addr volsize chunksize).

(** The manifest line of a sent chunk: hash [0] for a skipped chunk, the
    hexadecimal SHA-256 of the compressed bytes otherwise. *)
Definition manifest_line `{Codec} (vf : bytes) (volsize chunksize level addr : Z)
  : string * string :=
  if zero_skipped vf volsize chunksize addr
  then ("0"%string, destfile_of addr)
  else (sha256_hexdigest (zlib_compress (vf_read vf addr chunksize) level),
        destfile_of addr).

(** The tar entry that carries the compressed bytes of the chunk. *)
Definition chunk_file `{Codec} (sdir : string) (vf : bytes)
    (chunksize level addr : Z) : tar_entry :=
  TarFile (tar_path sdir (destfile_of addr))
          (zlib_compress (vf_read vf addr chunksize) level).

(** The tar entry [e] stands for the chunk at [addr]: its compressed
    bytes, or a link under the chunk's name to a chunk archived before. *)
Definition sent_as `{Codec} (sdir : string) (vf : bytes)
    (chunksize level addr : Z) (e : tar_entry) : Prop :=
  e = chunk_file sdir vf chunksize level addr
  \/ exists linkname, e = TarLink (tar_path sdir (destfile_of addr)) linkname.

(** The target of the link to a chunk the index names: the chunk [ddchx]
    in the directory of session number [ddses_i] of the master list, under
    that session's volume; the directory still ends in [-tmp] when the
    session is the one being sent.  [None] when the list has no such
    session. *)
Definition link_name (allsessions : list (string * string))
    (ses_index ddses_i : Z) (ddchx : string) : option string :=
  match py_index (Z.of_nat (length allsessions)) ddses_i with
  | None => None
  | Some i =>
      match allsessions !! i with
      | None => None
      | Some (ddvol, ddname) =>
          Some (ddvol ++ "/"
                ++ (if (Z.of_nat i =? ses_index)%Z then ddname ++ "-tmp"
                    else ddname)
                ++ "/" ++ str_slice ddchx 0 addrsplit ++ "/x" ++ ddchx)%string
      end
  end.

(** The tar entries of the stored chunks [addrs] in a send with the dedup
    index, and the index after them.  The hash of the compressed bytes of
    each chunk is looked up in the index as the chunks before have left
    it: on a hit the entry is a link, without data, to the chunk the index
    names; on a miss it is the compressed bytes, and the index goes on
    with the hash added for this chunk and session. *)
Fixpoint dedup_entries `{Codec} `{DedupIndex D}
    (allsessions : list (string * string)) (ses_index : Z) (sdir : string)
    (vf : bytes) (chunksize level : Z) (addrs : list Z) (idx : D)
  : option (list tar_entry * D) :=
  match addrs with
  | [] => Some ([], idx)
  | addr :: addrs' =>
      let cbuf := zlib_compress (vf_read vf addr chunksize) level in
      let name := tar_path sdir (destfile_of addr) in
      let probe := dedup_probe idx (sha256_digest cbuf) addr ses_index in
      let entry :=
        match snd probe with
        | Some (ddses_i, ddchx) =>
            option_map (TarLink name) (link_name allsessions ses_index ddses_i ddchx)
        | None => Some (TarFile name cbuf)
        end in
      match entry, dedup_entries allsessions ses_index sdir vf chunksize level
                                 addrs' (fst probe) with
      | Some e, Some (es, idx') => Some (e :: es, idx')
      | _, _ => None
      end
  end.


(** The addresses [send_volume] writes a manifest line for, and those it
    adds a tar entry for. *)
Definition emitted_addrs (aset : ArchiveSet) (vol : Volume) (snap2size : Z)
    (bmap : bytes) : list Z :=
  List.filter
    (chunk_selected
       (compute_sendall_addr (bool_decide (size (vol_sessions vol) = 0%nat))
                             (vol_volsize vol) snap2size (as_chunksize aset))
       bmap (as_chunksize aset))
    (py_range 0 snap2size (as_chunksize aset)).

Definition stored_addrs (aset : ArchiveSet) (vol : Volume) (snap2size : Z)
    (vf bmap : bytes) : list Z :=
  List.filter (fun addr => negb (zero_skipped vf snap2size (as_chunksize aset) addr))
              (emitted_addrs aset vol snap2size bmap).

(** The level [send_volume] compresses with, [int(aset.compr_level)]; 0
    stands in where [int] raises and nothing is compressed. *)
Definition compresslevel (aset : ArchiveSet) : Z :=
  match py_int (as_compr_level aset) with
  | Ok level => level
  | Raise _ => 0
  end.

(** The directory of the new session inside the tar stream. *)
Definition session_dir (vol : Volume) (localtime : string) : string :=
  pjoin (vol_name vol) ("S_" ++ localtime)%string.

(** The loop-invariant values [env] are those of a send of the volume
    bytes [vf] of size [volsize] with the Delta Map [bmap]; the map the
    loop reads is [bmap] unless every chunk is sent anyway. *)
Definition send_env_for (env : send_env) (vf bmap : bytes) (volsize : Z) : Prop :=
  0 < se_chunksize env
  /\ se_zeros env = repeat 0 (Z.to_nat (se_chunksize env))
  /\ se_lchunk_addr env = last_chunk_addr volsize (se_chunksize env)
  /\ se_vf env = vf
  /\ Z.of_nat (length vf) = volsize
  /\ (se_sendall_addr env <= 0 \/ se_bmap_mm env = bmap).

(** Manifest lines and tar entries of the chunk at [addr]. *)
Definition lines_of `{Codec} (env : send_env) (vf bmap : bytes) (volsize addr : Z)
  : list (string * string) :=
  if chunk_selected (se_sendall_addr env) bmap (se_chunksize env) addr
  then [manifest_line vf volsize (se_chunksize env) (se_compresslevel env) addr]
  else [].

Definition stored_of (env : send_env) (vf bmap : bytes) (volsize addr : Z)
  : list Z :=
  if chunk_selected (se_sendall_addr env) bmap (se_chunksize env) addr
     && negb (zero_skipped vf volsize (se_chunksize env) addr)
  then [addr] else [].

(** An archive with 64 KiB chunks and zlib level 4, without sessions. *)
Definition aset_example : ArchiveSet :=
  mkArchiveSet 65536 "zlib" "4" "vg0" "/mnt/backup" 1 [].


(** An all-zero snapshot of 256 MiB. *)
Definition zero_device : bytes := repeat 0 (Z.to_nat 268435456).

(** * Further parts of the program *)

(** ** Session chains and the reset of the Delta Map *)

(** Every session of the list points back to the name before it, the
    first one to [prev]. *)
Fixpoint chain (sessions : gmap string Ses) (prev : string) (names : list string)
  : Prop :=
  match names with
  | [] => True
  | name :: rest =>
      (exists s, sessions !! name = Some s /\ ses_previous s = prev)
      /\ chain sessions name rest
  end.

(** The ordered name list is linked from ["none"] on. *)
Definition linked (sessions : gmap string Ses) (names : list string) : Prop :=
  chain sessions "none" names.

(** The records of a volume agree: [sesnames] lists every session once,
    oldest first, each linked to the one before, and [first] and [last]
    name its two ends. *)
Definition well_linked (vol : Volume) : Prop :=
  NoDup (vol_sesnames vol)
  /\ ("none"%string ∉ vol_sesnames vol)
  /\ linked (vol_sessions vol) (vol_sesnames vol)
  /\ (forall k, is_Some (vol_sessions vol !! k) -> k ∈ vol_sesnames vol)
  /\ vol_first vol = head (vol_sesnames vol)
  /\ vol_last vol = last (vol_sesnames vol).

(** [Volume.__init__], the loop [for i in range(len(self.sessions))] that
    builds the ordered list from [self.last] backwards: [n] iterations are
    left, [sname] is the name to insert next. *)
Fixpoint build_sesnames_loop (sessions : gmap string Ses) (n : nat)
    (sname : string) (sesnames : list string) : outcome (list string) :=
  match n with
  | O => Ok sesnames
  | S n' =>
      let sesnames := sname :: sesnames in
      if String.eqb sname "none" then Ok sesnames
      else match sessions !! sname with
           | None => Raise (KeyError sname)
           | Some s => build_sesnames_loop sessions n' (ses_previous s) sesnames
           end
  end.

(** The list [Volume.__init__] leaves in [self.sesnames]; [last] is [None]
    when no [volinfo] file named one. *)
Definition build_sesnames (sessions : gmap string Ses) (last : option string)
  : outcome (list string) :=
  match size sessions with
  | O => Ok []
  | S _ =>
      match last with
      | None => Raise (KeyError "None")
      | Some l => build_sesnames_loop sessions (size sessions) l []
      end
  end.

(** [init_deltamap(bmfile, bmsize)]: the new map file, [bmsize] zero
    bytes. *)
Definition init_deltamap (bmsize : Z) : bytes := ftruncate [] bmsize.
(** ** detect_internal_state *)

(** [s[a:]] on strings. *)
Definition str_from (s : string) (a : Z) : string :=
  str_slice s a (Z.of_nat (String.length s)).

(** [detect_internal_state()]: the destination type read off
    [aset.destsys] and the check of the programs needed.  [qubes_release]
    is [os.path.exists("/etc/qubes-release")], [which] tells whether
    [shutil.which] finds a program.  The source walks a set of program
    names, in no fixed order; the message names the first missing one in
    the order written there.  The version note of [thin_delta -V] and the
    writing of the helper program are left out. *)
Definition detect_internal_state (qubes_release : bool) (which : string -> bool)
    (destsys : string) : outcome (string * string) :=
  try! (destsys, desttype) :=
    (if qubes_release && String.eqb (str_slice destsys 0 8) "qubes://"
     then Ok (str_from destsys 8, "qubes"%string)
     else if String.eqb (str_slice destsys 0 6) "ssh://"
     then Ok (str_from destsys 6, "ssh"%string)
     else if String.eqb (str_slice destsys 0 12) "qubes-ssh://"
     then Ok (str_from destsys 12, "qubes-ssh"%string)
     else if String.eqb (str_slice destsys 0 11) "internal:"
     then Ok (destsys, "internal"%string)
     else Raise (ValueError "'destsys' not an accepted type.")) in
  match List.find (fun prg => negb (which prg))
          ["thin_delta"; "lvs"; "lvdisplay"; "lvcreate"; "blkdiscard"; "truncate";
           if String.eqb desttype "ssh" then "ssh" else "sh"]%string with
  | Some prg => Raise (RuntimeError ("Required command not found: " ++ prg))
  | None => Ok (destsys, desttype)
  end.

(** ** Receive: what is written *)

(** A write [(pos, buf)] of the receive path is verified against the
    manifest [mf]: it starts at a chunk address of the volume, ends inside
    the volume, and [buf] is what a payload with the SHA-256 of the
    manifest line of that address decompresses to. *)
Definition verified_write `{Codec} (volsize chunksize : Z) (mf : list (list string))
    (w : Z * bytes) : Prop :=
  In (fst w) (py_range 0 volsize chunksize)
  /\ fst w + Z.of_nat (length (snd w)) <= volsize
  /\ exists cksum ses payload,
       mf !! Z.to_nat (fst w / chunksize) = Some [cksum; destfile_of (fst w); ses]
       /\ sha256_hexdigest payload = cksum
       /\ zlib_decompress payload decomp_bits chunksize = Some (snd w).

(** ** The destination helper and the file a receive writes *)

(** [n.to_bytes(4, "big")] for [0 <= n < 2^32]. *)
Definition to_bytes4 (n : Z) : bytes :=
  [n / 2 ^ 24 mod 256; n / 2 ^ 16 mod 256; n / 2 ^ 8 mod 256; n mod 256].

(** The helper program [dest_helper.py] at the destination, command
    [receive]: for each file named in [dest.lst] (the lines already
    stripped) its size in four bytes, 0 for a file that does not exist,
    and then its bytes.  [fs] gives the content of the files of the
    destination.  The result is what the helper has written to its output
    and its exit status; a size of [2^32] or more ends it with the
    [OverflowError] of [to_bytes]. *)
Fixpoint helper_receive (fs : string -> option bytes) (lst : list string)
  : bytes * Z :=
  match lst with
  | [] => ([], 0)
  | fname :: rest =>
      let data := match fs fname with Some d => d | None => [] end in
      let fsize := Z.of_nat (length data) in
      if 2 ^ 32 <=? fsize then ([], 1)
      else
        let '(out, rc) := helper_receive fs rest in
        (to_bytes4 fsize ++ data ++ out, rc)
  end.

(** The path that the [sed] expression of [receive_volume] makes of a
    line of [manifest.verify] with the file name [fname] and the session
    [ses], for [dest.lst]: [ses/<the 9 characters after the x>/fname]. *)
Definition dest_path (ses fname : string) : string :=
  (ses ++ "/" ++ str_slice fname 1 (1 + fst address_split) ++ "/" ++ fname)%string.

(** The line of [manifest.verify] for a line of the manifest of session
    [ses]: the session name as third column. *)
Definition verify_line (ses : string) (l : string * string) : list string :=
  [fst l; snd l; ses].

(** [f.seek(pos); f.write(buf)] on a file with content [f]; a gap after
    the end of the file reads as zeros. *)
Definition write_at (f : bytes) (pos : Z) (buf : bytes) : bytes :=
  firstn (Z.to_nat pos) f ++ repeat 0 (Z.to_nat pos - length f)
  ++ buf ++ skipn (Z.to_nat pos + length buf) f.

(** The file at the save path after a receive: [volsize] zero bytes
    ([truncate(0)], [truncate(volsize)]) with the writes applied in
    order. *)
Definition file_image (volsize : Z) (writes : list (Z * bytes)) : bytes :=
  fold_left (fun f w => write_at f (fst w) (snd w)) writes
            (repeat 0 (Z.to_nat volsize)).

(** No character of [s] is white space. *)
Definition nospace (s : string) : bool :=
  forallb (fun c => negb (is_space c)) (list_ascii_of_string s).

(** What the helper sends for the chunk at [addr] of a session that holds
    the volume bytes [vf]: size 0 for a chunk without a file, the size and
    the compressed bytes otherwise. *)
Definition helper_chunk `{Codec} (vf : bytes) (volsize chunksize level addr : Z)
  : bytes :=
  if zero_skipped vf volsize chunksize addr then to_bytes4 0
  else
    let d := zlib_compress (vf_read vf addr chunksize) level in
    to_bytes4 (Z.of_nat (length d)) ++ d.

(** The write a receive makes for the chunk at [addr]: none for a chunk
    without a file. *)
Definition chunk_write (vf : bytes) (volsize chunksize addr : Z)
  : list (Z * bytes) :=
  if zero_skipped vf volsize chunksize addr then []
  else [(addr, vf_read vf addr chunksize)].

(** What a call of [getvol.poll()] returns while the helper runs or after
    it has ended with status 0. *)
Definition okpoll (p : option Z) : Prop := p = None \/ p = Some 0.

(** An archive with 1 KiB chunks, without sessions. *)
Definition aset_1k : ArchiveSet :=
  mkArchiveSet 1024 "zlib" "4" "vg0" "/mnt/backup" 1 [].

(** A snapshot of 2148 bytes: a chunk of sevens, a chunk of zeros and a
    last chunk of 100 fives. *)
Definition gap_device : bytes :=
  repeat 7 (Z.to_nat 1024) ++ repeat 0 (Z.to_nat 1024) ++ repeat 5 (Z.to_nat 100).

(** The chunk files of session [S_20190101-000000] at the destination after
    [gap_device] has been sent with [stored_codec]: one for the first and
    one for the last chunk. *)
Definition dest_example (path : string) : option bytes :=
  if String.eqb path "S_20190101-000000/000000000/x0000000000000000"
  then Some (120 :: repeat 7 (Z.to_nat 1024))
  else if String.eqb path "S_20190101-000000/000000000/x0000000000000800"
  then Some (120 :: repeat 5 (Z.to_nat 100))
  else None.

(** ** add_volume *)

(** A character of the class [[a-zA-Z0-9\+\._-]]. *)
Definition volname_char (c : ascii) : bool :=
  let n := nat_of_ascii c in
  ((97 <=? n) && (n <=? 122) || (65 <=? n) && (n <=? 90)
   || (48 <=? n) && (n <=? 57)
   || (n =? 43) || (n =? 46) || (n =? 95) || (n =? 45))%nat.

(** The rest of the match after a first character of the class: more of
    them, then [$], the end of the string or a newline that ends it. *)
Fixpoint volname_rest (s : string) : bool :=
  match s with
  | EmptyString => true
  | String c s' =>
      if volname_char c then volname_rest s'
      else Ascii.eqb c "010" && String.eqb s' ""
  end.

(** [volname_check.match(datavol) is not None] with
    [volname_check = re.compile("^[a-zA-Z0-9\+\._-]+$")]. *)
Definition volname_check (datavol : string) : bool :=
  match datavol with
  | EmptyString => false
  | String c s' => volname_char c && volname_rest s'
  end.

(** [ArchiveSet.add_volume(datavol)] on the section [volumes] of the
    configuration, which [save_conf] then writes. *)
Definition add_volume (volumes : gmap string string) (datavol : string)
  : outcome (gmap string string) :=
  if bool_decide (is_Some (volumes !! datavol))
  then x_it 1 (datavol ++ " is already configured.")
  else if negb (volname_check datavol)
  then x_it 1 "Only characters A-Z 0-9 . + _ - are allowed in volume names."
  else if (112 <? String.length datavol)%nat
  then x_it 1 "Volume name must be 112 characters or less."
  else Ok (<[datavol := "enable"%string]> volumes).

(** The number [diff_count] of a [diff] of the archived bytes [vf] against
    the local bytes [cmp]: the length of every archived chunk that is not
    equal to what the local volume has at its place. *)
Definition diff_bytes (vf cmp : bytes) (chunksize : Z) (addrs : list Z) : Z :=
  fold_right
    (fun addr acc =>
       (if bool_decide (vf_read vf addr chunksize = vf_read cmp addr chunksize)
        then 0 else Z.of_nat (length (vf_read vf addr chunksize))) + acc)
    0 addrs.

(** * Properties *)

(** ** Map size (C4) *)

Lemma Qdiv_Z_8 (v c : Z) : 0 < c ->
  (inject_Z v / inject_Z c / inject_Z 8 == v # Z.to_pos (c * 8))%Q.
Proof.
  intros Hc. destruct c as [|p|p]; try lia.
  unfold Qeq, Qdiv, Qmult, Qinv, inject_Z. simpl. lia.
Qed.

Lemma spec_mapsize_eq (v c : Z) : 0 < c ->
  spec_mapsize v c = - (- v / (c * 8)) + 1.
Proof.
  intros Hc. unfold spec_mapsize.
  rewrite (Qceiling_comp _ _ (Qdiv_Z_8 v c Hc)).
  unfold Qceiling, Qfloor, Qopp. simpl.
  rewrite Z2Pos.id by lia. reflexivity.
Qed.

Lemma Qfloor_mapsize (v c : Z) : 0 < c ->
  Qfloor (inject_Z v / inject_Z c / inject_Z 8) = v / c / 8.
Proof.
  intros Hc. rewrite (Qfloor_comp _ _ (Qdiv_Z_8 v c Hc)).
  unfold Qfloor. rewrite Z2Pos.id by lia.
  rewrite Z.div_div by lia. reflexivity.
Qed.

(** C4, counterexample: a 4 MiB volume with 1 MiB chunks has a one-byte
    map, where the formula with the ceiling gives two bytes. *)
Lemma mapsize_ceiling_counterexample :
  mapsize 0 1048576 (Some 4194304) = Ok 1
  /\ spec_mapsize 4194304 1048576 = 2
  /\ mapsize 0 1048576 (Some 4194304) <> Ok (spec_mapsize 4194304 1048576).
Proof.
  split; [reflexivity | split; [reflexivity | ]].
  vm_compute. discriminate.
Qed.

(** C4, amended: for a positive chunk size and a positive volume size the
    map has [floor(volsize / chunksize / 8) + 1] bytes (two floor
    divisions).  That is the specification's [ceil(...) + 1] exactly when
    [8 * chunksize] divides the volume size and one byte less otherwise,
    and it always holds a bit for every chunk of the volume. *)
Theorem mapsize_floor (vol_volsize volsize chunksize : Z) :
  0 < chunksize -> 0 < volsize ->
  exists m,
    mapsize vol_volsize chunksize (Some volsize) = Ok m
    /\ m = Qfloor (inject_Z volsize / inject_Z chunksize / inject_Z 8) + 1
    /\ (m = spec_mapsize volsize chunksize <-> volsize mod (8 * chunksize) = 0)
    /\ (m <> spec_mapsize volsize chunksize -> m = spec_mapsize volsize chunksize - 1)
    /\ (forall addr, 0 <= addr < volsize -> 0 <= addr / chunksize / 8 < m).
Proof.
  intros Hc Hv. exists (volsize / chunksize / 8 + 1).
  assert (Hm : mapsize vol_volsize chunksize (Some volsize)
               = Ok (volsize / chunksize / 8 + 1)).
  { unfold mapsize. destruct (Z.eqb_spec volsize 0); [lia|].
    destruct (Z.eqb_spec chunksize 0); [lia|]. reflexivity. }
  rewrite Qfloor_mapsize by lia. rewrite spec_mapsize_eq by lia.
  rewrite !Z.div_div by lia.
  assert (Hq : 0 < chunksize * 8) by lia.
  replace (8 * chunksize) with (chunksize * 8) by lia.
  set (d := chunksize * 8) in *.
  pose proof (Z.div_mod volsize d ltac:(lia)) as Hdm.
  pose proof (Z.mod_pos_bound volsize d Hq) as Hb.
  assert (Hneg : volsize mod d = 0 -> - volsize / d = - (volsize / d)).
  { intros H0. symmetry. apply Z.div_unique_exact; [lia|]. rewrite H0 in Hdm. lia. }
  assert (Hpos : volsize mod d <> 0 -> - volsize / d = - (volsize / d) - 1).
  { intros H0. symmetry. apply (Z.div_unique_pos _ _ _ (d - volsize mod d)); lia. }
  split; [rewrite Hm; unfold d; rewrite Z.div_div by lia; reflexivity|].
  split; [reflexivity|].
  split; [|split].
  - destruct (Z.eq_dec (volsize mod d) 0) as [H0|H0].
    + rewrite (Hneg H0). split; intros; lia.
    + rewrite (Hpos H0). split; intros; lia.
  - intros Hne. destruct (Z.eq_dec (volsize mod d) 0) as [H0|H0].
    + rewrite (Hneg H0) in Hne. lia.
    + rewrite (Hpos H0). lia.
  - intros addr Ha. rewrite Z.div_div by lia. fold d.
    assert (0 <= addr / d) by (apply Z.div_pos; lia).
    assert (addr / d <= volsize / d) by (apply Z.div_le_mono; lia).
    lia.
Qed.

Lemma mapsize_floor_witness :
  exists m, mapsize 0 65536 (Some 268435456) = Ok m
    /\ m = Qfloor (inject_Z 268435456 / inject_Z 65536 / inject_Z 8) + 1
    /\ (m = spec_mapsize 268435456 65536 <-> 268435456 mod (8 * 65536) = 0)
    /\ (m <> spec_mapsize 268435456 65536 -> m = spec_mapsize 268435456 65536 - 1)
    /\ (forall addr, 0 <= addr < 268435456 -> 0 <= addr / 65536 / 8 < m).
Proof. apply (mapsize_floor 0 268435456 65536); lia. Defined.

(** ** Ranges of chunk addresses *)

Lemma py_range_In (stop step addr : Z) : 0 < step ->
  In addr (py_range 0 stop step) <-> 0 <= addr < stop /\ addr mod step = 0.
Proof.
  intros Hs. unfold py_range. destruct (Z.leb_spec step 0); [lia|].
  rewrite in_map_iff. setoid_rewrite in_seq.
  set (n := (stop - 0 + step - 1) / step).
  assert (Hn : forall i, 0 <= i -> (i < n <-> i * step < stop)).
  { intros i Hi. unfold n. split; intros Hlt.
    - assert (i + 1 <= (stop - 0 + step - 1) / step) by lia.
      assert ((i + 1) * step <= stop - 0 + step - 1).
      { etransitivity; [apply Z.mul_le_mono_nonneg_r; [lia|eassumption]|].
        rewrite Z.mul_comm. apply Z.mul_div_le. lia. }
      lia.
    - assert (i + 1 <= (stop - 0 + step - 1) / step); [|lia].
      apply Z.div_le_lower_bound; lia. }
  split.
  - intros (i & <- & Hi).
    assert (Hi0 : 0 <= Z.of_nat i) by lia.
    assert (Hin : Z.of_nat i < n) by lia.
    rewrite Z.add_0_l, Z.mod_mul by lia.
    apply Hn in Hin; lia.
  - intros (Ha & Hm).
    exists (Z.to_nat (addr / step)).
    assert (Hq : 0 <= addr / step) by (apply Z.div_pos; lia).
    assert (Hmul : addr = addr / step * step).
    { pose proof (Z.div_mod addr step ltac:(lia)). lia. }
    rewrite Z2Nat.id by lia. split; [lia|].
    assert (Hlt : addr / step < n) by (apply Hn; lia).
    lia.
Qed.

Lemma last_chunk_addr_bounds (volsize chunksize : Z) : 0 < chunksize ->
  volsize - chunksize <= last_chunk_addr volsize chunksize <= volsize - 1
  /\ last_chunk_addr volsize chunksize mod chunksize = 0.
Proof.
  intros Hc. unfold last_chunk_addr.
  pose proof (Z.mod_pos_bound (volsize - 1) chunksize Hc).
  split; [lia|].
  pose proof (Z.div_mod (volsize - 1) chunksize ltac:(lia)) as Hdm.
  replace (volsize - 1 - (volsize - 1) mod chunksize)
    with ((volsize - 1) / chunksize * chunksize) by lia.
  apply Z.mod_mul. lia.
Qed.

(** ** The send-all threshold (C3) *)

(** C3, counterexample: with 16 MiB chunks a volume grown from 4 MiB to
    8 MiB stays inside its only chunk; the threshold is [volsize + 1], not
    the first chunk offset beyond the prior size. *)
Lemma sendall_addr_counterexample :
  8388608 > 4194304
  /\ compute_sendall_addr false 4194304 8388608 16777216 = 8388608 + 1
  /\ last_chunk_addr 4194304 16777216 + 16777216 = 16777216
  /\ compute_sendall_addr false 4194304 8388608 16777216
     <> spec_sendall_addr false 4194304 8388608 16777216.
Proof. repeat split; try reflexivity. vm_compute. discriminate. Qed.

(** C3, amended: the threshold is 0 for the first session; otherwise it is
    the first chunk offset beyond the prior size when the last byte of the
    new volume lies at or beyond that offset, and [volsize + 1] in every
    other case.  It selects the same chunk addresses as the threshold of
    the specification. *)
Theorem sendall_addr_cases (send_all : bool) (prior volsize chunksize : Z) :
  0 < chunksize ->
  (send_all = true -> compute_sendall_addr send_all prior volsize chunksize = 0)
  /\ (send_all = false ->
      last_chunk_addr prior chunksize + chunksize <= volsize - 1 ->
      compute_sendall_addr send_all prior volsize chunksize
      = last_chunk_addr prior chunksize + chunksize)
  /\ (send_all = false ->
      volsize - 1 < last_chunk_addr prior chunksize + chunksize ->
      compute_sendall_addr send_all prior volsize chunksize = volsize + 1)
  /\ (forall addr, In addr (py_range 0 volsize chunksize) ->
      (compute_sendall_addr send_all prior volsize chunksize <= addr
       <-> spec_sendall_addr send_all prior volsize chunksize <= addr)).
Proof.
  intros Hc.
  pose proof (last_chunk_addr_bounds prior chunksize Hc) as [Hb Hm].
  unfold compute_sendall_addr, spec_sendall_addr.
  destruct send_all; simpl.
  { repeat split; intros; try discriminate; try lia. }
  destruct (Z.gtb_spec prior volsize), (Z.geb_spec (volsize - 1)
    (last_chunk_addr prior chunksize + chunksize)),
    (Z.gtb_spec volsize prior);
    (split; [discriminate|]); (split; [intros; lia|]); (split; [intros; lia|]);
    intros addr Ha; apply py_range_In in Ha; try lia.
Qed.

Lemma sendall_addr_cases_witness :
  (false = true -> compute_sendall_addr false 1048576 2097152 65536 = 0)
  /\ (false = false ->
      last_chunk_addr 1048576 65536 + 65536 <= 2097152 - 1 ->
      compute_sendall_addr false 1048576 2097152 65536
      = last_chunk_addr 1048576 65536 + 65536)
  /\ (false = false ->
      2097152 - 1 < last_chunk_addr 1048576 65536 + 65536 ->
      compute_sendall_addr false 1048576 2097152 65536 = 2097152 + 1)
  /\ (forall addr, In addr (py_range 0 2097152 65536) ->
      (compute_sendall_addr false 1048576 2097152 65536 <= addr
       <-> spec_sendall_addr false 1048576 2097152 65536 <= addr)).
Proof. apply (sendall_addr_cases false 1048576 2097152 65536). lia. Defined.

(** ** The session list of the 16-bit dedup indexes (C6) *)

Lemma py_slice_prefix {A} (l : list A) (stop : Z) : 0 <= stop ->
  py_slice l 0 stop = firstn (Z.to_nat stop) l.
Proof.
  intros Hs. unfold py_slice.
  set (n := Z.of_nat (length l)).
  assert (Ha : py_clamp n 0 = 0) by (unfold py_clamp; simpl; lia).
  assert (Hb : py_clamp n stop = Z.min stop n).
  { unfold py_clamp. destruct (Z.ltb_spec stop 0); [lia|reflexivity]. }
  rewrite Ha, Hb, Z.sub_0_r. change (Z.to_nat 0) with 0%nat. rewrite skipn_O.
  destruct (Z.min_spec stop n) as [[Hlt ->]|[Hge ->]].
  - reflexivity.
  - unfold n in *. rewrite Nat2Z.id. rewrite !firstn_all2; [reflexivity| |]; lia.
Qed.

Lemma init_dedup_index5_sessions_eq (aset : ArchiveSet) :
  init_dedup_index5_sessions aset = init_dedup_index4_sessions aset.
Proof. reflexivity. Qed.

(** C6, counterexample: with one volume and 65535 sessions both indexes
    keep 65534 sessions, one more than [65535 - 1 - 1]. *)
Lemma dedup_sessions_counterexample :
  Z.of_nat (length (init_dedup_index4_sessions busy_archive)) = 65534
  /\ Z.of_nat (length (init_dedup_index5_sessions busy_archive)) = 65534
  /\ ~ (Z.of_nat (length (init_dedup_index4_sessions busy_archive))
        <= 65535 - Z.of_nat (as_nvols busy_archive) - 1).
Proof.
  assert (H4 : Z.of_nat (length (init_dedup_index4_sessions busy_archive)) = 65534).
  { unfold init_dedup_index4_sessions, ses_w, busy_archive.
    cbn [as_allsessions as_nvols].
    rewrite py_slice_prefix by (change (2 ^ (2 * 8)) with 65536; lia).
    rewrite length_firstn, length_map, length_seq.
    change (2 ^ (2 * 8)) with 65536. lia. }
  assert (H5 : Z.of_nat (length (init_dedup_index5_sessions busy_archive)) = 65534).
  { rewrite init_dedup_index5_sessions_eq. exact H4. }
  split; [exact H4|]. split; [exact H5|].
  rewrite H4. unfold busy_archive. cbn [as_nvols]. lia.
Qed.

(** C6, amended: both indexes keep the first [65536 - |volumes| - 1]
    sessions of the master list, that is at most [65535 - |volumes|]
    entries (for an archive of at most 65535 volumes). *)
Theorem dedup_sessions_bound (aset : ArchiveSet) :
  Z.of_nat (as_nvols aset) <= 65535 ->
  init_dedup_index4_sessions aset
  = firstn (Z.to_nat (65536 - Z.of_nat (as_nvols aset) - 1)) (as_allsessions aset)
  /\ init_dedup_index5_sessions aset = init_dedup_index4_sessions aset
  /\ Z.of_nat (length (init_dedup_index4_sessions aset))
     <= 65536 - Z.of_nat (as_nvols aset) - 1
  /\ Z.of_nat (length (init_dedup_index5_sessions aset))
     <= 65535 - Z.of_nat (as_nvols aset).
Proof.
  intros Hn.
  assert (H4 : init_dedup_index4_sessions aset
    = firstn (Z.to_nat (65536 - Z.of_nat (as_nvols aset) - 1)) (as_allsessions aset)).
  { unfold init_dedup_index4_sessions, ses_w.
    change (2 ^ (2 * 8)) with 65536. apply py_slice_prefix. lia. }
  pose proof (init_dedup_index5_sessions_eq aset) as H5.
  split; [exact H4|]. split; [exact H5|].
  rewrite H5, H4, length_firstn. lia.
Qed.

Lemma dedup_sessions_bound_witness :
  init_dedup_index4_sessions (mkArchiveSet 65536 "zlib" "4" "vg" "/mnt" 2 [session_at_second 0])
  = [session_at_second 0]
  /\ Z.of_nat (length (init_dedup_index5_sessions
                         (mkArchiveSet 65536 "zlib" "4" "vg" "/mnt" 2 [session_at_second 0])))
     <= 65535 - 2.
Proof.
  pose proof (dedup_sessions_bound
                (mkArchiveSet 65536 "zlib" "4" "vg" "/mnt" 2 [session_at_second 0])
                ltac:(simpl; lia)) as (H4 & _ & _ & H5).
  split; [exact H4 | exact H5].
Defined.

(** ** The chunk factor of arch-init (C9) *)

(** C9, counterexample: [--chunk-factor 0] asks for a chunk size of 0
    bytes, and arch-init saves the configuration with the default chunk
    size instead of exiting with an error. *)
Lemma arch_init_chunk_factor_counterexample :
  requested_chunksize 0 <= 0
  /\ arch_init (with_chfactor init_options_example (Some 0)) default_conf
     = Ok (mkArchiveConf 65536 "zlib" "4" "vg0" "pool0" "internal:" "."
                         "/mnt/backup").
Proof. split; [vm_compute; discriminate | reflexivity]. Qed.

Lemma arch_init_chfactor (options : init_options) (aset conf : ArchiveConf)
    (n : option Z) :
  arch_init (with_chfactor options None) aset = Ok conf ->
  arch_init (with_chfactor options n) aset =
  match n with
  | None => Ok conf
  | Some n =>
      if n =? 0 then Ok conf
      else if n * bkchunksize >? 16 * 1024 * 1024
           then x_it 1 "Requested chunk size not supported."
           else Ok (with_chunksize conf (n * bkchunksize))
  end.
Proof.
  unfold arch_init, with_chfactor. cbn [io_source io_dest io_subdir io_compression io_chfactor].
  destruct (_ || _); [discriminate|].
  destruct (str_split "/" (io_source options)) as [|vg [|pool [|? ?]]]; try discriminate.
  destruct (parse_dest _ _ _) as [i [[destsys delim] mountpoint]].
  destruct (_ || _ || _); [discriminate|].
  destruct (if String.eqb (io_subdir options) "" then _ else _) as [destdir|e];
    [|discriminate].
  cbn [obind].
  destruct (if String.eqb (io_compression options) "" then _ else _) as [[c l]|e];
    [|discriminate].
  cbn [obind]. intros [= <-].
  destruct n as [n|]; [|reflexivity].
  destruct (n =? 0); [reflexivity|].
  destruct (n * bkchunksize >? 16 * 1024 * 1024); reflexivity.
Qed.

(** C9, amended: where arch-init accepts the other options, a positive
    chunk factor [N] is accepted exactly when [N * 65536] does not exceed
    16 MiB, and the chunk size saved is then that positive multiple of
    [512 * 128]; above 16 MiB arch-init exits with status 1 and saves
    nothing.  A chunk factor of 0 counts as not given: the configuration
    is saved with the chunk size it had. *)
Theorem arch_init_chunk_factor (options : init_options) (aset conf : ArchiveConf)
    (n : Z) :
  arch_init (with_chfactor options None) aset = Ok conf ->
  0 < n ->
  (requested_chunksize n <= 16 * 1024 * 1024 ->
   arch_init (with_chfactor options (Some n)) aset
   = Ok (with_chunksize conf (requested_chunksize n))
   /\ 0 < requested_chunksize n
   /\ requested_chunksize n mod (512 * 128) = 0)
  /\ (16 * 1024 * 1024 < requested_chunksize n ->
      arch_init (with_chfactor options (Some n)) aset
      = Raise (SystemExit 1 "Requested chunk size not supported."))
  /\ arch_init (with_chfactor options (Some 0)) aset = Ok conf.
Proof.
  intros Hok Hn.
  pose proof (arch_init_chfactor options aset conf (Some n) Hok) as Hs.
  pose proof (arch_init_chfactor options aset conf (Some 0) Hok) as H0.
  cbn beta iota in Hs, H0.
  destruct (Z.eqb_spec n 0); [lia|].
  unfold requested_chunksize.
  split; [|split].
  - intros Hle. destruct (Z.gtb_spec (n * bkchunksize) (16 * 1024 * 1024)); [lia|].
    split; [exact Hs|]. unfold bkchunksize, lvm_block_factor, bs.
    split; [lia|]. replace (n * (1 * 128 * 512)) with (n * (512 * 128)) by lia.
    apply Z.mod_mul. lia.
  - intros Hgt. destruct (Z.gtb_spec (n * bkchunksize) (16 * 1024 * 1024)); [|lia].
    exact Hs.
  - exact H0.
Qed.

Lemma arch_init_chunk_factor_witness :
  arch_init (with_chfactor init_options_example (Some 256)) default_conf
  = Ok (mkArchiveConf 16777216 "zlib" "4" "vg0" "pool0" "internal:" "."
                      "/mnt/backup")
  /\ arch_init (with_chfactor init_options_example (Some 257)) default_conf
     = Raise (SystemExit 1 "Requested chunk size not supported.").
Proof.
  split.
  - apply (arch_init_chunk_factor init_options_example default_conf
             (mkArchiveConf 65536 "zlib" "4" "vg0" "pool0" "internal:" "."
                            "/mnt/backup") 256);
      [reflexivity | lia | vm_compute; discriminate].
  - apply (arch_init_chunk_factor init_options_example default_conf
             (mkArchiveConf 65536 "zlib" "4" "vg0" "pool0" "internal:" "."
                            "/mnt/backup") 257);
      [reflexivity | lia | vm_compute; reflexivity].
Defined.

(** ** The payload size check of receive (C8) *)

(** C8, counterexample: an announced size of 0 for an entry with a
    non-zero hash lies in [0, C + C/1024], and the chunk is not accepted:
    whatever the codec, the iteration raises the size error. *)
Lemma receive_size_zero_counterexample :
  0 <= int_from_bytes_big (firstn 4 (rs_stream recv_state_size0))
    <= re_chunksize recv_env_example + re_chunksize recv_env_example / 1024
  /\ ~ (exists (cd : Codec) r,
          @receive_chunk cd recv_env_example recv_state_size0 0 = Ok r)
  /\ ~ (exists cd : Codec,
          @receive_chunk cd recv_env_example recv_state_size0 0
          <> Raise (BufferError "Bad chunk size")).
Proof.
  split; [vm_compute; split; discriminate|].
  split.
  - intros (cd & r & Hr). vm_compute in Hr. discriminate.
  - intros (cd & Hne). apply Hne. vm_compute. reflexivity.
Qed.

Lemma diff_compare_raises (env : recv_env) (remap : bool) (addr : Z)
    (cmpf bmap dbuf : bytes) (e : exn) :
  diff_compare env remap addr cmpf bmap dbuf = Raise e ->
  e = IndexError "mmap index out of range".
Proof.
  unfold diff_compare, mm_or.
  repeat case_match; simpl; intros; simplify_eq; reflexivity.
Qed.

(** C8, amended: for a manifest entry with a non-zero hash the announced
    payload size [s] passes the size check exactly when
    [1 <= s <= C + C/1024]; for any other size the iteration raises
    the size error, before the payload is read. *)
Theorem receive_chunk_size_check `{Codec} (env : recv_env) (st : recv_state)
    (addr : Z) (cksum fname ses : string) (rest : list (list string)) :
  rs_mf st = [cksum; fname; ses] :: rest ->
  fname = ("x" ++ chformat addr)%string ->
  strip cksum <> "0"%string ->
  (receive_chunk env st addr = Raise (BufferError "Bad chunk size")
   <-> ~ (1 <= int_from_bytes_big (firstn 4 (rs_stream st))
          <= re_chunksize env + re_chunksize env / 1024)).
Proof.
  intros Hmf -> Hck.
  unfold receive_chunk. rewrite Hmf.
  rewrite String.eqb_refl. cbn [negb].
  apply String.eqb_neq in Hck. rewrite Hck.
  set (s := int_from_bytes_big (firstn 4 (rs_stream st))).
  set (c := re_chunksize env).
  destruct (Z.gtb_spec s (c + c / 1024)); cbn [orb].
  { split; [lia | reflexivity]. }
  destruct (Z.ltb_spec s 1).
  { split; [lia | reflexivity]. }
  split; [|lia]. intros Hr. exfalso.
  repeat (case_match; try discriminate);
    try (simpl in Hr; discriminate Hr).
  all: unfold obind in Hr; repeat (case_match; try discriminate).
  all: match goal with
       | Hd : diff_compare _ _ _ _ _ _ = Raise _ |- _ =>
           apply diff_compare_raises in Hd; congruence
       end.
Qed.

Lemma receive_chunk_size_check_witness :
  @receive_chunk stored_codec recv_env_example recv_state_size0 0
  = Raise (BufferError "Bad chunk size").
Proof.
  apply (@receive_chunk_size_check stored_codec recv_env_example recv_state_size0 0
           "e3b0c44298fc1c149afbf4c8996fb92427ae41e4649b934ca495991b7852b855"
           "x0000000000000000" "S_20190101-000000" []);
    [reflexivity | reflexivity | vm_compute; discriminate | ].
  change (~ (1 <= 0 <= 65536 + 65536 / 1024)). lia.
Defined.

(** ** Receiving a manifest of zero hashes only (C10) *)

Lemma receive_chunk_zero_entry `{Codec} (env : recv_env) (st : recv_state)
    (addr : Z) (r : recv_state * loop_ctl) :
  Forall zero_entry (rs_mf st) ->
  receive_chunk env st addr = Ok r ->
  snd r = Continue /\ rs_rc (fst r) = rs_rc st /\ rs_buf (fst r) = rs_buf st
  /\ Forall zero_entry (rs_mf (fst r)).
Proof.
  intros Hmf. unfold receive_chunk.
  destruct (rs_mf st) as [|line mf]; [discriminate|].
  apply Forall_cons in Hmf as [(fname & ses & ->) Hmf].
  destruct (negb (String.eqb fname _)); [discriminate|].
  change (String.eqb (strip "0") "0") with true. cbn iota.
  destruct (negb (_ =? 0)); [discriminate|].
  destruct (match re_mode env with RecvDiff _ => _ | _ => _ end)
    as [[[cmpf bmap] dc]|e]; [|discriminate].
  cbn [obind]. intros [= <-]. simpl. auto.
Qed.

Lemma receive_loop_zero_entries `{Codec} (env : recv_env) (addrs : list Z)
    (st st' : recv_state) :
  Forall zero_entry (rs_mf st) ->
  receive_loop env st addrs = Ok st' ->
  rs_rc st' = rs_rc st /\ rs_buf st' = rs_buf st.
Proof.
  revert st. induction addrs as [|addr addrs IH]; intros st Hmf; simpl.
  - intros [= <-]. auto.
  - destruct (receive_chunk env st addr) as [[st1 ctl]|e] eqn:Hc; [|discriminate].
    apply (receive_chunk_zero_entry env st addr _ Hmf) in Hc as (Hctl & Hrc & Hbuf & Hmf1).
    simpl in *. subst ctl. cbn [obind]. intros Hl.
    apply IH in Hl as [-> ->]; auto.
Qed.

Lemma length_ftruncate (f : bytes) (n : Z) :
  length (ftruncate f n) = Z.to_nat n.
Proof.
  unfold ftruncate. rewrite length_app, length_firstn, repeat_length. lia.
Qed.

Lemma py_index_in_range (len i : Z) : 0 <= i < len ->
  py_index len i = Some (Z.to_nat i).
Proof.
  intros Hi. unfold py_index.
  destruct (Z.ltb_spec i 0); [lia|]. destruct (Z.ltb_spec i len); [reflexivity|lia].
Qed.

Lemma mm_or_in_range (mm : bytes) (i v : Z) : 0 <= i < Z.of_nat (length mm) ->
  exists x, mm !! Z.to_nat i = Some x
            /\ mm_or mm i v = Ok (<[Z.to_nat i := Z.lor x v]> mm).
Proof.
  intros Hi. unfold mm_or. rewrite py_index_in_range by exact Hi.
  destruct (lookup_lt_is_Some_2 mm (Z.to_nat i) ltac:(lia)) as [x Hx].
  exists x. rewrite Hx. auto.
Qed.

(** With zero entries only, whether the loop runs to its end does not
    depend on the Delta Map, as long as the map has a byte for every
    chunk. *)
Lemma receive_loop_zero_map `{Codec} (env : recv_env) (addrs : list Z) :
  forall (st st' : recv_state) (b : bytes),
    Forall zero_entry (rs_mf st) ->
    0 < re_chunksize env ->
    (forall addr, In addr addrs ->
       0 <= addr /\ addr / re_chunksize env / 8 < Z.of_nat (length b)) ->
    receive_loop env st addrs = Ok st' ->
    exists st2,
      receive_loop env
        (mkRecvState (rs_mf st) (rs_stream st) (rs_polls st) (rs_savef_pos st)
                     (rs_savef st) (rs_cmpf st) b (rs_diff_count st) (rs_rc st)
                     (rs_buf st) (rs_addr st)) addrs = Ok st2.
Proof.
  induction addrs as [|addr addrs IH]; intros st st' b Hmf Hc Hin; [cbn; eauto|].
  cbn [receive_loop].
  destruct (receive_chunk env st addr) as [[st1 ctl]|e] eqn:Hch; [|discriminate].
  cbn [obind].
  pose proof (receive_chunk_zero_entry env st addr _ Hmf Hch) as (Hctl & _ & _ & Hmf1).
  cbn [fst snd] in Hctl, Hmf1. subst ctl. intros Hl.
  destruct (Hin addr (or_introl eq_refl)) as [Ha Hb].
  assert (Hstep : exists b1,
            receive_chunk env
              (mkRecvState (rs_mf st) (rs_stream st) (rs_polls st) (rs_savef_pos st)
                           (rs_savef st) (rs_cmpf st) b (rs_diff_count st) (rs_rc st)
                           (rs_buf st) (rs_addr st)) addr
            = Ok (mkRecvState (rs_mf st1) (rs_stream st1) (rs_polls st1)
                              (rs_savef_pos st1) (rs_savef st1) (rs_cmpf st1) b1
                              (rs_diff_count st1) (rs_rc st1) (rs_buf st1)
                              (rs_addr st1), Continue)
            /\ length b1 = length b).
  { revert Hch. unfold receive_chunk. cbn [rs_mf rs_stream rs_polls rs_savef_pos
      rs_savef rs_cmpf rs_bmap rs_diff_count rs_rc rs_buf rs_addr].
    destruct (rs_mf st) as [|line mf]; [discriminate|].
    apply Forall_cons in Hmf as [(fname & ses & ->) Hmf].
    destruct (negb (String.eqb fname _)); [discriminate|].
    change (String.eqb (strip "0") "0") with true. cbn iota.
    destruct (negb (_ =? 0)); [discriminate|].
    destruct (re_mode env) as [| |remap].
    - cbn [obind]. intros [= <-]. exists b. split; reflexivity.
    - cbn [obind]. intros [= <-]. exists b. split; reflexivity.
    - unfold diff_compare.
      destruct (negb (bool_decide (re_zeros env = _))).
      + destruct remap.
        * destruct (mm_or (rs_bmap st) _ _) as [bm|e]; [|discriminate].
          cbn [obind]. intros [= <-].
          assert (Hq : 0 <= addr / re_chunksize env / 8)
            by (apply Z.div_pos; [apply Z.div_pos|]; lia).
          destruct (mm_or_in_range b (addr / re_chunksize env / 8)
                      (Z.shiftl 1 (addr / re_chunksize env mod 8)) ltac:(lia))
            as (x & _ & ->).
          cbn [obind]. eexists. split; [reflexivity | apply length_insert].
        * cbn [obind]. intros [= <-]. exists b. split; reflexivity.
      + cbn [obind]. intros [= <-]. exists b. split; reflexivity. }
  destruct Hstep as (b1 & -> & Hb1). cbn [obind].
  apply (IH st1 st' b1 Hmf1 Hc); [|exact Hl].
  intros a Ha'. rewrite Hb1. apply Hin. right. exact Ha'.
Qed.

(** C10: when every entry of the merged manifest has hash [0],
    [receive_volume] never completes: it ends in an exception in every
    mode, and where the chunk loop itself runs to its end, [rc] and [buf]
    are still unbound and the exception is the [UnboundLocalError] of the
    first read of [rc] after the loop. *)
Theorem receive_all_zero_raises `{Codec} (mode : recv_mode) (volsize chunksize : Z)
    (compression : string) (mf : list (list string)) (stream : bytes)
    (polls : list (option Z)) (cmpf bmap : bytes) :
  Forall zero_entry mf ->
  (exists e, receive_volume mode volsize chunksize compression mf stream polls
                            cmpf bmap = Raise e)
  /\ (0 < chunksize ->
      forall st,
        receive_loop (mkRecvEnv mode volsize chunksize compression
                                (repeat 0 (Z.to_nat chunksize))
                                (last_chunk_addr volsize chunksize))
                     (mkRecvState mf stream polls 0 [] cmpf bmap 0 None None None)
                     (py_range 0 volsize chunksize) = Ok st ->
        rs_rc st = None /\ rs_buf st = None
        /\ receive_volume mode volsize chunksize compression mf stream polls
                          cmpf bmap = Raise (UnboundLocalError "rc")).
Proof.
  intros Hmf.
  assert (Hloop : forall zeros bm st,
    receive_loop (mkRecvEnv mode volsize chunksize compression zeros
                            (last_chunk_addr volsize chunksize))
                 (mkRecvState mf stream polls 0 [] cmpf bm 0 None None None)
                 (py_range 0 volsize chunksize) = Ok st ->
    rs_rc st = None /\ rs_buf st = None).
  { intros zeros bm st Hl.
    apply receive_loop_zero_entries in Hl; [exact Hl | exact Hmf]. }
  split.
  - unfold receive_volume, py_bytes.
    destruct (chunksize <? 0); [eauto|]. cbn [obind].
    destruct (chunksize =? 0); [eauto|].
    destruct (open_deltamap mode volsize chunksize bmap) as [bm|e]; [|eauto].
    cbn [obind].
    destruct (receive_loop _ _ _) as [st|e] eqn:Hl; [|eauto].
    cbn [obind]. apply Hloop in Hl as [Hrc _].
    unfold receive_finish. rewrite Hrc. eauto.
  - intros Hc st Hl. pose proof (Hloop _ _ _ Hl) as [Hrc Hbuf].
    split; [exact Hrc|]. split; [exact Hbuf|].
    unfold receive_volume, py_bytes.
    destruct (Z.ltb_spec chunksize 0); [lia|]. cbn [obind].
    destruct (Z.eqb_spec chunksize 0); [lia|].
    assert (Hrun : forall bm,
              (forall addr, In addr (py_range 0 volsize chunksize) ->
                 0 <= addr /\ addr / chunksize / 8 < Z.of_nat (length bm)) ->
              exists st2,
                receive_loop (mkRecvEnv mode volsize chunksize compression
                                        (repeat 0 (Z.to_nat chunksize))
                                        (last_chunk_addr volsize chunksize))
                  (mkRecvState mf stream polls 0 [] cmpf bm 0 None None None)
                  (py_range 0 volsize chunksize) = Ok st2).
    { intros bm Hbm.
      exact (receive_loop_zero_map
               (mkRecvEnv mode volsize chunksize compression
                          (repeat 0 (Z.to_nat chunksize))
                          (last_chunk_addr volsize chunksize))
               (py_range 0 volsize chunksize)
               (mkRecvState mf stream polls 0 [] cmpf bmap 0 None None None)
               st bm Hmf Hc Hbm Hl). }
    assert (Hfin : forall bm st2,
              receive_loop (mkRecvEnv mode volsize chunksize compression
                                      (repeat 0 (Z.to_nat chunksize))
                                      (last_chunk_addr volsize chunksize))
                (mkRecvState mf stream polls 0 [] cmpf bm 0 None None None)
                (py_range 0 volsize chunksize) = Ok st2 ->
              (try! st := Ok st2 in
               receive_finish (mkRecvEnv mode volsize chunksize compression
                                         (repeat 0 (Z.to_nat chunksize))
                                         (last_chunk_addr volsize chunksize)) st)
              = Raise (UnboundLocalError "rc")).
    { intros bm st2 Hl2. apply Hloop in Hl2 as [Hrc2 _].
      cbn [obind]. unfold receive_finish. rewrite Hrc2. reflexivity. }
    destruct mode as [| |[|]]; unfold open_deltamap; cbn [obind];
      try (rewrite Hl; apply (Hfin _ _ Hl)).
    unfold mapsize. destruct (Z.eqb_spec chunksize 0); [lia|]. cbn [obind].
    destruct (Hrun (ftruncate bmap (volsize / chunksize / 8 + 1))) as [st2 Hl2].
    { intros addr Ha. apply (py_range_In volsize chunksize addr Hc) in Ha as [Ha _].
      split; [lia|]. rewrite length_ftruncate.
      assert (addr / chunksize / 8 <= volsize / chunksize / 8)
        by (apply Z.div_le_mono; [lia|]; apply Z.div_le_mono; lia).
      assert (0 <= volsize / chunksize / 8)
        by (apply Z.div_pos; [apply Z.div_pos|]; lia).
      lia. }
    rewrite Hl2. apply (Hfin _ _ Hl2).
Qed.

Lemma receive_all_zero_raises_witness :
  @receive_volume stored_codec RecvVerify 131072 65536 "zlib"
    [["0"; "x0000000000000000"; "S_20190101-000000"];
     ["0"; "x0000000000010000"; "S_20190101-000000"]]%string
    [0; 0; 0; 0; 0; 0; 0; 0] [] [] []
  = Raise (UnboundLocalError "rc").
Proof.
  refine (proj2 (proj2 (proj2
    (@receive_all_zero_raises stored_codec RecvVerify 131072 65536 "zlib"
       [["0"; "x0000000000000000"; "S_20190101-000000"];
        ["0"; "x0000000000010000"; "S_20190101-000000"]]%string
       [0; 0; 0; 0; 0; 0; 0; 0] [] [] [] _) _ _ _))).
  - repeat constructor; eexists; eexists; reflexivity.
  - lia.
  - vm_compute. reflexivity.
Defined.

(** ** Pruning keeps the newest session (C7) *)

Lemma last_list_del {A} (l : list A) (i : nat) (x : A) :
  l !! S i = Some x -> last (list_del l i) = last l.
Proof.
  intros Hx. unfold list_del.
  assert (Hlen : (S i < length l)%nat) by (eapply lookup_lt_Some; eauto).
  rewrite last_app.
  assert (Hd : last (drop (S i) l) = last l).
  { rewrite !last_lookup, lookup_drop, length_drop. f_equal. lia. }
  rewrite Hd. destruct (last l) eqn:Hl; [reflexivity|].
  apply last_None in Hl. subst l. simpl in Hlen. lia.
Qed.

Lemma delete_session_keeps_last (st : pstate) (sname : string) :
  py_last (vol_sesnames (ps_vol (fst (delete_session st sname))))
  = py_last (vol_sesnames (ps_vol st)).
Proof.
  unfold delete_session, py_last.
  repeat case_match; simpl; try reflexivity;
    eapply last_list_del; eauto.
Qed.

Lemma delete_sessions_keeps_last (sources : list string) (st : pstate) :
  py_last (vol_sesnames (ps_vol (fst (delete_sessions st sources))))
  = py_last (vol_sesnames (ps_vol st)).
Proof.
  revert st. induction sources as [|s rest IH]; intros st; simpl; [reflexivity|].
  pose proof (delete_session_keeps_last st s) as Hs.
  destruct (delete_session st s) as [st' [a|e]]; simpl in *.
  - rewrite IH. exact Hs.
  - exact Hs.
Qed.

Lemma merge_sessions_keeps_last (st : pstate) (sources : list string)
    (target : string) :
  py_last (vol_sesnames (ps_vol (fst (merge_sessions st sources target))))
  = py_last (vol_sesnames (ps_vol st)).
Proof.
  unfold merge_sessions.
  destruct (ofold _ _ _); [|reflexivity].
  destruct sources as [|merge_target rest]; [reflexivity|].
  match goal with
  | |- context [delete_sessions ?s ?l] =>
      pose proof (delete_sessions_keeps_last l s) as Hd;
      destruct (delete_sessions s l) as [st2 [u|e]]
  end; simpl in *; [|exact Hd].
  destruct (vol_sessions (ps_vol st2) !! target); simpl; exact Hd.
Qed.

Lemma prune_sessions_state `{DateTime} (opts : prune_options) (st : pstate)
    (times : list string) :
  fst (prune_sessions opts st times) = st
  \/ exists to_prune target,
       fst (prune_sessions opts st times)
       = fst (merge_sessions st to_prune target).
Proof.
  unfold prune_sessions.
  repeat (case_match; simpl; try (left; reflexivity)).
  all: right; do 2 eexists;
    match goal with
    | Hm : merge_sessions _ _ _ = _ |- _ => rewrite Hm; reflexivity
    end.
Qed.

Lemma prune_sessions_keeps_last `{DateTime} (opts : prune_options) (st : pstate)
    (times : list string) :
  py_last (vol_sesnames (ps_vol (fst (prune_sessions opts st times))))
  = py_last (vol_sesnames (ps_vol st)).
Proof.
  destruct (prune_sessions_state opts st times) as [-> | (p & t & ->)];
    [reflexivity | apply merge_sessions_keeps_last].
Qed.

Lemma prune_sessions_refuses `{DateTime} (opts : prune_options) (st : pstate)
    (times : list string) (newest : string) :
  py_last (vol_sesnames (ps_vol st)) = Some newest ->
  reaches_newest times newest ->
  exists r, prune_sessions opts st times = (st, r)
            /\ forall p t, r <> Ok (Pruned p t).
Proof.
  intros Hlast Hreach. unfold prune_sessions.
  destruct (negb (forallb strptime_ok times)); [eexists; split; [reflexivity|discriminate]|].
  destruct times as [|time0 more]; [eexists; split; [reflexivity|discriminate]|].
  unfold reaches_newest, selection_t1, selection_t2, session_of_time in Hreach.
  destruct more as [|time1 more].
  - rewrite Hlast.
    destruct (_ <? 2)%nat; [eexists; split; [reflexivity|discriminate]|].
    destruct Hreach as [-> | ->]; rewrite ?orb_true_r; simpl;
      eexists; split; try reflexivity; discriminate.
  - destruct (str_le ("S_" ++ strip time1) ("S_" ++ strip time0))%string;
      [eexists; split; [reflexivity|discriminate]|].
    rewrite Hlast.
    destruct (_ <? 2)%nat; [eexists; split; [reflexivity|discriminate]|].
    destruct Hreach as [-> | ->]; rewrite ?orb_true_r; simpl;
      eexists; split; try reflexivity; discriminate.
Qed.

Lemma delete_session_refuses_last (st : pstate) (sname : string) :
  vol_last (ps_vol st) = Some sname ->
  (forall ses, vol_sessions (ps_vol st) !! sname = Some ses ->
     delete_session st sname
     = (st, Raise (NotImplementedError "Cannot delete last session")))
  /\ exists e, delete_session st sname = (st, Raise e).
Proof.
  intros Hlast. unfold delete_session. rewrite Hlast.
  rewrite bool_decide_eq_true_2 by reflexivity.
  split.
  - intros ses ->. reflexivity.
  - destruct (vol_sessions (ps_vol st) !! sname); eauto.
Qed.

(** C7: [prune_sessions] never removes the most recent session.  Whatever
    the selection, the last name of the session list is still the last
    one afterwards; a selection that reaches or passes the newest session
    name leaves the volume, the master list and the archive as they were
    and prunes nothing; and [delete_session] refuses the volume's last
    session without changing anything. *)
Theorem prune_keeps_newest `{DateTime} (opts : prune_options) (st : pstate)
    (times : list string) :
  py_last (vol_sesnames (ps_vol (fst (prune_sessions opts st times))))
  = py_last (vol_sesnames (ps_vol st))
  /\ (forall newest,
        py_last (vol_sesnames (ps_vol st)) = Some newest ->
        reaches_newest times newest ->
        exists r, prune_sessions opts st times = (st, r)
                  /\ forall p t, r <> Ok (Pruned p t))
  /\ (forall sname,
        vol_last (ps_vol st) = Some sname ->
        (forall ses, vol_sessions (ps_vol st) !! sname = Some ses ->
           delete_session st sname
           = (st, Raise (NotImplementedError "Cannot delete last session")))
        /\ exists e, delete_session st sname = (st, Raise e)).
Proof.
  split; [apply prune_sessions_keeps_last|].
  split; [apply prune_sessions_refuses|].
  apply delete_session_refuses_last.
Qed.

Lemma prune_keeps_newest_witness :
  (exists r,
     @prune_sessions length15_datetime (mkPruneOptions false true "")
       pstate_example ["20190102-000000"; "20190103-000000"]%string
     = (pstate_example, r)
     /\ forall p t, r <> Ok (Pruned p t))
  /\ delete_session pstate_example "S_20190103-000000"
     = (pstate_example, Raise (NotImplementedError "Cannot delete last session")).
Proof.
  pose proof (@prune_keeps_newest length15_datetime (mkPruneOptions false true "")
                pstate_example ["20190102-000000"; "20190103-000000"]%string)
    as (_ & Hr & Hd).
  split.
  - apply (Hr "S_20190103-000000"%string); [reflexivity|].
    right. vm_compute. reflexivity.
  - apply (proj1 (Hd "S_20190103-000000"%string eq_refl)
              (ses_example "S_20190103-000000" "S_20190102-000000" 2)).
    vm_compute. reflexivity.
Defined.

(** ** The thin-delta translator (C5) *)

Lemma py_range_step1_In (start stop p : Z) :
  In p (py_range start stop 1) <-> start <= p < stop.
Proof.
  unfold py_range. simpl. rewrite in_map_iff. setoid_rewrite in_seq.
  rewrite Z.div_1_r. split.
  - intros (i & <- & Hi). lia.
  - intros Hp. exists (Z.to_nat (p - start)). lia.
Qed.

Lemma bit_of_segment (k seg : Z) : 0 <= k -> 0 <= seg ->
  (k / 8 =? seg / 8) && Z.testbit (Z.shiftl 1 (seg mod 8)) (k mod 8) = (k =? seg).
Proof.
  intros Hk Hs.
  pose proof (Z.mod_pos_bound seg 8 ltac:(lia)) as Hsm.
  pose proof (Z.mod_pos_bound k 8 ltac:(lia)) as Hkm.
  rewrite Z.shiftl_1_l, Z.pow2_bits_eqb by lia.
  pose proof (Z.div_mod k 8 ltac:(lia)).
  pose proof (Z.div_mod seg 8 ltac:(lia)).
  destruct (Z.eqb_spec (k / 8) (seg / 8)), (Z.eqb_spec (seg mod 8) (k mod 8)),
    (Z.eqb_spec k seg); simpl; try reflexivity; try lia.
Qed.

Lemma chunk_bit_insert (mm : bytes) (i : nat) (x v k : Z) :
  0 <= k -> mm !! i = Some x ->
  chunk_bit (<[i := Z.lor x v]> mm) k
  = chunk_bit mm k || ((k / 8 =? Z.of_nat i) && Z.testbit v (k mod 8)).
Proof.
  intros Hk Hx. unfold chunk_bit.
  assert (0 <= k / 8) by (apply Z.div_pos; lia).
  destruct (Z.eqb_spec (k / 8) (Z.of_nat i)) as [He|Hne].
  - replace (Z.to_nat (k / 8)) with i by lia.
    rewrite list_lookup_insert_eq by (eapply lookup_lt_Some; eauto).
    rewrite Hx, Z.lor_spec. reflexivity.
  - rewrite list_lookup_insert_ne by lia.
    simpl. rewrite orb_false_r. reflexivity.
Qed.

Lemma mark_block_spec (chunksize : Z) (st : delta_state) (blockpos : Z) (n : nat) :
  0 < chunksize / bs -> 0 <= blockpos ->
  blockpos / (chunksize / bs) / 8 < Z.of_nat n ->
  length (ds_bmap st) = n -> 0 <= ds_lastindex st < Z.of_nat n ->
  exists st',
    mark_block chunksize st blockpos = Ok st'
    /\ length (ds_bmap st') = n /\ 0 <= ds_lastindex st' < Z.of_nat n
    /\ ds_new st' = ds_new st /\ ds_freed st' = ds_freed st
    /\ forall k, 0 <= k ->
         pending_bit st' k
         = pending_bit st k || (k =? blockpos / (chunksize / bs)).
Proof.
  intros Hcpb Hpos Hin Hlen Hlast. unfold mark_block.
  destruct (Z.eqb_spec (chunksize / bs) 0); [lia|].
  set (seg := blockpos / (chunksize / bs)) in *.
  assert (Hseg : 0 <= seg) by (apply Z.div_pos; lia).
  assert (Hseg8 : 0 <= seg / 8) by (apply Z.div_pos; lia).
  destruct (Z.eqb_spec (seg / 8) (ds_lastindex st)) as [He|Hne]; cbn [negb obind].
  - eexists. split; [reflexivity|]. cbn.
    repeat split; try lia. intros k Hk. unfold pending_bit. cbn.
    rewrite Z.lor_spec, <- (bit_of_segment k seg) by lia.
    rewrite <- He.
    destruct (chunk_bit (ds_bmap st) k), (k / 8 =? seg / 8),
      (Z.testbit (ds_byte st) (k mod 8)),
      (Z.testbit (Z.shiftl 1 (seg mod 8)) (k mod 8)); reflexivity.
  - destruct (mm_or_in_range (ds_bmap st) (ds_lastindex st) (ds_byte st)
                ltac:(lia)) as (x & Hx & ->).
    cbn [obind]. eexists. split; [reflexivity|]. cbn.
    rewrite length_insert. repeat split; try lia.
    intros k Hk. unfold pending_bit. cbn.
    rewrite (chunk_bit_insert _ _ x) by (lia || exact Hx).
    rewrite Z2Nat.id by lia.
    rewrite Z.lor_spec, Z.testbit_0_l. cbn [orb].
    rewrite bit_of_segment by lia. reflexivity.
Qed.

Lemma mark_blocks_spec (chunksize : Z) (blocks : list Z) (st : delta_state) (n : nat) :
  0 < chunksize / bs ->
  (forall p, In p blocks -> 0 <= p /\ p / (chunksize / bs) / 8 < Z.of_nat n) ->
  length (ds_bmap st) = n -> 0 <= ds_lastindex st < Z.of_nat n ->
  exists st',
    ofold (mark_block chunksize) blocks st = Ok st'
    /\ length (ds_bmap st') = n /\ 0 <= ds_lastindex st' < Z.of_nat n
    /\ ds_new st' = ds_new st /\ ds_freed st' = ds_freed st
    /\ forall k, 0 <= k ->
         (pending_bit st' k = true
          <-> pending_bit st k = true
              \/ exists p, In p blocks /\ p / (chunksize / bs) = k).
Proof.
  intros Hcpb. revert st. induction blocks as [|p blocks IH]; intros st Hin Hlen Hlast.
  - exists st. simpl. repeat split; try lia; try tauto.
    intros [?|(p & [] & _)]; assumption.
  - destruct (Hin p (or_introl eq_refl)) as [Hp Hp8].
    destruct (mark_block_spec chunksize st p n Hcpb Hp Hp8 Hlen Hlast)
      as (st1 & Hm & Hlen1 & Hlast1 & Hn1 & Hf1 & Hbit1).
    destruct (IH st1 (fun q Hq => Hin q (or_intror Hq)) Hlen1 Hlast1)
      as (st' & Hf & Hlen' & Hlast' & Hn' & Hf' & Hbit').
    exists st'. simpl. rewrite Hm. cbn [obind].
    repeat split; try lia; try congruence; try exact Hf.
    + intros Hk'. apply Hbit' in Hk'; [|assumption].
      destruct Hk' as [Hk'|(q & Hq & Hqk)].
      * rewrite Hbit1 in Hk' by assumption.
        apply orb_true_iff in Hk' as [Hk'|Hk']; [left; assumption|].
        right. exists p. split; [left; reflexivity|]. lia.
      * right. exists q. split; [right; assumption|assumption].
    + intros Hk'. apply Hbit'; [assumption|].
      destruct Hk' as [Hk'|(q & [<-|Hq] & Hqk)].
      * left. rewrite Hbit1 by assumption. rewrite Hk'. reflexivity.
      * left. rewrite Hbit1 by assumption. apply orb_true_iff. right. lia.
      * right. exists q. auto.
Qed.

Lemma blocks_intersect (chunksize dblocksize : Z) (d : delta) (k : Z) :
  0 < chunksize -> chunksize mod 512 = 0 ->
  (exists p, In p (py_range (dbegin d * dblocksize)
                            (dbegin d * dblocksize + dlength d * dblocksize) 1)
             /\ p / (chunksize / bs) = k)
  <-> chunk_intersects chunksize dblocksize d k.
Proof.
  intros Hc Hm. unfold chunk_intersects, bs.
  assert (Hcs : chunksize = 512 * (chunksize / 512)).
  { pose proof (Z.div_mod chunksize 512 ltac:(lia)). lia. }
  assert (Hcpb : 0 < chunksize / 512).
  { apply Z.div_str_pos. pose proof (Z.mod_pos_bound chunksize 512 ltac:(lia)).
    split; [lia|]. destruct (Z.lt_ge_cases chunksize 512) as [Hlt|]; [|assumption].
    rewrite Z.mod_small in Hm by lia. lia. }
  setoid_rewrite py_range_step1_In.
  split.
  - intros (p & Hp & Hk). exists (p * 512). split; [lia|].
    rewrite Hcs at 1. rewrite <- Z.div_div by lia.
    rewrite Z.div_mul by lia. exact Hk.
  - intros (x & Hx & Hk). exists (x / 512). split.
    + split.
      * apply Z.div_le_lower_bound; lia.
      * apply Z.div_lt_upper_bound; lia.
    + rewrite Z.div_div by lia. rewrite <- Hcs. exact Hk.
Qed.

Lemma apply_delta_spec (chunksize dblocksize : Z) (st : delta_state) (d : delta)
    (n : nat) :
  0 < chunksize -> chunksize mod 512 = 0 ->
  0 <= dblocksize -> 0 <= dbegin d ->
  (delta_marks d -> forall k, chunk_intersects chunksize dblocksize d k ->
                              k / 8 < Z.of_nat n) ->
  length (ds_bmap st) = n -> 0 <= ds_lastindex st < Z.of_nat n ->
  exists st',
    apply_delta chunksize dblocksize st d = Ok st'
    /\ length (ds_bmap st') = n /\ 0 <= ds_lastindex st' < Z.of_nat n
    /\ (~ delta_marks d -> st' = st)
    /\ forall k, 0 <= k ->
         (pending_bit st' k = true
          <-> pending_bit st k = true
              \/ (delta_marks d /\ chunk_intersects chunksize dblocksize d k)).
Proof.
  intros Hc Hm Hdbs Hbeg Hin Hlen Hlast.
  assert (Hcpb : 0 < chunksize / bs).
  { unfold bs. apply Z.div_str_pos. split; [lia|].
    destruct (Z.lt_ge_cases chunksize 512) as [Hlt|]; [|assumption].
    rewrite Z.mod_small in Hm by lia. lia. }
  unfold apply_delta.
  set (blocks := py_range (dbegin d * dblocksize)
                          (dbegin d * dblocksize + dlength d * dblocksize) 1).
  assert (Hblocks : delta_marks d ->
            forall p, In p blocks ->
                      0 <= p /\ p / (chunksize / bs) / 8 < Z.of_nat n).
  { intros Hmk p Hp. split.
    - apply py_range_step1_In in Hp. nia.
    - apply (Hin Hmk). apply blocks_intersect; [assumption..|].
      exists p. split; [exact Hp | reflexivity]. }
  assert (Hmarked : forall st0,
            ds_bmap st0 = ds_bmap st -> ds_byte st0 = ds_byte st ->
            ds_lastindex st0 = ds_lastindex st -> delta_marks d ->
            exists st',
              ofold (mark_block chunksize) blocks st0 = Ok st'
              /\ length (ds_bmap st') = n /\ 0 <= ds_lastindex st' < Z.of_nat n
              /\ (~ delta_marks d -> st' = st)
              /\ forall k, 0 <= k ->
                   (pending_bit st' k = true
                    <-> pending_bit st k = true
                        \/ (delta_marks d
                            /\ chunk_intersects chunksize dblocksize d k))).
  { intros st0 Hb Hy Hl Hmk.
    destruct (mark_blocks_spec chunksize blocks st0 n Hcpb (Hblocks Hmk))
      as (st' & Hf & Hlen' & Hlast' & _ & _ & Hbit); [congruence | lia |].
    exists st'. repeat split; try assumption; try lia; try tauto.
    - intros Hk'. apply Hbit in Hk'; [|assumption].
      destruct Hk' as [Hk'|Hex].
      + left. unfold pending_bit in *. rewrite Hb, Hy, Hl in Hk'. exact Hk'.
      + right. split; [assumption|]. apply blocks_intersect; assumption.
    - intros Hk'. apply Hbit; [assumption|].
      destruct Hk' as [Hk'|[_ Hex]].
      + left. unfold pending_bit in *. rewrite Hb, Hy, Hl. exact Hk'.
      + right. apply blocks_intersect in Hex; assumption. }
  destruct (bool_decide_reflect (dtag d = "different"%string
                                 \/ dtag d = "right_only"%string)) as [Hdr|Hndr].
  { apply Hmarked; try reflexivity. unfold delta_marks. tauto. }
  destruct (bool_decide_reflect (dtag d = "left_only"%string)) as [Hlo|Hnlo].
  { apply Hmarked; try reflexivity. unfold delta_marks. tauto. }
  exists st. repeat split; try assumption; try lia; try tauto.
  intros [Hk'|[Hmk _]]; [assumption|]. unfold delta_marks in Hmk. tauto.
Qed.

Lemma apply_deltas_spec (chunksize dblocksize : Z) (diff : list delta)
    (st : delta_state) (n : nat) :
  0 < chunksize -> chunksize mod 512 = 0 -> 0 <= dblocksize ->
  Forall (fun d => 0 <= dbegin d) diff ->
  (forall d k, In d diff -> delta_marks d ->
               chunk_intersects chunksize dblocksize d k -> k / 8 < Z.of_nat n) ->
  length (ds_bmap st) = n -> 0 <= ds_lastindex st < Z.of_nat n ->
  exists st',
    ofold (apply_delta chunksize dblocksize) diff st = Ok st'
    /\ length (ds_bmap st') = n /\ 0 <= ds_lastindex st' < Z.of_nat n
    /\ (Forall (fun d => ~ delta_marks d) diff -> st' = st)
    /\ forall k, 0 <= k ->
         (pending_bit st' k = true
          <-> pending_bit st k = true
              \/ exists d, In d diff /\ delta_marks d
                           /\ chunk_intersects chunksize dblocksize d k).
Proof.
  intros Hc Hm Hdbs. revert st.
  induction diff as [|d diff IH]; intros st Hbeg Hin Hlen Hlast.
  - exists st. simpl. repeat split; try lia; try tauto.
    intros [?|(d & [] & _)]; assumption.
  - apply Forall_cons in Hbeg as [Hbd Hbeg].
    destruct (apply_delta_spec chunksize dblocksize st d n Hc Hm Hdbs Hbd
                (fun Hmk k Hk => Hin d k (or_introl eq_refl) Hmk Hk) Hlen Hlast)
      as (st1 & Ha & Hlen1 & Hlast1 & Hsame1 & Hbit1).
    destruct (IH st1 Hbeg (fun e k He => Hin e k (or_intror He)) Hlen1 Hlast1)
      as (st' & Hf & Hlen' & Hlast' & Hsame' & Hbit').
    exists st'. simpl. rewrite Ha. cbn [obind].
    repeat split; try lia; try exact Hf.
    + intros Hall. apply Forall_cons in Hall as [Hd Hall].
      rewrite (Hsame' Hall). apply Hsame1. exact Hd.
    + intros Hk'. apply Hbit' in Hk'; [|assumption].
      destruct Hk' as [Hk'|(e & He & Hmk & Hix)].
      * apply Hbit1 in Hk'; [|assumption].
        destruct Hk' as [Hk'|[Hmk Hix]]; [left; assumption|].
        right. exists d. split; [left; reflexivity|]. auto.
      * right. exists e. split; [right; assumption|]. auto.
    + intros Hk'. apply Hbit'; [assumption|].
      destruct Hk' as [Hk'|(e & [<-|He] & Hmk & Hix)].
      * left. apply Hbit1; auto.
      * left. apply Hbit1; auto.
      * right. exists e. auto.
Qed.

(** C5, inside the resized map: for a volume with at least one session, a
    chunk size that is a positive multiple of 512, and a thin delta whose
    marked ranges lie inside the map as resized to the snapshot,
    [update_delta_digest] succeeds, and bit [k] of
    the new map is set exactly when it was set in the old map (cut or
    zero-extended to the new map size) or chunk [k] holds a byte of the
    range of an element tagged [different], [right_only] or [left_only].
    Elements with another tag, [same] among them, change nothing: a delta
    of such elements only leaves the map as it was. *)
Theorem update_delta_digest_marks (vol : Volume)
    (chunksize snap2size dblocksize : Z) (diff : list delta) (bmap : bytes) :
  size (vol_sessions vol) <> 0%nat ->
  0 < chunksize -> chunksize mod 512 = 0 ->
  0 < snap2size -> 0 <= dblocksize ->
  Forall (fun d => 0 <= dbegin d) diff ->
  (forall d k, In d diff -> delta_marks d ->
               chunk_intersects chunksize dblocksize d k ->
               k / 8 < snap2size / chunksize / 8 + 1) ->
  exists bmap' changed,
    update_delta_digest vol chunksize snap2size dblocksize diff bmap
    = Ok (bmap', changed)
    /\ Z.of_nat (length bmap') = snap2size / chunksize / 8 + 1
    /\ (forall k, 0 <= k ->
          (chunk_bit bmap' k = true
           <-> chunk_bit (ftruncate bmap (snap2size / chunksize / 8 + 1)) k = true
               \/ exists d, In d diff /\ delta_marks d
                            /\ chunk_intersects chunksize dblocksize d k))
    /\ (Forall (fun d => ~ delta_marks d) diff ->
        bmap' = ftruncate bmap (snap2size / chunksize / 8 + 1)).
Proof.
  intros Hses Hc Hm Hv Hdbs Hbeg Hin.
  unfold update_delta_digest.
  rewrite bool_decide_eq_false_2 by exact Hses.
  unfold mapsize.
  destruct (Z.eqb_spec snap2size 0); [lia|].
  destruct (Z.eqb_spec chunksize 0); [lia|]. cbn [obind].
  set (msize := snap2size / chunksize / 8 + 1) in *.
  assert (Hms : 1 <= msize).
  { unfold msize.
    assert (0 <= snap2size / chunksize / 8)
      by (apply Z.div_pos; [apply Z.div_pos|]; lia). lia. }
  set (mm := ftruncate bmap msize).
  assert (Hlen : length mm = Z.to_nat msize) by apply length_ftruncate.
  destruct (apply_deltas_spec chunksize dblocksize diff
              (mkDeltaState mm 0 0 0 0) (Z.to_nat msize) Hc Hm Hdbs Hbeg)
    as (st & Hf & Hlen' & Hlast' & Hsame & Hbit); cbn; try lia.
  { intros d k Hd Hmk Hix. rewrite Z2Nat.id by lia. eapply Hin; eauto. }
  rewrite Hf. cbn [obind].
  destruct (mm_or_in_range (ds_bmap st) (ds_lastindex st) (ds_byte st)
              ltac:(lia)) as (x & Hx & ->).
  cbn [obind]. do 2 eexists. split; [reflexivity|].
  split; [rewrite length_insert; lia|].
  split.
  - intros k Hk.
    rewrite (chunk_bit_insert _ _ x) by (lia || exact Hx).
    rewrite Z2Nat.id by lia.
    change (chunk_bit (ds_bmap st) k
            || (k / 8 =? ds_lastindex st) && Z.testbit (ds_byte st) (k mod 8))
      with (pending_bit st k).
    rewrite (Hbit k Hk). unfold pending_bit at 1. cbn.
    rewrite Z.testbit_0_l, andb_false_r, orb_false_r. reflexivity.
  - intros Hall. rewrite (Hsame Hall) in *. cbn [ds_bmap ds_byte ds_lastindex] in *.
    rewrite Z.lor_0_r. apply list_insert_id. exact Hx.
Qed.

(** C5, failing input: a volume that has shrunk.  The last session of
    the volume has 1 MiB, the snapshot 256 KiB, so the map of 3 bytes is
    cut to [262144 // 65536 // 8 + 1 = 1] byte; the thin delta gives the
    blocks 4 to 15, which only the older snapshot has, as [left_only].
    The element is one to be marked and its range holds bytes of chunk 8,
    whose bit is in byte 1 of the map: the write of that byte is the
    [IndexError] of the mmap, and the function ends with it. *)
Lemma update_delta_digest_shrunk_counterexample :
  size (vol_sessions vol_example) = 3%nat
  /\ vol_volsize vol_example = 1048576
  /\ delta_marks (mkDelta "left_only" 4 12)
  /\ chunk_intersects 65536 128 (mkDelta "left_only" 4 12) 8
  /\ update_delta_digest vol_example 65536 262144 128
       [mkDelta "same" 0 4; mkDelta "left_only" 4 12] [0; 0; 0]
     = Raise (IndexError "mmap index out of range").
Proof.
  split; [vm_compute; reflexivity|]. split; [reflexivity|].
  split; [right; right; reflexivity|]. split.
  - exists 524288. simpl. split; [lia | reflexivity].
  - vm_compute. reflexivity.
Qed.

Lemma update_delta_digest_marks_witness :
  exists bmap' changed,
    update_delta_digest vol_example 65536 1048576 128 diff_example [0; 0; 0]
    = Ok (bmap', changed)
    /\ Z.of_nat (length bmap') = 1048576 / 65536 / 8 + 1
    /\ (forall k, 0 <= k ->
          (chunk_bit bmap' k = true
           <-> chunk_bit (ftruncate [0; 0; 0] (1048576 / 65536 / 8 + 1)) k = true
               \/ exists d, In d diff_example /\ delta_marks d
                            /\ chunk_intersects 65536 128 d k))
    /\ (Forall (fun d => ~ delta_marks d) diff_example ->
        bmap' = ftruncate [0; 0; 0] (1048576 / 65536 / 8 + 1)).
Proof.
  apply (update_delta_digest_marks vol_example 65536 1048576 128 diff_example
           [0; 0; 0]).
  - vm_compute. discriminate.
  - lia.
  - reflexivity.
  - lia.
  - lia.
  - repeat constructor; simpl; lia.
  - intros d k [<-|[<-|[]]] Hmk (x & Hx & <-); simpl in Hx.
    + change (1048576 / 65536 / 8 + 1) with 3.
      assert (x / 65536 < 3) by (apply Z.div_lt_upper_bound; lia).
      apply Z.div_lt_upper_bound; lia.
    + destruct Hmk as [Hmk|[Hmk|Hmk]]; discriminate Hmk.
Defined.

(** ** The chunk loop of send_volume (C1, C2) *)

Lemma land_bit_test (v b : Z) : 0 <= b ->
  negb (Z.land v (Z.shiftl 1 b) =? 0) = Z.testbit v b.
Proof.
  intros Hb. rewrite Z.shiftl_1_l.
  destruct (Z.testbit v b) eqn:Hv.
  - destruct (Z.eqb_spec (Z.land v (2 ^ b)) 0) as [He|]; [|reflexivity].
    assert (Ht : Z.testbit (Z.land v (2 ^ b)) b = true).
    { rewrite Z.land_spec, Hv, Z.pow2_bits_true by lia. reflexivity. }
    rewrite He, Z.testbit_0_l in Ht. discriminate.
  - assert (He : Z.land v (2 ^ b) = 0).
    { apply Z.bits_inj'. intros n Hn.
      rewrite Z.land_spec, Z.testbit_0_l, Z.pow2_bits_eqb by lia.
      destruct (Z.eqb_spec b n) as [->|]; [rewrite Hv|rewrite andb_false_r];
        reflexivity. }
    rewrite He. reflexivity.
Qed.

Lemma mm_get_Ok (mm : bytes) (i v : Z) : 0 <= i ->
  mm_get mm i = Ok v -> mm !! Z.to_nat i = Some v.
Proof.
  intros Hi. unfold mm_get, py_index.
  destruct (Z.ltb_spec i 0); [lia|].
  destruct (i <? Z.of_nat (length mm)); [|discriminate].
  destruct (mm !! Z.to_nat i); [|discriminate]. congruence.
Qed.

Lemma mm_get_in_range (mm : bytes) (i : Z) : 0 <= i < Z.of_nat (length mm) ->
  exists v, mm_get mm i = Ok v.
Proof.
  intros Hi. unfold mm_get. rewrite py_index_in_range by exact Hi.
  destruct (lookup_lt_is_Some_2 mm (Z.to_nat i) ltac:(lia)) as [x ->]. eauto.
Qed.

Lemma forallb_zero_repeat (l : bytes) :
  forallb (Z.eqb 0) l = bool_decide (l = repeat 0 (length l)).
Proof.
  induction l as [|x l IH]; [reflexivity|].
  cbn [forallb repeat length]. rewrite IH.
  destruct (Z.eqb_spec 0 x) as [<-|Hne]; cbn [andb].
  - apply bool_decide_ext.
    split; [intros Hl; f_equal; exact Hl | intros [= Hl]; exact Hl].
  - symmetry. apply bool_decide_eq_false_2. congruence.
Qed.

Lemma range_addr_le_last (volsize chunksize addr : Z) : 0 < chunksize ->
  In addr (py_range 0 volsize chunksize) ->
  0 <= addr < volsize /\ addr mod chunksize = 0
  /\ addr <= last_chunk_addr volsize chunksize.
Proof.
  intros Hc Hin. apply py_range_In in Hin as [Ha Hm]; [|assumption].
  split; [assumption|]. split; [assumption|].
  unfold last_chunk_addr.
  pose proof (Z.div_mod addr chunksize ltac:(lia)) as Hd.
  pose proof (Z.div_mod (volsize - 1) chunksize ltac:(lia)) as Hv.
  assert (addr / chunksize <= (volsize - 1) / chunksize)
    by (apply Z.div_le_mono; lia).
  nia.
Qed.

Lemma length_vf_read (vf : bytes) (addr chunksize : Z) :
  0 <= addr -> 0 <= chunksize -> addr + chunksize <= Z.of_nat (length vf) ->
  length (vf_read vf addr chunksize) = Z.to_nat chunksize.
Proof.
  intros Ha Hc Hl. unfold vf_read. rewrite length_firstn, length_skipn. lia.
Qed.

(** The test of the loop, [buf == zeros and addr < lchunk_addr], in the
    words of the specification. *)
Lemma zero_test (vf : bytes) (volsize chunksize addr : Z) :
  0 < chunksize -> Z.of_nat (length vf) = volsize ->
  In addr (py_range 0 volsize chunksize) ->
  bool_decide (vf_read vf addr chunksize = repeat 0 (Z.to_nat chunksize))
  && (addr <? last_chunk_addr volsize chunksize)
  = zero_skipped vf volsize chunksize addr.
Proof.
  intros Hc Hlen Hin.
  destruct (range_addr_le_last volsize chunksize addr Hc Hin) as (Ha & Hm & Hle).
  pose proof (last_chunk_addr_bounds volsize chunksize Hc) as [Hb Hlm].
  unfold zero_skipped, chunk_all_zero.
  destruct (Z.ltb_spec addr (last_chunk_addr volsize chunksize)) as [Hlt|Hge].
  - destruct (Z.eqb_spec addr (last_chunk_addr volsize chunksize)); [lia|].
    rewrite !andb_true_r, forallb_zero_repeat.
    rewrite length_vf_read; [reflexivity|lia|lia|].
    assert (addr + chunksize <= last_chunk_addr volsize chunksize); [|lia].
    pose proof (Z.div_mod addr chunksize ltac:(lia)).
    pose proof (Z.div_mod (last_chunk_addr volsize chunksize) chunksize ltac:(lia)).
    assert (addr / chunksize < last_chunk_addr volsize chunksize / chunksize); [|nia].
    apply Z.div_lt_upper_bound; [lia|]. nia.
  - destruct (Z.eqb_spec addr (last_chunk_addr volsize chunksize)); [|lia].
    rewrite !andb_false_r. reflexivity.
Qed.

Lemma compress_level_ok (level : Z) : -1 <= level <= 9 ->
  compress_level_error level = None.
Proof.
  intros Hl. unfold compress_level_error.
  destruct (Z.ltb_spec level (- 2 ^ 31)); [lia|].
  destruct (Z.leb_spec (2 ^ 31) level); [lia|]. cbn [orb].
  destruct (Z.ltb_spec level (-1)); [lia|].
  destruct (Z.ltb_spec 9 level); [lia|]. reflexivity.
Qed.

Lemma dedup_entries_app `{Codec} `{DedupIndex D} (all : list (string * string))
    (i : Z) (sdir : string) (vf : bytes) (chunksize level : Z)
    (l1 l2 : list Z) (idx idx1 idx2 : D) (es1 es2 : list tar_entry) :
  dedup_entries all i sdir vf chunksize level l1 idx = Some (es1, idx1) ->
  dedup_entries all i sdir vf chunksize level l2 idx1 = Some (es2, idx2) ->
  dedup_entries all i sdir vf chunksize level (l1 ++ l2) idx
  = Some (es1 ++ es2, idx2).
Proof.
  revert idx es1. induction l1 as [|a l1 IH]; intros idx es1.
  - intros [= <- <-] H2. exact H2.
  - cbn [dedup_entries app].
    destruct (match snd _ with Some _ => _ | None => _ end) as [e|]; [|discriminate].
    destruct (dedup_entries all i sdir vf chunksize level l1 _)
      as [[es idx']|] eqn:Hr; [|discriminate].
    intros [= <- <-] H2. rewrite (IH _ _ Hr H2). reflexivity.
Qed.

Lemma send_chunk_step `{Codec} `{DedupIndex D} (env : send_env) (vf bmap : bytes)
    (volsize : Z) (st st' : send_state D) (addr : Z) :
  send_env_for env vf bmap volsize ->
  In addr (py_range 0 volsize (se_chunksize env)) ->
  send_chunk env st addr = Ok st' ->
  ss_manifest st' = ss_manifest st ++ lines_of env vf bmap volsize addr
  /\ exists es,
       ss_tar st' = ss_tar st ++ es
       /\ Forall2 (sent_as (se_sdir env) vf (se_chunksize env) (se_compresslevel env))
                  (stored_of env vf bmap volsize addr) es
       /\ (dedup_enabled = false ->
           es = map (chunk_file (se_sdir env) vf (se_chunksize env)
                                (se_compresslevel env))
                    (stored_of env vf bmap volsize addr))
       /\ (dedup_enabled = true ->
           dedup_entries (se_allsessions env) (se_ses_index env) (se_sdir env)
                         vf (se_chunksize env) (se_compresslevel env)
                         (stored_of env vf bmap volsize addr) (ss_dedup st)
           = Some (es, ss_dedup st')).
Proof.
  intros (Hc & Hz & Hl & Hvf & Hlen & Hmap) Hin.
  destruct (range_addr_le_last volsize _ addr Hc Hin) as (Ha & Hm & Hle).
  unfold send_chunk, lines_of, stored_of, chunk_selected.
  assert (Hk : 0 <= addr / se_chunksize env) by (apply Z.div_pos; lia).
  assert (Hk8 : 0 <= addr / se_chunksize env / 8) by (apply Z.div_pos; lia).
  assert (Hsel : forall b,
    (if addr >=? se_sendall_addr env then Ok true
     else try! v := mm_get (se_bmap_mm env) (addr / se_chunksize env / 8) in
          Ok (negb (Z.land v (Z.shiftl 1 (addr / se_chunksize env mod 8)) =? 0)))
    = Ok b ->
    b = (se_sendall_addr env <=? addr) || chunk_bit bmap (addr / se_chunksize env)).
  { intros b. destruct (Z.geb_spec addr (se_sendall_addr env)) as [Hge|Hlt].
    - intros [= <-]. destruct (Z.leb_spec (se_sendall_addr env) addr); [reflexivity|lia].
    - destruct (mm_get _ _) as [v|e] eqn:Hg; [|discriminate].
      cbn [obind]. intros [= <-].
      apply mm_get_Ok in Hg; [|assumption].
      destruct Hmap as [Hs|Hb]; [lia|]. rewrite Hb in Hg.
      destruct (Z.leb_spec (se_sendall_addr env) addr); [lia|]. cbn [orb].
      unfold chunk_bit. rewrite Hg. apply land_bit_test.
      apply Z.mod_pos_bound. lia. }
  destruct (if addr >=? se_sendall_addr env then _ else _) as [b|e];
    [|discriminate].
  rewrite <- (Hsel b eq_refl). clear Hsel. cbn [obind].
  destruct b; cbn [negb andb].
  2:{ intros [= <-]. rewrite app_nil_r. split; [reflexivity|].
      exists []. rewrite app_nil_r. split; [reflexivity|].
      split; [constructor|]. split; reflexivity. }
  rewrite Hz, Hl, Hvf, (zero_test vf volsize _ addr Hc Hlen Hin).
  unfold manifest_line.
  destruct (zero_skipped vf volsize (se_chunksize env) addr); cbn [negb].
  { intros [= <-]. cbn. split; [reflexivity|].
    exists []. rewrite app_nil_r. split; [reflexivity|].
    split; [constructor|]. split; reflexivity. }
  destruct (negb (String.eqb (se_compression env) "zlib")); [discriminate|].
  destruct (compress_level_error _); [discriminate|].
  destruct dedup_enabled eqn:Hd.
  - cbn [dedup_entries]. unfold link_name.
    destruct (dedup_probe _ _ _ _) as [idx [[ddses_i ddchx]|]]; cbn [fst snd].
    + destruct (py_index _ _) as [i|]; [|discriminate].
      destruct (se_allsessions env !! i) as [[ddvol ddname]|]; [|discriminate].
      intros [= <-]. cbn. split; [reflexivity|].
      eexists. split; [reflexivity|]. split; [|split; [discriminate|reflexivity]].
      constructor; [|constructor]. right. eexists. reflexivity.
    + intros [= <-]. cbn. split; [reflexivity|].
      eexists. split; [reflexivity|]. split; [|split; [discriminate|reflexivity]].
      constructor; [|constructor]. left. reflexivity.
  - intros [= <-]. cbn. split; [reflexivity|].
    eexists. split; [reflexivity|]. split; [|split; [reflexivity|discriminate]].
    constructor; [|constructor]. left. reflexivity.
Qed.

Lemma send_chunk_total `{Codec} `{DedupIndex D} (env : send_env) (vf bmap : bytes)
    (volsize : Z) (st : send_state D) (addr : Z) :
  send_env_for env vf bmap volsize ->
  In addr (py_range 0 volsize (se_chunksize env)) ->
  se_compression env = "zlib"%string ->
  -1 <= se_compresslevel env <= 9 ->
  dedup_enabled = false ->
  (se_sendall_addr env <= 0
   \/ volsize / se_chunksize env / 8 < Z.of_nat (length bmap)) ->
  exists st', send_chunk env st addr = Ok st'.
Proof.
  intros (Hc & Hz & Hl & Hvf & Hlen & Hmap) Hin Hzlib Hlev Hd Hbm.
  destruct (range_addr_le_last volsize _ addr Hc Hin) as (Ha & Hm & Hle).
  unfold send_chunk.
  assert (Hk : 0 <= addr / se_chunksize env) by (apply Z.div_pos; lia).
  assert (Hk8 : 0 <= addr / se_chunksize env / 8) by (apply Z.div_pos; lia).
  assert (Hsel : exists b,
    (if addr >=? se_sendall_addr env then Ok true
     else try! v := mm_get (se_bmap_mm env) (addr / se_chunksize env / 8) in
          Ok (negb (Z.land v (Z.shiftl 1 (addr / se_chunksize env mod 8)) =? 0)))
    = Ok b).
  { destruct (Z.geb_spec addr (se_sendall_addr env)) as [Hge|Hlt]; [eauto|].
    destruct Hmap as [Hs|Hb]; [lia|]. destruct Hbm as [Hs|Hbm]; [lia|].
    rewrite Hb.
    destruct (mm_get_in_range bmap (addr / se_chunksize env / 8)) as [v ->];
      [|cbn [obind]; eauto].
    split; [assumption|].
    assert (addr / se_chunksize env / 8 <= volsize / se_chunksize env / 8); [|lia].
    apply Z.div_le_mono; [lia|]. apply Z.div_le_mono; lia. }
  destruct Hsel as [b ->]. cbn [obind].
  destruct b; cbn [negb]; [|eauto].
  destruct (_ && _); [eauto|].
  rewrite Hzlib, Hd, (compress_level_ok _ Hlev). cbn. eauto.
Qed.

Lemma send_loop_spec `{Codec} `{DedupIndex D} (env : send_env) (vf bmap : bytes)
    (volsize : Z) (addrs : list Z) (st st' : send_state D) :
  send_env_for env vf bmap volsize ->
  (forall addr, In addr addrs -> In addr (py_range 0 volsize (se_chunksize env))) ->
  ofold (send_chunk env) addrs st = Ok st' ->
  ss_manifest st'
  = ss_manifest st ++ concat (map (lines_of env vf bmap volsize) addrs)
  /\ exists es,
       ss_tar st' = ss_tar st ++ es
       /\ Forall2 (sent_as (se_sdir env) vf (se_chunksize env) (se_compresslevel env))
                  (concat (map (stored_of env vf bmap volsize) addrs)) es
       /\ (dedup_enabled = false ->
           es = map (chunk_file (se_sdir env) vf (se_chunksize env)
                                (se_compresslevel env))
                    (concat (map (stored_of env vf bmap volsize) addrs)))
       /\ (dedup_enabled = true ->
           dedup_entries (se_allsessions env) (se_ses_index env) (se_sdir env)
                         vf (se_chunksize env) (se_compresslevel env)
                         (concat (map (stored_of env vf bmap volsize) addrs))
                         (ss_dedup st)
           = Some (es, ss_dedup st')).
Proof.
  intros Hwf. revert st. induction addrs as [|addr addrs IH]; intros st Hin.
  - intros [= <-]. cbn. rewrite app_nil_r. split; [reflexivity|].
    exists []. rewrite app_nil_r. split; [reflexivity|].
    split; [constructor|]. split; reflexivity.
  - cbn [ofold]. destruct (send_chunk env st addr) as [st1|e] eqn:Hs; [|discriminate].
    cbn [obind]. intros Hf.
    destruct (send_chunk_step env vf bmap volsize st st1 addr Hwf
                (Hin addr (or_introl eq_refl)) Hs)
      as (Hm1 & es1 & Ht1 & Hs1 & Hn1 & Hd1).
    destruct (IH st1 (fun a Ha => Hin a (or_intror Ha)) Hf)
      as (Hm2 & es2 & Ht2 & Hs2 & Hn2 & Hd2).
    cbn [map concat]. split.
    + rewrite Hm2, Hm1, <- app_assoc. reflexivity.
    + exists (es1 ++ es2). split; [rewrite Ht2, Ht1, <- app_assoc; reflexivity|].
      split; [apply Forall2_app; assumption|]. split.
      * intros Hd. rewrite (Hn1 Hd), (Hn2 Hd), map_app. reflexivity.
      * intros Hd. exact (dedup_entries_app _ _ _ _ _ _ _ _ _ _ _ _ _
                            (Hd1 Hd) (Hd2 Hd)).
Qed.

Lemma send_loop_total `{Codec} `{DedupIndex D} (env : send_env) (vf bmap : bytes)
    (volsize : Z) (addrs : list Z) (st : send_state D) :
  send_env_for env vf bmap volsize ->
  (forall addr, In addr addrs -> In addr (py_range 0 volsize (se_chunksize env))) ->
  se_compression env = "zlib"%string ->
  -1 <= se_compresslevel env <= 9 ->
  dedup_enabled = false ->
  (se_sendall_addr env <= 0
   \/ volsize / se_chunksize env / 8 < Z.of_nat (length bmap)) ->
  exists st', ofold (send_chunk env) addrs st = Ok st'.
Proof.
  intros Hwf. revert st. induction addrs as [|addr addrs IH];
    intros st Hin Hz Hlev Hd Hbm; [cbn; eauto|].
  destruct (send_chunk_total env vf bmap volsize st addr Hwf
              (Hin addr (or_introl eq_refl)) Hz Hlev Hd Hbm) as [st1 Hs].
  cbn [ofold]. rewrite Hs. cbn [obind].
  apply IH; [intros a Ha; apply Hin; right; exact Ha | assumption..].
Qed.

Lemma concat_lines_filter `{Codec} (env : send_env) (vf bmap : bytes)
    (volsize : Z) (addrs : list Z) :
  concat (map (lines_of env vf bmap volsize) addrs)
  = map (manifest_line vf volsize (se_chunksize env) (se_compresslevel env))
        (List.filter (chunk_selected (se_sendall_addr env) bmap (se_chunksize env))
                     addrs).
Proof.
  induction addrs as [|a addrs IH]; [reflexivity|].
  cbn [map concat List.filter]. unfold lines_of at 1.
  destruct (chunk_selected _ _ _ a); cbn; rewrite IH; reflexivity.
Qed.

Lemma concat_stored_filter (env : send_env) (vf bmap : bytes)
    (volsize : Z) (addrs : list Z) :
  concat (map (stored_of env vf bmap volsize) addrs)
  = List.filter (fun addr => negb (zero_skipped vf volsize (se_chunksize env) addr))
      (List.filter (chunk_selected (se_sendall_addr env) bmap (se_chunksize env))
                   addrs).
Proof.
  induction addrs as [|a addrs IH]; [reflexivity|].
  cbn [map concat List.filter]. unfold stored_of at 1.
  destruct (chunk_selected _ _ _ a); cbn [andb List.filter]; [|exact IH].
  destruct (negb _); cbn; rewrite IH; reflexivity.
Qed.

Lemma send_volume_env `{Codec} (aset : ArchiveSet) (vol : Volume)
    (snap2size : Z) (vf bmap zeros : bytes) (level : Z) (sdir : string) (i : Z)
    (all : list (string * string)) :
  0 < as_chunksize aset -> Z.of_nat (length vf) = snap2size ->
  zeros = repeat 0 (Z.to_nat (as_chunksize aset)) ->
  send_env_for
    (mkSendEnv (as_chunksize aset) (as_compression aset) level
       (compute_sendall_addr (bool_decide (size (vol_sessions vol) = 0%nat))
                             (vol_volsize vol) snap2size (as_chunksize aset))
       (last_chunk_addr snap2size (as_chunksize aset)) zeros sdir i all vf
       (if bool_decide (size (vol_sessions vol) = 0%nat) then [0] else bmap))
    vf bmap snap2size.
Proof.
  intros Hc Hlen ->. unfold send_env_for. cbn.
  repeat split; try assumption; try reflexivity.
  destruct (bool_decide _); [left | right]; reflexivity.
Qed.

Lemma send_volume_spec `{Codec} `{DedupIndex D} (aset : ArchiveSet) (vol : Volume)
    (snap2size : Z) (vf bmap : bytes) (localtime : string) (tarfile : bool)
    (idx : D) (r : send_result D) :
  0 < as_chunksize aset -> Z.of_nat (length vf) = snap2size ->
  send_volume aset vol snap2size vf bmap localtime tarfile idx = Ok r ->
  sr_manifest r
  = map (manifest_line vf snap2size (as_chunksize aset) (compresslevel aset))
        (emitted_addrs aset vol snap2size bmap)
  /\ Forall2 (sent_as (session_dir vol localtime) vf (as_chunksize aset)
                      (compresslevel aset))
             (stored_addrs aset vol snap2size vf bmap) (sr_tar r)
  /\ (dedup_enabled = false ->
      sr_tar r
      = map (chunk_file (session_dir vol localtime) vf (as_chunksize aset)
                        (compresslevel aset))
            (stored_addrs aset vol snap2size vf bmap))
  /\ (dedup_enabled = true ->
      dedup_entries (as_allsessions aset ++ [(vol_name vol, "S_" ++ localtime)%string])
                    (Z.of_nat (length (as_allsessions aset)))
                    (session_dir vol localtime) vf (as_chunksize aset)
                    (compresslevel aset)
                    (stored_addrs aset vol snap2size vf bmap) idx
      = Some (sr_tar r, sr_dedup r)).
Proof.
  intros Hc Hlen. unfold send_volume, mapsize, py_bytes, compresslevel.
  destruct (Z.eqb_spec (as_chunksize aset) 0); [lia|]. cbn [obind].
  destruct (new_session vol _) as [[vol1 ses]|e]; [|discriminate]. cbn [obind].
  destruct (Z.ltb_spec (as_chunksize aset) 0); [lia|]. cbn [obind].
  destruct (py_int (as_compr_level aset)) as [level|e]; [|discriminate].
  cbn [obind].
  match goal with
  | |- context [ofold (send_chunk ?env) ?addrs ?st] =>
      pose proof (send_volume_env aset vol snap2size vf bmap
                    (se_zeros env) level (se_sdir env) (se_ses_index env)
                    (se_allsessions env) Hc Hlen eq_refl) as Hwf;
      destruct (ofold (send_chunk env) addrs st) as [st'|e] eqn:Hf;
      [|discriminate];
      apply (send_loop_spec _ vf bmap snap2size) in Hf;
      [|exact Hwf | intros a Ha; exact Ha]
  end.
  cbn [obind]. intros [= <-]. cbn [sr_manifest sr_tar sr_dedup].
  destruct Hf as (Hm & es & Ht & Hs & Hn & Hd).
  rewrite concat_lines_filter in Hm. rewrite concat_stored_filter in Hs, Hn, Hd.
  cbn in Hm, Ht, Hs, Hn, Hd. subst es.
  split; [exact Hm|]. split; [exact Hs|]. split; [exact Hn | exact Hd].
Qed.

Lemma send_volume_total `{Codec} `{DedupIndex D} (aset : ArchiveSet) (vol : Volume)
    (snap2size : Z) (vf bmap : bytes) (localtime : string) (tarfile : bool)
    (idx : D) :
  0 < as_chunksize aset -> Z.of_nat (length vf) = snap2size ->
  as_compression aset = "zlib"%string ->
  (exists level, py_int (as_compr_level aset) = Ok level /\ -1 <= level <= 9) ->
  dedup_enabled = false ->
  (exists x, new_session vol ("S_" ++ localtime) = Ok x) ->
  (size (vol_sessions vol) <> 0%nat ->
   snap2size / as_chunksize aset / 8 < Z.of_nat (length bmap)) ->
  exists r, send_volume aset vol snap2size vf bmap localtime tarfile idx = Ok r.
Proof.
  intros Hc Hlen Hz (level & Hint & Hlev) Hd [[vol1 ses] Hns] Hbm.
  unfold send_volume, mapsize, py_bytes.
  destruct (Z.eqb_spec (as_chunksize aset) 0); [lia|]. cbn [obind].
  rewrite Hns. cbn [obind].
  destruct (Z.ltb_spec (as_chunksize aset) 0); [lia|]. cbn [obind].
  rewrite Hint. cbn [obind].
  match goal with
  | |- context [ofold (send_chunk ?env) ?addrs ?st] =>
      pose proof (send_volume_env aset vol snap2size vf bmap
                    (se_zeros env) level (se_sdir env) (se_ses_index env)
                    (se_allsessions env) Hc Hlen eq_refl) as Hwf;
      destruct (send_loop_total env vf bmap snap2size addrs st Hwf) as [st' ->]
  end; [intros a Ha; exact Ha | exact Hz | exact Hlev | exact Hd | | cbn [obind]; eauto].
  cbn. destruct (bool_decide_reflect (size (vol_sessions vol) = 0%nat)) as [He|Hne].
  - left. reflexivity.
  - right. apply Hbm. exact Hne.
Qed.

Lemma firstn_repeat_min {A} (x : A) (n m : nat) :
  firstn n (repeat x m) = repeat x (Nat.min n m).
Proof.
  revert m. induction n as [|n IH]; intros [|m]; cbn; try reflexivity.
  rewrite IH. reflexivity.
Qed.

Lemma skipn_repeat_sub {A} (x : A) (n m : nat) :
  skipn n (repeat x m) = repeat x (m - n).
Proof.
  revert m. induction n as [|n IH]; intros [|m]; cbn; try reflexivity.
  apply IH.
Qed.

Lemma vf_read_repeat (x : Z) (n : nat) (addr chunksize : Z) :
  0 <= addr -> 0 <= chunksize -> addr + chunksize <= Z.of_nat n ->
  vf_read (repeat x n) addr chunksize = repeat x (Z.to_nat chunksize).
Proof.
  intros Ha Hc Hn. unfold vf_read.
  rewrite skipn_repeat_sub, firstn_repeat_min. f_equal. lia.
Qed.

Lemma forallb_repeat_zero (n : nat) : forallb (Z.eqb 0) (repeat 0 n) = true.
Proof. induction n as [|n IH]; [reflexivity|]. cbn [repeat forallb]. rewrite IH. reflexivity. Qed.

Lemma repeat_neq (x y : Z) (n : nat) : x <> y -> (0 < n)%nat ->
  repeat x n <> repeat y n.
Proof. intros Hxy Hn. destruct n as [|n]; [lia|]. cbn. congruence. Qed.

Lemma string_length_append (a b : string) :
  String.length (String.append a b) = (String.length a + String.length b)%nat.
Proof.
  induction a as [|c a IH]; [reflexivity|].
  change (String.append (String c a) b) with (String c (String.append a b)).
  cbn [String.length]. rewrite IH. reflexivity.
Qed.

Lemma hexlify_not_zero (b : bytes) : hexlify b <> "0"%string.
Proof.
  destruct b as [|x b]; [discriminate|].
  cbn [hexlify fold_right]. unfold format_0x.
  pose proof (Z.mod_pos_bound x 256 ltac:(lia)) as Hx.
  destruct (Z.ltb_spec (x mod 256) 0); [lia|].
  intros Heq. apply (f_equal String.length) in Heq.
  rewrite string_length_append in Heq. unfold zfill in Heq.
  rewrite string_length_append in Heq.
  assert (Hr : forall c k, String.length (string_repeat c k) = k).
  { intros c k. induction k as [|k IH]; [reflexivity|]. cbn. rewrite IH. reflexivity. }
  rewrite Hr in Heq. cbn in Heq. lia.
Qed.

Lemma sql_select_app (t : sql_table) (row : bytes * (Z * Z)) (id : bytes) :
  sql_select (t ++ [row]) id
  = match sql_select t id with
    | Some r => Some r
    | None => if bool_decide (fst row = id) then Some (snd row) else None
    end.
Proof.
  unfold sql_select. induction t as [|r t IH]; cbn.
  - destruct (bool_decide (fst row = id)); reflexivity.
  - destruct (bool_decide (fst r = id)); [reflexivity | exact IH].
Qed.







(** ** The first send of an all-zero volume (C2) *)

Lemma filter_all_true {A} (f : A -> bool) (l : list A) :
  (forall a, In a l -> f a = true) -> List.filter f l = l.
Proof.
  induction l as [|a l IH]; intros Hf; [reflexivity|].
  cbn [List.filter]. rewrite (Hf a (or_introl eq_refl)), IH; [reflexivity|].
  intros b Hb. apply Hf. right. exact Hb.
Qed.

Lemma chunk_all_zero_repeat (n : nat) (addr chunksize : Z) :
  chunk_all_zero (repeat 0 n) addr chunksize = true.
Proof.
  unfold chunk_all_zero, vf_read.
  rewrite skipn_repeat_sub, firstn_repeat_min. apply forallb_repeat_zero.
Qed.

Lemma send_zero_volume `{Codec} (localtime : string) (tarfile : bool) :
  exists r,
    @send_volume _ unit no_dedup aset_example vol_no_session 268435456
                 zero_device [] localtime tarfile tt = Ok r
    /\ sr_manifest r
       = map (fun addr => ("0"%string, destfile_of addr))
             (py_range 0 268369920 65536)
         ++ [(sha256_hexdigest (zlib_compress (repeat 0 (Z.to_nat 65536)) 4),
              "x000000000fff0000"%string)]
    /\ sr_tar r
       = [TarFile (tar_path (session_dir vol_no_session localtime)
                            "x000000000fff0000")
                  (zlib_compress (repeat 0 (Z.to_nat 65536)) 4)].
Proof.
  assert (Hc : 0 < as_chunksize aset_example) by (cbn; lia).
  assert (Hlen : Z.of_nat (length zero_device) = 268435456)
    by (unfold zero_device; rewrite repeat_length; lia).
  destruct (@send_volume_total _ unit no_dedup aset_example vol_no_session
              268435456 zero_device [] localtime tarfile tt Hc Hlen eq_refl)
    as [r Hr].
  { exists 4. split; [reflexivity | lia]. }
  { reflexivity. }
  { eexists. reflexivity. }
  { intros Hne. exfalso. apply Hne. reflexivity. }
  exists r. split; [exact Hr|].
  destruct (@send_volume_spec _ unit no_dedup aset_example vol_no_session
              268435456 zero_device [] localtime tarfile tt r Hc Hlen Hr)
    as (Hm & _ & Ht & _).
  specialize (Ht eq_refl).
  assert (Hem : emitted_addrs aset_example vol_no_session 268435456 []
                = py_range 0 268435456 65536).
  { unfold emitted_addrs.
    change (as_chunksize aset_example) with 65536.
    change (compute_sendall_addr _ _ _ _) with 0.
    apply filter_all_true. intros a Ha.
    apply py_range_In in Ha as [Ha _]; [|lia].
    unfold chunk_selected. destruct (Z.leb_spec 0 a); [reflexivity|lia]. }
  assert (Hskip : forall a,
            zero_skipped zero_device 268435456 65536 a = negb (a =? 268369920)).
  { intros a. unfold zero_skipped, zero_device.
    rewrite chunk_all_zero_repeat. reflexivity. }
  assert (Hst : stored_addrs aset_example vol_no_session 268435456 zero_device []
                = [268369920]).
  { unfold stored_addrs. rewrite Hem.
    change (as_chunksize aset_example) with 65536.
    rewrite (filter_ext _ (fun a => a =? 268369920)).
    - vm_compute. reflexivity.
    - intros a. rewrite Hskip, negb_involutive. reflexivity. }
  assert (Hlast : vf_read zero_device 268369920 65536 = repeat 0 (Z.to_nat 65536))
    by (apply vf_read_repeat; lia).
  assert (Hsplit : py_range 0 268435456 65536
                   = py_range 0 268369920 65536 ++ [268369920])
    by (vm_compute; reflexivity).
  assert (Hzero : map (manifest_line zero_device 268435456 65536 4)
                      (py_range 0 268369920 65536)
                  = map (fun addr => ("0"%string, destfile_of addr))
                        (py_range 0 268369920 65536)).
  { apply map_ext_in. intros a Ha. unfold manifest_line.
    rewrite Hskip. apply py_range_In in Ha as [Ha _]; [|lia].
    destruct (Z.eqb_spec a 268369920); [lia|]. reflexivity. }
  split.
  - rewrite Hm, Hem. change (as_chunksize aset_example) with 65536.
    change (compresslevel aset_example) with 4.
    rewrite Hsplit, map_app, Hzero. cbn [map]. unfold manifest_line.
    rewrite Hskip, Hlast.
    change (268369920 =? 268369920) with true. cbn [negb].
    change (destfile_of 268369920) with "x000000000fff0000"%string.
    reflexivity.
  - rewrite Ht, Hst. change (as_chunksize aset_example) with 65536.
    change (compresslevel aset_example) with 4.
    cbn [map]. unfold chunk_file. rewrite Hlast.
    change (destfile_of 268369920) with "x000000000fff0000"%string.
    reflexivity.
Qed.

(** C2, counterexample: the first send of an all-zero 256 MiB volume with
    64 KiB chunks emits a chunk file, and the last manifest line does not
    have hash [0]; under no codec is the tar stream free of chunks or the
    manifest all [0]. *)
Lemma send_empty_volume_counterexample :
  (exists r,
     @send_volume stored_codec unit no_dedup aset_example vol_no_session 268435456
                  zero_device [] "20190101-000000" false tt = Ok r
     /\ length (sr_tar r) = 1%nat)
  /\ ~ exists (cd : Codec) r,
         @send_volume cd unit no_dedup aset_example vol_no_session 268435456
                      zero_device [] "20190101-000000" false tt = Ok r
         /\ (sr_tar r = [] \/ Forall (fun line => fst line = "0"%string)
                                     (sr_manifest r)).
Proof.
  split.
  - destruct (@send_zero_volume stored_codec "20190101-000000" false)
      as (r & Hr & _ & Ht).
    exists r. split; [exact Hr|]. rewrite Ht. reflexivity.
  - intros (cd & r & Hr & Hbad).
    destruct (@send_zero_volume cd "20190101-000000" false) as (r' & Hr' & Hm & Ht).
    rewrite Hr in Hr'. injection Hr' as <-.
    destruct Hbad as [Hnil|Hall].
    + rewrite Ht in Hnil. discriminate.
    + rewrite Hm in Hall. apply Forall_app in Hall as [_ Hall].
      apply Forall_cons in Hall as [Hz _]. cbn [fst] in Hz.
      exact (hexlify_not_zero _ Hz).
Qed.

(** C2, amended: for an all-zero volume of 256 MiB with chunk size 64 KiB,
    the first send produces a manifest of 4096 lines; the first 4095 have
    hash [0], the last one, for the final chunk at address [0xfff0000],
    carries the SHA-256 of the compressed chunk (never the text [0]), and
    exactly one chunk file is emitted, that of the final chunk. *)
Theorem send_empty_volume `{Codec} (localtime : string) (tarfile : bool) :
  exists r,
    @send_volume _ unit no_dedup aset_example vol_no_session 268435456
                 zero_device [] localtime tarfile tt = Ok r
    /\ length (sr_manifest r) = 4096%nat
    /\ sr_manifest r
       = map (fun addr => ("0"%string, destfile_of addr))
             (py_range 0 268369920 65536)
         ++ [(sha256_hexdigest (zlib_compress (repeat 0 (Z.to_nat 65536)) 4),
              "x000000000fff0000"%string)]
    /\ length (py_range 0 268369920 65536) = 4095%nat
    /\ sha256_hexdigest (zlib_compress (repeat 0 (Z.to_nat 65536)) 4) <> "0"%string
    /\ last_chunk_addr 268435456 65536 = 0xfff0000
    /\ sr_tar r
       = [TarFile (tar_path (session_dir vol_no_session localtime)
                            "x000000000fff0000")
                  (zlib_compress (repeat 0 (Z.to_nat 65536)) 4)].
Proof.
  destruct (send_zero_volume localtime tarfile) as (r & Hr & Hm & Ht).
  assert (Hn : length (py_range 0 268369920 65536) = 4095%nat)
    by (vm_compute; reflexivity).
  exists r. split; [exact Hr|].
  split; [rewrite Hm, length_app, length_map, Hn; reflexivity|].
  split; [exact Hm|]. split; [exact Hn|].
  split; [apply hexlify_not_zero|]. split; [reflexivity | exact Ht].
Qed.

(** * Further properties *)

(** X1: the last address of the chunk loop is [last_chunk_addr]. *)
Theorem last_chunk_addr_ends_range (volsize chunksize : Z) :
  0 < chunksize ->
  py_last (py_range 0 volsize chunksize)
  = if 0 <? volsize then Some (last_chunk_addr volsize chunksize) else None.
Proof.
  intros Hc. unfold py_last, py_range, last_chunk_addr.
  destruct (Z.leb_spec chunksize 0); [lia|].
  rewrite Z.sub_0_r.
  destruct (Z.ltb_spec 0 volsize) as [Hv|Hv].
  - set (n := (volsize + chunksize - 1) / chunksize).
    assert (Hn : n = (volsize - 1) / chunksize + 1).
    { unfold n. replace (volsize + chunksize - 1) with (volsize - 1 + 1 * chunksize) by lia.
      rewrite Z.div_add by lia. reflexivity. }
    assert (Hq : 0 <= (volsize - 1) / chunksize) by (apply Z.div_pos; lia).
    replace (Z.to_nat n) with (S (Z.to_nat ((volsize - 1) / chunksize))) by lia.
    rewrite seq_S, map_app. cbn [map]. rewrite last_snoc. cbn [Nat.add]. f_equal.
    rewrite Z2Nat.id by lia.
    pose proof (Z.div_mod (volsize - 1) chunksize ltac:(lia)). lia.
  - assert (Hz : (volsize + chunksize - 1) / chunksize <= 0).
    { assert ((volsize + chunksize - 1) / chunksize < 1); [|lia].
      apply Z.div_lt_upper_bound; lia. }
    replace (Z.to_nat _) with 0%nat by lia. reflexivity.
Qed.

Lemma last_chunk_addr_ends_range_witness :
  py_last (py_range 0 1000 300) = Some (last_chunk_addr 1000 300).
Proof. apply (last_chunk_addr_ends_range 1000 300). lia. Defined.
Lemma mm_or_length (mm mm' : bytes) (i v : Z) :
  mm_or mm i v = Ok mm' -> length mm' = length mm.
Proof.
  unfold mm_or. repeat case_match; intros [= <-]. apply length_insert.
Qed.







Lemma mm_or_beyond (mm : bytes) (i v : Z) :
  Z.of_nat (length mm) <= i ->
  mm_or mm i v = Raise (IndexError "mmap index out of range").
Proof.
  intros Hi. unfold mm_or, py_index.
  destruct (Z.ltb_spec i 0); [lia|].
  destruct (Z.ltb_spec i (Z.of_nat (length mm))); [lia|]. reflexivity.
Qed.

Lemma mm_or_raises (mm : bytes) (i v : Z) (e : exn) :
  mm_or mm i v = Raise e -> e = IndexError "mmap index out of range".
Proof.
  unfold mm_or. repeat case_match; intros [= <-]; reflexivity.
Qed.

(** The loop over the blocks of one element, started with [lastindex]
    possibly beyond the map: it raises [IndexError], or it ends with
    [lastindex] beyond the map whenever it started so or met a block
    there. *)
Lemma mark_blocks_beyond (chunksize : Z) (blocks : list Z) (st : delta_state) :
  0 < chunksize / bs -> 0 <= ds_lastindex st ->
  (forall p, In p blocks -> 0 <= p) ->
  match ofold (mark_block chunksize) blocks st with
  | Raise e => e = IndexError "mmap index out of range"
  | Ok st' =>
      length (ds_bmap st') = length (ds_bmap st)
      /\ 0 <= ds_lastindex st'
      /\ (Z.of_nat (length (ds_bmap st)) <= ds_lastindex st
          \/ (exists p, In p blocks
                /\ Z.of_nat (length (ds_bmap st)) <= p / (chunksize / bs) / 8) ->
          Z.of_nat (length (ds_bmap st)) <= ds_lastindex st')
  end.
Proof.
  intros Hcb. revert st. induction blocks as [|p rest IH]; intros st Hl Hp.
  - cbn. split; [reflexivity|]. split; [exact Hl|].
    intros [Hb | (p & [] & _)]. exact Hb.
  - cbn [ofold].
    assert (Hp0 : 0 <= p) by (apply Hp; left; reflexivity).
    assert (Hpos : 0 <= p / (chunksize / bs) / 8)
      by (apply Z.div_pos; [apply Z.div_pos|]; lia).
    destruct (mark_block chunksize st p) as [st1|e] eqn:Hm; cbn [obind].
    + assert (H1 : length (ds_bmap st1) = length (ds_bmap st)
                   /\ ds_lastindex st1 = p / (chunksize / bs) / 8
                   /\ (Z.of_nat (length (ds_bmap st)) <= ds_lastindex st ->
                       ds_lastindex st1 = ds_lastindex st)).
      { revert Hm. unfold mark_block.
        destruct (Z.eqb_spec (chunksize / bs) 0); [lia|].
        destruct (Z.eqb_spec (p / (chunksize / bs) / 8) (ds_lastindex st)) as [He|Hne];
          cbn [negb].
        - cbn. intros [= <-]. cbn. auto.
        - destruct (mm_or _ _ _) as [mm|e] eqn:Hmm; [|discriminate].
          cbn. intros [= <-]. cbn. split; [eapply mm_or_length; eauto|].
          split; [reflexivity|]. intros Hb.
          rewrite mm_or_beyond in Hmm by exact Hb. discriminate. }
      destruct H1 as (Hlen1 & Hidx1 & Hbad1).
      specialize (IH st1 ltac:(lia) ltac:(intros q Hq; apply Hp; right; exact Hq)).
      destruct (ofold (mark_block chunksize) rest st1) as [st'|e]; [|exact IH].
      destruct IH as (Hlen' & Hl' & Hb'). rewrite Hlen1 in *.
      split; [exact Hlen'|]. split; [exact Hl'|].
      intros [Hb | (q & [<- | Hq] & Hqb)]; apply Hb'.
      * left. rewrite Hbad1 by exact Hb. exact Hb.
      * left. lia.
      * right. exists q. auto.
    + revert Hm. unfold mark_block.
      destruct (Z.eqb_spec (chunksize / bs) 0); [lia|].
      destruct (negb _); [|discriminate].
      destruct (mm_or _ _ _) as [mm|e'] eqn:Hmm; [discriminate|].
      cbn. intros [= <-]. eapply mm_or_raises; eauto.
Qed.

Lemma delta_marks_decide (d : delta) :
  (if bool_decide (dtag d = "different"%string \/ dtag d = "right_only"%string)
   then true
   else bool_decide (dtag d = "left_only"%string)) = true <-> delta_marks d.
Proof.
  unfold delta_marks. repeat case_bool_decide; intuition congruence.
Qed.

Lemma apply_delta_beyond (chunksize dblocksize : Z) (st : delta_state) (d : delta) :
  0 < chunksize / bs -> 0 <= dblocksize -> 0 <= dbegin d ->
  0 <= ds_lastindex st ->
  match apply_delta chunksize dblocksize st d with
  | Raise e => e = IndexError "mmap index out of range"
  | Ok st' =>
      length (ds_bmap st') = length (ds_bmap st)
      /\ 0 <= ds_lastindex st'
      /\ (Z.of_nat (length (ds_bmap st)) <= ds_lastindex st
          \/ (delta_marks d
              /\ exists p, In p (py_range (dbegin d * dblocksize)
                                   (dbegin d * dblocksize + dlength d * dblocksize) 1)
                   /\ Z.of_nat (length (ds_bmap st)) <= p / (chunksize / bs) / 8) ->
          Z.of_nat (length (ds_bmap st)) <= ds_lastindex st')
  end.
Proof.
  intros Hcb Hdbs Hbeg Hl. unfold apply_delta.
  pose proof (delta_marks_decide d) as Hmk.
  assert (Hblocks : forall p,
            In p (py_range (dbegin d * dblocksize)
                    (dbegin d * dblocksize + dlength d * dblocksize) 1) -> 0 <= p).
  { intros p Hp. apply py_range_step1_In in Hp. nia. }
  destruct (bool_decide (dtag d = "different"%string \/ dtag d = "right_only"%string)).
  - match goal with
    | |- context [ofold _ ?bl ?s] =>
        pose proof (mark_blocks_beyond chunksize bl s Hcb Hl Hblocks) as Hb;
        destruct (ofold (mark_block chunksize) bl s) as [st'|e]
    end; [|exact Hb].
    cbn in Hb. destruct Hb as (H1 & H2 & H3). split; [exact H1|]. split; [exact H2|].
    intros [Hb | (_ & Hb)]; apply H3; auto.
  - destruct (bool_decide (dtag d = "left_only"%string)).
    + match goal with
      | |- context [ofold _ ?bl ?s] =>
          pose proof (mark_blocks_beyond chunksize bl s Hcb Hl Hblocks) as Hb;
          destruct (ofold (mark_block chunksize) bl s) as [st'|e]
      end; [|exact Hb].
      cbn in Hb. destruct Hb as (H1 & H2 & H3). split; [exact H1|]. split; [exact H2|].
      intros [Hb | (_ & Hb)]; apply H3; auto.
    + split; [reflexivity|]. split; [exact Hl|].
      intros [Hb | (Hd & _)]; [exact Hb|].
      apply Hmk in Hd. discriminate.
Qed.

Lemma apply_deltas_beyond (chunksize dblocksize : Z) (diff : list delta)
    (st : delta_state) :
  0 < chunksize / bs -> 0 <= dblocksize ->
  Forall (fun d => 0 <= dbegin d) diff ->
  0 <= ds_lastindex st ->
  match ofold (apply_delta chunksize dblocksize) diff st with
  | Raise e => e = IndexError "mmap index out of range"
  | Ok st' =>
      length (ds_bmap st') = length (ds_bmap st)
      /\ (Z.of_nat (length (ds_bmap st)) <= ds_lastindex st
          \/ (exists d p, In d diff /\ delta_marks d
                /\ In p (py_range (dbegin d * dblocksize)
                           (dbegin d * dblocksize + dlength d * dblocksize) 1)
                /\ Z.of_nat (length (ds_bmap st)) <= p / (chunksize / bs) / 8) ->
          Z.of_nat (length (ds_bmap st)) <= ds_lastindex st')
  end.
Proof.
  intros Hcb Hdbs Hbeg. revert st. induction Hbeg as [|d rest Hd Hrest IH]; intros st Hl.
  - cbn. split; [reflexivity|]. intros [Hb | (d & p & [] & _)]. exact Hb.
  - cbn [ofold].
    pose proof (apply_delta_beyond chunksize dblocksize st d Hcb Hdbs Hd Hl) as H1.
    destruct (apply_delta chunksize dblocksize st d) as [st1|e]; cbn [obind];
      [|exact H1].
    destruct H1 as (Hlen1 & Hl1 & Hb1).
    specialize (IH st1 Hl1).
    destruct (ofold (apply_delta chunksize dblocksize) rest st1) as [st'|e];
      [|exact IH].
    destruct IH as (Hlen' & Hb'). rewrite Hlen1 in *.
    split; [exact Hlen'|].
    intros [Hb | (d' & p & [<- | Hin] & Hmk & Hp & Hpb)]; apply Hb'.
    + left. apply Hb1. left. exact Hb.
    + left. apply Hb1. right. split; [exact Hmk|]. exists p. auto.
    + right. exists d', p. auto.
Qed.

(** X3: a thin delta that marks a range beyond the end of the resized map
    is not dropped: [update_delta_digest] ends with the [IndexError] of the
    map access, whatever else the delta holds. *)
Theorem update_delta_digest_beyond_map (vol : Volume)
    (chunksize snap2size dblocksize : Z) (diff : list delta) (bmap : bytes) :
  size (vol_sessions vol) <> 0%nat ->
  0 < chunksize -> chunksize mod 512 = 0 ->
  0 < snap2size -> 0 <= dblocksize ->
  Forall (fun d => 0 <= dbegin d) diff ->
  (exists d k, In d diff /\ delta_marks d
               /\ chunk_intersects chunksize dblocksize d k
               /\ snap2size / chunksize / 8 + 1 <= k / 8) ->
  update_delta_digest vol chunksize snap2size dblocksize diff bmap
  = Raise (IndexError "mmap index out of range").
Proof.
  intros Hses Hc Hm Hv Hdbs Hbeg (d & k & Hin & Hmk & Hix & Hk).
  unfold update_delta_digest, mapsize.
  rewrite bool_decide_eq_false_2 by exact Hses.
  destruct (Z.eqb_spec snap2size 0); [lia|].
  destruct (Z.eqb_spec chunksize 0); [lia|]. cbn [obind].
  set (msize := snap2size / chunksize / 8 + 1) in *.
  assert (Hms : 1 <= msize).
  { unfold msize.
    assert (0 <= snap2size / chunksize / 8)
      by (apply Z.div_pos; [apply Z.div_pos|]; lia). lia. }
  assert (Hcb : 0 < chunksize / bs).
  { unfold bs. pose proof (Z.div_mod chunksize 512 ltac:(lia)).
    apply Z.div_str_pos. lia. }
  pose proof (apply_deltas_beyond chunksize dblocksize diff
                (mkDeltaState (ftruncate bmap msize) 0 0 0 0) Hcb Hdbs Hbeg
                ltac:(cbn; lia)) as Hb.
  destruct (ofold _ _ _) as [st|e]; cbn [obind]; [|rewrite Hb; reflexivity].
  cbn [ds_bmap ds_lastindex] in Hb. destruct Hb as (Hlen & Hb).
  rewrite length_ftruncate in *.
  rewrite mm_or_beyond; [reflexivity|].
  rewrite Hlen. apply Hb. right.
  apply blocks_intersect in Hix; [|exact Hc|exact Hm].
  destruct Hix as (p & Hp & Hpk). exists d, p.
  repeat split; try assumption. rewrite Hpk. lia.
Qed.

Lemma update_delta_digest_beyond_map_witness :
  update_delta_digest vol_example 65536 65536 128 [mkDelta "different" 8 1] [0]
  = Raise (IndexError "mmap index out of range").
Proof.
  apply update_delta_digest_beyond_map.
  - vm_compute. discriminate.
  - lia.
  - reflexivity.
  - lia.
  - lia.
  - repeat constructor. cbn. lia.
  - exists (mkDelta "different" 8 1), 8. split; [left; reflexivity|].
    split; [left; reflexivity|]. split.
    + exists 524288. cbn. split; [lia|reflexivity].
    + reflexivity.
Defined.
Lemma str_split_one (sep : ascii) (s b : string) :
  str_split sep s = [b] -> s = b.
Proof.
  revert b. induction s as [|c s' IH]; intros b; cbn.
  - intros [= <-]. reflexivity.
  - destruct (Ascii.eqb c sep).
    + destruct s'; cbn; [discriminate|]. destruct (Ascii.eqb _ _); [discriminate|].
      destruct (str_split sep s'); discriminate.
    + destruct (str_split sep s') as [|w ws] eqn:Hs.
      * destruct s'; cbn in Hs; [discriminate|].
        destruct (Ascii.eqb _ _); [discriminate|].
        destruct (str_split sep s'); discriminate.
      * intros [= <- ->]. rewrite (IH w eq_refl). reflexivity.
Qed.

Lemma str_split_nonempty (sep : ascii) (s : string) : str_split sep s <> [].
Proof.
  destruct s as [|c s']; cbn; [discriminate|].
  destruct (Ascii.eqb c sep); [discriminate|].
  destruct (str_split sep s'); discriminate.
Qed.

Lemma str_split_two (sep : ascii) (s a b : string) :
  str_split sep s = [a; b] -> s = (a ++ String sep b)%string.
Proof.
  revert a. induction s as [|c s' IH]; intros a; cbn.
  - discriminate.
  - destruct (Ascii.eqb_spec c sep) as [->|Hne].
    + intros [= <- Hs]. apply str_split_one in Hs. subst. reflexivity.
    + destruct (str_split sep s') as [|w ws] eqn:Hs; [discriminate|].
      intros [= <- ->]. rewrite (IH w eq_refl). reflexivity.
Qed.

Lemma string_app_assoc (a b c : string) :
  ((a ++ b) ++ c = a ++ (b ++ c))%string.
Proof.
  induction a as [|x a IH]; [reflexivity|].
  change (String x ((a ++ b) ++ c) = String x (a ++ (b ++ c)))%string.
  rewrite IH. reflexivity.
Qed.

Lemma strip_prefix_Some (p s r : string) :
  strip_prefix p s = Some r -> s = (p ++ r)%string.
Proof.
  revert s. induction p as [|a p' IH]; intros s; cbn.
  - intros [= <-]. reflexivity.
  - destruct s as [|b s']; [discriminate|].
    destruct (Ascii.eqb_spec a b) as [->|]; [|discriminate].
    intros Hr. rewrite (IH _ Hr). reflexivity.
Qed.

Lemma str_partition_parts (sep : ascii) (s a d b : string) :
  str_partition sep s = (a, d, b) ->
  s = (a ++ d ++ b)%string
  /\ str_contains sep a = false
  /\ (d = String sep EmptyString \/ (d = EmptyString /\ b = EmptyString)).
Proof.
  revert a. induction s as [|c s' IH]; intros a; cbn.
  - intros [= <- <- <-]. auto.
  - destruct (Ascii.eqb_spec c sep) as [->|Hne].
    + intros [= <- <- <-]. auto.
    + destruct (str_partition sep s') as [[a' d'] b'].
      intros [= <- <- <-].
      destruct (IH a' eq_refl) as (-> & Hc & Hd).
      split; [reflexivity|]. split; [|exact Hd].
      cbn. rewrite Hc.
      destruct (Ascii.eqb_spec sep c); [congruence|reflexivity].
Qed.

Lemma parse_dest_matched (dest i a d b : string) :
  parse_dest dtypes EmptyString dest = (i, (a, d, b)) ->
  d <> EmptyString \/ b <> EmptyString ->
  In i dtypes
  /\ exists r, strip_prefix i dest = Some r /\ str_partition "/" r = (a, d, b).
Proof.
  unfold dtypes. cbn [parse_dest].
  destruct (strip_prefix "qubes://" dest) as [r|] eqn:H1.
  { intros [= <- Hp] _. split; [cbn; auto|]. eauto. }
  destruct (strip_prefix "ssh://" dest) as [r|] eqn:H2.
  { intros [= <- Hp] _. split; [cbn; auto|]. eauto. }
  destruct (strip_prefix "qubes-ssh://" dest) as [r|] eqn:H3.
  { intros [= <- Hp] _. split; [cbn; auto|]. eauto. }
  destruct (strip_prefix "internal:" dest) as [r|] eqn:H4.
  { intros [= <- Hp] _. split; [cbn; auto 6|]. eauto. }
  intros [= <- <- <- <-] [Hd | Hb]; congruence.
Qed.

(** What an accepted [arch_init] has read: the two halves of [--source],
    the type, system and mount point of [--dest], and the compression
    option. *)
Lemma arch_init_Ok (options : init_options) (aset conf : ArchiveConf) :
  arch_init options aset = Ok conf ->
  exists i destsys delim mountpoint,
    str_split "/" (io_source options) = [ac_vgname conf; ac_poolname conf]
    /\ parse_dest dtypes EmptyString (io_dest options) = (i, (destsys, delim, mountpoint))
    /\ (delim <> EmptyString \/ mountpoint <> EmptyString)
    /\ (i = "internal:"%string \/ destsys <> EmptyString)
    /\ ac_destsys conf = (i ++ destsys)%string
    /\ ac_destmountpoint conf = (delim ++ mountpoint)%string
    /\ ((io_compression options = EmptyString
         /\ ac_compression conf = ac_compression aset
         /\ ac_compr_level conf = ac_compr_level aset)
        \/ (str_split ":" (strip (io_compression options))
            = ["zlib"%string; ac_compr_level conf]
            /\ ac_compression conf = "zlib"%string)).
Proof.
  unfold arch_init.
  destruct (_ || _); [discriminate|].
  destruct (str_split "/" (io_source options)) as [|vg [|pool [|? ?]]]; try discriminate.
  destruct (parse_dest _ _ _) as [i [[destsys delim] mountpoint]].
  destruct (String.eqb_spec mountpoint "") as [Hm|Hm];
    destruct (String.eqb_spec delim "") as [Hd|Hd]; cbn [andb orb];
    try discriminate.
  all: destruct (String.eqb_spec i "internal:") as [Hi|Hi];
    destruct (String.eqb_spec destsys "") as [Hs|Hs]; cbn [andb orb negb];
    try discriminate.
  all: destruct (_ && _); [discriminate|].
  all: destruct (if String.eqb (io_subdir options) "" then _ else _) as [destdir|e];
    [|discriminate]; cbn [obind].
  all: destruct (String.eqb_spec (io_compression options) "") as [Hc|Hc].
  all: try (cbn [obind];
            destruct (match io_chfactor options with Some _ => _ | None => _ end)
              as [cs|e]; [|discriminate];
            cbn [obind]; intros [= <-]; cbn;
            exists i, destsys, delim, mountpoint;
            repeat split; auto; fail).
  all: destruct (str_contains ":" (io_compression options)); [|discriminate].
  all: destruct (str_split ":" (strip (io_compression options)))
         as [|c [|l [|? ?]]]; try discriminate.
  all: destruct (String.eqb_spec c "zlib") as [->|]; [|discriminate].
  all: cbn [negb obind].
  all: destruct (match io_chfactor options with Some _ => _ | None => _ end)
         as [cs|e]; [|discriminate].
  all: cbn [obind]; intros [= <-]; cbn.
  all: exists i, destsys, delim, mountpoint; repeat split; auto.
Qed.

(** X4: the configuration [arch_init] saves splits the options without
    loss: volume group and pool joined by [/] give [--source] back, system
    and mount point give [--dest] back, the system starts with one of the
    four destination types, and the mount point starts at the first [/]
    after the system. *)
Theorem arch_init_source_dest (options : init_options) (aset conf : ArchiveConf) :
  arch_init options aset = Ok conf ->
  io_source options = (ac_vgname conf ++ "/" ++ ac_poolname conf)%string
  /\ io_dest options = (ac_destsys conf ++ ac_destmountpoint conf)%string
  /\ (exists i sys, In i dtypes /\ ac_destsys conf = (i ++ sys)%string
                    /\ str_contains "/" sys = false)
  /\ exists path, ac_destmountpoint conf = ("/" ++ path)%string.
Proof.
  intros Hok.
  destruct (arch_init_Ok _ _ _ Hok)
    as (i & destsys & delim & mountpoint & Hsrc & Hpd & Hdm & _ & Hsys & Hmp & _).
  destruct (parse_dest_matched _ _ _ _ _ Hpd Hdm) as (Hi & r & Hr & Hp).
  apply strip_prefix_Some in Hr.
  apply str_partition_parts in Hp. destruct Hp as (-> & Hc & Hd).
  split; [apply str_split_two; exact Hsrc|].
  split.
  { rewrite Hr, Hsys, Hmp.
    rewrite string_app_assoc. reflexivity. }
  split; [exists i, destsys; auto|].
  rewrite Hmp. destruct Hd as [-> | [-> ->]].
  - exists mountpoint. reflexivity.
  - destruct Hdm; congruence.
Qed.

Lemma arch_init_source_dest_witness :
  io_source init_options_example = "vg0/pool0"%string
  /\ io_dest init_options_example = "internal:/mnt/backup"%string.
Proof.
  pose proof (arch_init_source_dest init_options_example default_conf
                (mkArchiveConf 65536 "zlib" "4" "vg0" "pool0" "internal:" "."
                               "/mnt/backup") eq_refl) as (H1 & H2 & _).
  split; [exact H1 | exact H2].
Defined.

(** X5: [arch_init] takes a [--compression] option only in the form
    [zlib:<level>]; the level is saved as it stands.  Without the colon
    (as in a plain [zlib]) or with another name the call does not
    return. *)
Theorem arch_init_compression (options : init_options) (aset conf : ArchiveConf) :
  arch_init options aset = Ok conf ->
  (io_compression options = EmptyString
   /\ ac_compression conf = ac_compression aset
   /\ ac_compr_level conf = ac_compr_level aset)
  \/ (strip (io_compression options) = ("zlib:" ++ ac_compr_level conf)%string
      /\ ac_compression conf = "zlib"%string).
Proof.
  intros Hok.
  destruct (arch_init_Ok _ _ _ Hok)
    as (i & destsys & delim & mountpoint & _ & _ & _ & _ & _ & _ & [Hc | [Hc Hz]]).
  - left. exact Hc.
  - right. split; [|exact Hz]. apply str_split_two in Hc. exact Hc.
Qed.

Lemma arch_init_compression_witness :
  strip " zlib:9 " = "zlib:9"%string.
Proof.
  destruct (arch_init_compression
              (mkInitOptions "vg0/pool0" "internal:/mnt/backup" "" " zlib:9 " None)
              default_conf
              (mkArchiveConf 65536 "zlib" "9" "vg0" "pool0" "internal:" "."
                             "/mnt/backup") eq_refl) as [[H _] | [H _]].
  - discriminate H.
  - exact H.
Defined.
Lemma string_app_cons (c : ascii) (a b : string) :
  (String c a ++ b = String c (a ++ b))%string.
Proof. reflexivity. Qed.

Lemma string_app_nil (b : string) : (EmptyString ++ b = b)%string.
Proof. reflexivity. Qed.

Lemma length_list_ascii_of_string (s : string) :
  length (list_ascii_of_string s) = String.length s.
Proof. induction s as [|c s IH]; cbn; [reflexivity | rewrite IH; reflexivity]. Qed.

Lemma str_slice_head (c : ascii) (s : string) (n : Z) : 0 < n ->
  str_slice (String c s) 0 n = String c (str_slice s 0 (n - 1)).
Proof.
  intros Hn. unfold str_slice.
  rewrite !py_slice_prefix by lia.
  replace (Z.to_nat n) with (S (Z.to_nat (n - 1))) by lia. reflexivity.
Qed.

Lemma str_slice_zero (s : string) : str_slice s 0 0 = EmptyString.
Proof. unfold str_slice. rewrite py_slice_prefix by lia. reflexivity. Qed.

Lemma str_slice_empty (a b : Z) : str_slice EmptyString a b = EmptyString.
Proof.
  unfold str_slice, py_slice. cbn [list_ascii_of_string length].
  rewrite skipn_nil, firstn_nil. reflexivity.
Qed.

Lemma str_from_tail (c : ascii) (s : string) (n : Z) : 0 < n ->
  str_from (String c s) n = str_from s (n - 1).
Proof.
  intros Hn. unfold str_from, str_slice, py_slice, py_clamp.
  cbn [list_ascii_of_string length String.length].
  rewrite length_list_ascii_of_string.
  destruct (Z.ltb_spec n 0); [lia|].
  destruct (Z.ltb_spec (n - 1) 0).
  - assert (n = 0) by lia. lia.
  - destruct (Z.ltb_spec (Z.of_nat (S (String.length s))) 0); [lia|].
    destruct (Z.ltb_spec (Z.of_nat (String.length s)) 0); [lia|].
    destruct (Z.le_gt_cases n (Z.of_nat (S (String.length s)))) as [Hle|Hgt].
    + rewrite (Z.min_l n) by lia. rewrite (Z.min_l (n - 1)) by lia.
      rewrite !Z.min_id.
      replace (Z.to_nat n) with (S (Z.to_nat (n - 1))) by lia.
      cbn [skipn]. f_equal. f_equal. lia.
    + rewrite (Z.min_r n) by lia. rewrite (Z.min_r (n - 1)) by lia.
      rewrite !Z.min_id. rewrite !Z.sub_diag. reflexivity.
Qed.

Lemma str_from_zero (s : string) : str_from s 0 = s.
Proof.
  unfold str_from, str_slice, py_slice, py_clamp.
  rewrite length_list_ascii_of_string. cbn [Z.ltb Z.compare].
  destruct (Z.ltb_spec (Z.of_nat (String.length s)) 0); [lia|].
  rewrite Z.min_id, Z.min_l by lia. rewrite Z.sub_0_r, Nat2Z.id.
  cbn [Z.to_nat skipn].
  rewrite <- (length_list_ascii_of_string s), firstn_all.
  apply string_of_list_ascii_of_string.
Qed.

Ltac slice_step :=
  first [ rewrite str_slice_zero | rewrite str_from_zero
        | rewrite str_slice_empty
        | rewrite str_slice_head by lia | rewrite str_from_tail by lia ];
  repeat match goal with
         | |- context [Z.pos ?p - 1] =>
             let v := eval compute in (Z.pos p - 1) in
             change (Z.pos p - 1) with v
         end.

Ltac slice_head :=
  rewrite ?string_app_cons, ?string_app_nil; repeat slice_step.

(** X6: what [detect_internal_state] makes of the system [arch_init] has
    saved, with every needed program installed: [ssh://] and [qubes-ssh://]
    give the system name and the type; [qubes://] does so only where
    [/etc/qubes-release] exists and is a [ValueError] elsewhere; and an
    [internal:] destination is accepted only with nothing between the colon
    and the first [/]: with a system name there, [arch_init] saves the
    configuration and every later start ends with the [ValueError]. *)
Theorem detect_internal_state_of_arch_init (options : init_options)
    (aset conf : ArchiveConf) (qubes_release : bool) (which : string -> bool) :
  arch_init options aset = Ok conf ->
  (forall prg, which prg = true) ->
  exists i sys,
    In i dtypes /\ ac_destsys conf = (i ++ sys)%string
    /\ detect_internal_state qubes_release which (ac_destsys conf)
       = if String.eqb i "qubes://" then
           if qubes_release then Ok (sys, "qubes"%string)
           else Raise (ValueError "'destsys' not an accepted type.")
         else if String.eqb i "ssh://" then Ok (sys, "ssh"%string)
         else if String.eqb i "qubes-ssh://" then Ok (sys, "qubes-ssh"%string)
         else if String.eqb sys "" then Ok ("internal:"%string, "internal"%string)
         else Raise (ValueError "'destsys' not an accepted type.").
Proof.
  intros Hok Hw.
  destruct (arch_init_Ok _ _ _ Hok)
    as (i & sys & delim & mountpoint & _ & Hpd & Hdm & Hsys & -> & _).
  destruct (parse_dest_matched _ _ _ _ _ Hpd Hdm) as (Hi & _).
  exists i, sys. split; [exact Hi|]. split; [reflexivity|].
  unfold detect_internal_state.
  assert (Hprg : forall t : string,
            List.find (fun prg => negb (which prg))
              ["thin_delta"; "lvs"; "lvdisplay"; "lvcreate"; "blkdiscard";
               "truncate"; t]%string = None).
  { intros t. cbn [List.find]. rewrite !Hw. reflexivity. }
  unfold dtypes in Hi. cbn [In] in Hi.
  destruct Hi as [<- | [<- | [<- | [<- | []]]]].
  - slice_head. cbn [String.eqb Ascii.eqb Bool.eqb andb].
    destruct qubes_release; cbn [andb obind].
    + rewrite Hprg. reflexivity.
    + reflexivity.
  - slice_head. destruct sys as [|c sys']; [destruct Hsys as [H|H]; [discriminate H|congruence]|].
    slice_head.
    replace (qubes_release && _) with false
      by (destruct qubes_release; reflexivity).
    cbn [String.eqb Ascii.eqb Bool.eqb andb obind]. rewrite Hprg. reflexivity.
  - slice_head.
    replace (qubes_release && _) with false
      by (destruct qubes_release; reflexivity).
    cbn [String.eqb Ascii.eqb Bool.eqb andb obind]. rewrite Hprg. reflexivity.
  - slice_head.
    replace (qubes_release && _) with false
      by (destruct qubes_release; reflexivity).
    destruct sys as [|c [|c' sys']]; slice_head;
      cbn [String.eqb Ascii.eqb Bool.eqb andb obind].
    + rewrite Hprg. reflexivity.
    + reflexivity.
    + reflexivity.
Qed.

Lemma detect_internal_state_of_arch_init_witness :
  exists i sys,
    In i dtypes /\ "internal:"%string = (i ++ sys)%string
    /\ detect_internal_state false (fun _ => true) "internal:"
       = if String.eqb i "qubes://" then
           Raise (ValueError "'destsys' not an accepted type.")
         else if String.eqb i "ssh://" then Ok (sys, "ssh"%string)
         else if String.eqb i "qubes-ssh://" then Ok (sys, "qubes-ssh"%string)
         else if String.eqb sys "" then Ok ("internal:"%string, "internal"%string)
         else Raise (ValueError "'destsys' not an accepted type.").
Proof.
  exact (detect_internal_state_of_arch_init init_options_example default_conf
           (mkArchiveConf 65536 "zlib" "4" "vg0" "pool0" "internal:" "."
                          "/mnt/backup") false (fun _ => true) eq_refl
           (fun _ => eq_refl)).
Defined.
Lemma c_uint64_c_int64 (addr : Z) : 0 <= addr < 2 ^ 64 ->
  c_uint64 (c_int64 addr) = addr.
Proof.
  intros Ha. unfold c_uint64, c_int64.
  rewrite Zminus_mod_idemp_l.
  replace (addr + 2 ^ 63 - 2 ^ 63) with addr by lia.
  apply Z.mod_small. exact Ha.
Qed.

(** X7: the SQL index of the deduplication test keeps what the chunk loop
    stores in it.  A digest not yet in the table is added with the address
    of the chunk and the index of the session; from then on every lookup of
    that digest is a hit that gives this session and the address in its 16
    hexadecimal digits, also for addresses from [2^63] on, which the table
    holds as negative numbers; other digests are found as before. *)
Theorem sql_dedup_insert_lookup (t : sql_table) (bhashb : bytes)
    (addr ses_index : Z) :
  0 <= addr < 2 ^ 64 ->
  sql_select t bhashb = None ->
  exists t',
    @dedup_probe _ sql_dedup t bhashb addr ses_index = (t', None)
    /\ (forall addr2 ses2,
          @dedup_probe _ sql_dedup t' bhashb addr2 ses2
          = (t', Some (ses_index, chformat addr)))
    /\ (forall h, h <> bhashb -> sql_select t' h = sql_select t h).
Proof.
  intros Ha Hn. exists (t ++ [(bhashb, (c_int64 addr, ses_index))]).
  cbn [dedup_probe sql_dedup]. rewrite Hn.
  split; [reflexivity|]. split.
  - intros addr2 ses2. rewrite sql_select_app, Hn. cbn [fst snd].
    rewrite bool_decide_eq_true_2 by reflexivity.
    rewrite c_uint64_c_int64 by exact Ha. reflexivity.
  - intros h Hh. rewrite sql_select_app. cbn [fst snd].
    rewrite bool_decide_eq_false_2 by congruence.
    destruct (sql_select t h); reflexivity.
Qed.

Lemma sql_dedup_insert_lookup_witness :
  exists t',
    @dedup_probe _ sql_dedup [] [1; 2] (2 ^ 63 + 65536) 3 = (t', None)
    /\ @dedup_probe _ sql_dedup t' [1; 2] 0 4
       = (t', Some (3, "8000000000010000"%string)).
Proof.
  destruct (sql_dedup_insert_lookup [] [1; 2] (2 ^ 63 + 65536) 3 ltac:(lia) eq_refl)
    as (t' & H1 & H2 & _).
  exists t'. split; [exact H1|]. apply (H2 0 4).
Defined.
Lemma chain_app (m : gmap string Ses) (p : string) (l1 l2 : list string) :
  chain m p (l1 ++ l2) <-> chain m p l1 /\ chain m (default p (last l1)) l2.
Proof.
  revert p. induction l1 as [|x l1 IH]; intros p; cbn [app chain].
  - cbn. tauto.
  - rewrite IH, last_cons. destruct (last l1); cbn; tauto.
Qed.

Lemma chain_ext (m m' : gmap string Ses) (p : string) (l : list string) :
  (forall k, k ∈ l -> m !! k = m' !! k) -> chain m p l -> chain m' p l.
Proof.
  revert p. induction l as [|x l IH]; intros p Hk; cbn; [tauto|].
  intros [(s & Hs & Hp) Hc]. split.
  - exists s. rewrite <- Hk by left. auto.
  - apply IH; [|exact Hc]. intros k Hin. apply Hk. right. exact Hin.
Qed.

Lemma chain_keys (m : gmap string Ses) (p : string) (l : list string) (k : string) :
  chain m p l -> k ∈ l -> is_Some (m !! k).
Proof.
  revert p. induction l as [|x l IH]; intros p; cbn.
  - intros _ H. inversion H.
  - intros [(s & Hs & _) Hc] Hin. apply elem_of_cons in Hin as [->|Hin]; eauto.
Qed.

Lemma py_list_index_split `{EqDecision A} (x : A) (l : list A) (i : nat) :
  py_list_index x l = Some i ->
  exists pre post, l = pre ++ x :: post /\ length pre = i /\ x ∉ pre.
Proof.
  revert i. induction l as [|y l IH]; intros i; cbn; [discriminate|].
  destruct (decide (y = x)) as [->|Hne].
  - intros [= <-]. exists [], l. split; [reflexivity|]. split; [reflexivity|].
    apply not_elem_of_nil.
  - destruct (py_list_index x l) as [j|]; [|discriminate].
    cbn. intros [= <-]. destruct (IH j eq_refl) as (pre & post & -> & Hlen & Hnin).
    exists (y :: pre), post. split; [reflexivity|]. split; [cbn; lia|].
    apply not_elem_of_cons. split; [congruence | exact Hnin].
Qed.

Lemma py_list_index_app `{EqDecision A} (x : A) (pre post : list A) :
  x ∉ pre -> py_list_index x (pre ++ x :: post) = Some (length pre).
Proof.
  induction pre as [|y pre IH]; intros Hnin; cbn.
  - rewrite decide_True by reflexivity. reflexivity.
  - apply not_elem_of_cons in Hnin as [Hne Hnin].
    rewrite decide_False by congruence. rewrite IH by exact Hnin. reflexivity.
Qed.

Lemma list_del_app {A} (pre post : list A) (x : A) :
  list_del (pre ++ x :: post) (length pre) = pre ++ post.
Proof.
  unfold list_del.
  rewrite take_app_length.
  replace (S (length pre)) with (length (pre ++ [x])) by (rewrite length_app; cbn; lia).
  replace (pre ++ x :: post) with ((pre ++ [x]) ++ post)
    by (rewrite <- app_assoc; reflexivity).
  rewrite drop_app_length. reflexivity.
Qed.

Lemma last_app_cons {A} (l1 l2 : list A) (x : A) :
  last (l1 ++ x :: l2) = last (x :: l2).
Proof.
  rewrite last_app. destruct (last (x :: l2)) eqn:H; [reflexivity|].
  apply last_None in H. discriminate.
Qed.

(** [new_session] on a well-linked volume. *)
Lemma new_session_linked (vol : Volume) (sname : string) :
  well_linked vol -> sname ∉ vol_sesnames vol -> sname <> "none"%string ->
  exists vol' ns,
    new_session vol sname = Ok (vol', ns)
    /\ well_linked vol'
    /\ vol_sesnames vol' = vol_sesnames vol ++ [sname]
    /\ vol_sessions vol' = <[sname := ns]> (vol_sessions vol)
    /\ ses_name ns = sname
    /\ ses_previous ns = default "none"%string (last (vol_sesnames vol))
    /\ vol_name vol' = vol_name vol /\ vol_path vol' = vol_path vol
    /\ vol_volsize vol' = vol_volsize vol
    /\ vol_que_meta_update vol' = vol_que_meta_update vol.
Proof.
  intros (Hnd & Hnone & Hch & Hdom & Hfirst & Hlast) Hnew Hsn.
  unfold new_session. rewrite Hfirst, Hlast.
  assert (Hext : forall ns k, k ∈ vol_sesnames vol ->
            vol_sessions vol !! k = <[sname := ns]> (vol_sessions vol) !! k).
  { intros ns k Hk. rewrite lookup_insert_ne; [reflexivity|]. intros ->. auto. }
  assert (Hfin : forall ns first,
            ses_previous ns = default "none"%string (last (vol_sesnames vol)) ->
            first = head (vol_sesnames vol ++ [sname]) ->
            well_linked
              (mkVolume (vol_name vol) (vol_path vol)
                 (<[sname := ns]> (vol_sessions vol)) (vol_sesnames vol ++ [sname])
                 first (Some sname) (vol_volsize vol) (vol_que_meta_update vol))).
  { intros ns first Hprev Hf. unfold well_linked. cbn.
    split.
    { apply NoDup_app. split; [exact Hnd|]. split; [|apply NoDup_singleton].
      intros x Hx Hx'. apply list_elem_of_singleton in Hx'. subst. auto. }
    split.
    { rewrite elem_of_app, list_elem_of_singleton. intros [H|H]; [auto|congruence]. }
    split.
    { unfold linked. apply chain_app. split.
      - eapply chain_ext; [|exact Hch]. apply Hext.
      - cbn. split; [|exact I]. exists ns. rewrite lookup_insert_eq. auto. }
    split.
    { intros k Hk. rewrite elem_of_app, list_elem_of_singleton.
      destruct (decide (k = sname)) as [->|Hne]; [right; reflexivity|].
      left. apply Hdom. rewrite lookup_insert_ne in Hk by congruence. exact Hk. }
    split; [exact Hf|]. rewrite last_snoc. reflexivity. }
  destruct (vol_sesnames vol) as [|f names] eqn:Hn.
  - cbn. do 2 eexists. split; [reflexivity|].
    split; [apply Hfin; reflexivity|]. cbn. repeat split; reflexivity.
  - cbn [head].
    destruct (last (f :: names)) as [l|] eqn:Hl;
      [|apply last_None in Hl; discriminate].
    assert (Hin : l ∈ f :: names) by (apply last_Some_elem_of; exact Hl).
    destruct (chain_keys _ _ _ _ Hch Hin) as [ls Hls].
    rewrite Hls. cbn. do 2 eexists. split; [reflexivity|].
    split; [apply Hfin; reflexivity|]. cbn. repeat split; reflexivity.
Qed.
(** What a [delete_session] that returns has read and done. *)
Lemma delete_session_Ok (st st' : pstate) (sname affected : string) :
  delete_session st sname = (st', Ok affected) ->
  exists ses aff index i,
    vol_sessions (ps_vol st) !! sname = Some ses
    /\ vol_last (ps_vol st) <> Some sname
    /\ py_list_index sname (vol_sesnames (ps_vol st)) = Some index
    /\ vol_sesnames (ps_vol st) !! S index = Some affected
    /\ vol_sessions (ps_vol st) !! affected = Some aff
    /\ py_list_index (vol_name (ps_vol st), sname) (ps_allsessions st) = Some i
    /\ st' = mkPState
               (mkVolume (vol_name (ps_vol st)) (vol_path (ps_vol st))
                  (delete sname
                     (<[affected := mkSes (ses_name aff) (ses_volume aff) (ses_path aff)
                                      (ses_localtime aff) (ses_volsize aff)
                                      (ses_format aff) (ses_sequence aff)
                                      (ses_previous ses)]>
                        (vol_sessions (ps_vol st))))
                  (list_del (vol_sesnames (ps_vol st)) index)
                  (if (index =? 0)%nat then vol_sesnames (ps_vol st) !! 1%nat
                   else vol_first (ps_vol st))
                  (vol_last (ps_vol st)) (vol_volsize (ps_vol st))
                  (vol_que_meta_update (ps_vol st)))
               (list_del (ps_allsessions st) i)
               (ps_events st ++ [EvRmtree (pjoin (vol_path (ps_vol st)) sname)]).
Proof.
  unfold delete_session.
  destruct (vol_sessions (ps_vol st) !! sname) as [ses|] eqn:Hs; [|discriminate].
  case_bool_decide as Hl; [discriminate|].
  destruct (py_list_index sname _) as [index|] eqn:Hi; [|discriminate].
  destruct (vol_sesnames (ps_vol st) !! S index) as [aff_name|] eqn:Ha; [|discriminate].
  destruct (vol_sessions (ps_vol st) !! aff_name) as [aff|] eqn:Haf; [|discriminate].
  destruct (py_list_index (vol_name (ps_vol st), sname) _) as [i|] eqn:Hall;
    [|discriminate].
  intros [= <- <-]. exists ses, aff, index, i.
  repeat split; auto.
Qed.

Lemma delete_session_linked (st st' : pstate) (sname affected : string) :
  well_linked (ps_vol st) ->
  delete_session st sname = (st', Ok affected) ->
  well_linked (ps_vol st')
  /\ exists pre post,
       vol_sesnames (ps_vol st) = pre ++ sname :: affected :: post
       /\ vol_sesnames (ps_vol st') = pre ++ affected :: post
       /\ vol_sessions (ps_vol st') !! sname = None
       /\ (forall k, k <> sname -> k <> affected ->
             vol_sessions (ps_vol st') !! k = vol_sessions (ps_vol st) !! k)
       /\ vol_volsize (ps_vol st') = vol_volsize (ps_vol st).
Proof.
  intros (Hnd & Hnone & Hch & Hdom & Hfirst & Hlast) Hd.
  apply delete_session_Ok in Hd
    as (ses & aff & index & i & Hs & Hl & Hi & Ha & Haf & Hall & ->).
  cbn [ps_vol].
  destruct (py_list_index_split _ _ _ Hi) as (pre & post0 & Hn & Hlen & Hpre).
  rewrite Hn in *. subst index.
  assert (Hp0 : post0 = affected :: drop 1 post0).
  { rewrite lookup_app_r in Ha by lia.
    replace (S (length pre) - length pre)%nat with 1%nat in Ha by lia.
    destruct post0 as [|a post]; [discriminate|]. cbn in Ha.
    injection Ha as ->. reflexivity. }
  set (post := drop 1 post0) in *. rewrite Hp0 in *. clear Hp0.
  rewrite list_del_app.
  apply NoDup_app in Hnd as (Hnd1 & Hnd2 & Hnd3).
  apply NoDup_cons in Hnd3 as (Hs3 & Hnd3).
  apply NoDup_cons in Hnd3 as (Ha3 & Hnd4).
  assert (Hsa : sname <> affected) by (intros ->; apply Hs3; left).
  assert (Hapre : affected ∉ pre).
  { intros H. apply (Hnd2 _ H). right. left. }
  assert (Hspost : sname ∉ post) by (intros H; apply Hs3; right; exact H).
  unfold linked in Hch. apply chain_app in Hch as (Hc1 & Hc2).
  cbn [chain] in Hc2. destruct Hc2 as ((s1 & Hs1 & Hp1) & (s2 & Hs2 & Hp2) & Hc3).
  rewrite Hs in Hs1. injection Hs1 as <-.
  set (m' := delete sname (<[affected := _]> (vol_sessions (ps_vol st)))).
  assert (Hm' : forall k, k <> sname -> k <> affected ->
                          m' !! k = vol_sessions (ps_vol st) !! k).
  { intros k H1 H2. unfold m'.
    rewrite lookup_delete_ne by congruence.
    rewrite lookup_insert_ne by congruence. reflexivity. }
  split.
  - unfold well_linked. cbn.
    split.
    { apply NoDup_app. split; [exact Hnd1|]. split.
      - intros x Hx Hx'. apply (Hnd2 x Hx). right. exact Hx'.
      - apply NoDup_cons. split; assumption. }
    split.
    { intros H. apply Hnone. apply elem_of_app in H as [H|H].
      - apply elem_of_app. left. exact H.
      - apply elem_of_app. right. right. exact H. }
    split.
    { unfold linked. apply chain_app. split.
      - eapply chain_ext; [|exact Hc1]. intros k Hk. symmetry. apply Hm'.
        + intros ->. auto.
        + intros ->. auto.
      - cbn [chain]. split.
        + eexists. split.
          * unfold m'. rewrite lookup_delete_ne by congruence.
            apply lookup_insert_eq.
          * cbn. exact Hp1.
        + eapply chain_ext; [|exact Hc3]. intros k Hk. symmetry. apply Hm'.
          * intros ->. auto.
          * intros ->. auto. }
    split.
    { intros k Hk. fold m' in Hk.
      destruct (decide (k = sname)) as [->|Hks].
      { unfold m' in Hk. rewrite lookup_delete_eq in Hk. destruct Hk; discriminate. }
      destruct (decide (k = affected)) as [->|Hka].
      { apply elem_of_app. right. left. }
      rewrite Hm' in Hk by assumption. apply Hdom in Hk.
      apply elem_of_app in Hk as [Hk|Hk]; [apply elem_of_app; left; exact Hk|].
      apply elem_of_cons in Hk as [->|Hk]; [congruence|].
      apply elem_of_app. right. exact Hk. }
    split.
    { destruct pre as [|p pre']; cbn.
      - reflexivity.
      - rewrite Hfirst. reflexivity. }
    rewrite Hlast. rewrite !last_app_cons.
    rewrite last_cons. rewrite (last_cons affected).
    destruct (last post); reflexivity.
  - exists pre, post. cbn. split; [reflexivity|]. split; [reflexivity|].
    split; [apply lookup_delete_eq|]. split; [exact Hm'|reflexivity].
Qed.

Lemma size_of_linked (vol : Volume) :
  well_linked vol -> size (vol_sessions vol) = length (vol_sesnames vol).
Proof.
  intros (Hnd & _ & Hch & Hdom & _).
  rewrite <- size_dom, <- (size_list_to_set (C := gset string)) by exact Hnd.
  f_equal. apply set_eq. intros k.
  rewrite elem_of_dom, elem_of_list_to_set. split.
  - apply Hdom.
  - intros Hk. eapply chain_keys; eauto.
Qed.

Lemma build_sesnames_loop_chain (m : gmap string Ses) (l acc : list string) :
  chain m "none" l -> "none"%string ∉ l ->
  build_sesnames_loop m (length l) (default "none"%string (last l)) acc
  = Ok (l ++ acc).
Proof.
  revert acc. induction l as [|x l IH] using rev_ind; intros acc Hch Hnone.
  - reflexivity.
  - rewrite length_app. cbn [length]. rewrite Nat.add_1_r.
    rewrite last_snoc. change (default "none"%string (Some x)) with x.
    cbn [build_sesnames_loop].
    apply chain_app in Hch as (Hc1 & Hc2). cbn in Hc2.
    destruct Hc2 as ((s & Hs & Hp) & _).
    destruct (String.eqb_spec x "none") as [->|Hx].
    { exfalso. apply Hnone. apply elem_of_app. right. left. }
    rewrite Hs, Hp. rewrite IH.
    + rewrite <- app_assoc. reflexivity.
    + exact Hc1.
    + intros H. apply Hnone. apply elem_of_app. left. exact H.
Qed.

Lemma build_sesnames_linked (vol : Volume) :
  well_linked vol ->
  build_sesnames (vol_sessions vol) (vol_last vol) = Ok (vol_sesnames vol).
Proof.
  intros Hw. pose proof (size_of_linked vol Hw) as Hsize.
  destruct Hw as (Hnd & Hnone & Hch & Hdom & Hfirst & Hlast).
  unfold build_sesnames. rewrite Hsize, Hlast.
  destruct (vol_sesnames vol) as [|x l] eqn:Hn; [reflexivity|].
  cbn [length].
  destruct (last (x :: l)) as [y|] eqn:Hl; [|apply last_None in Hl; discriminate].
  pose proof (build_sesnames_loop_chain (vol_sessions vol) (x :: l) [] Hch Hnone) as Hb.
  rewrite Hl in Hb. change (default "none"%string (Some y)) with y in Hb.
  cbn [length] in Hb. rewrite Hb, app_nil_r. reflexivity.
Qed.
Lemma py_list_index_elem `{EqDecision A} (x : A) (l : list A) :
  x ∈ l -> exists i, py_list_index x l = Some i.
Proof.
  induction l as [|y l IH]; intros Hin; [inversion Hin|].
  cbn. destruct (decide (y = x)); [eauto|].
  apply elem_of_cons in Hin as [->|Hin]; [congruence|].
  destruct (IH Hin) as [i ->]. cbn. eauto.
Qed.

Lemma NoDup_split_unique {A} (x : A) (a b a' b' : list A) :
  NoDup (a ++ x :: b) -> a ++ x :: b = a' ++ x :: b' -> a = a' /\ b = b'.
Proof.
  revert a'. induction a as [|y a IH]; intros a' Hnd Heq.
  - destruct a' as [|z a']; cbn in *.
    + injection Heq as ->. auto.
    + injection Heq as <- ->. apply NoDup_cons in Hnd as [Hx _].
      exfalso. apply Hx. apply elem_of_app. right. left.
  - destruct a' as [|z a']; cbn in *.
    + injection Heq as -> <-. apply NoDup_cons in Hnd as [Hx _].
      exfalso. apply Hx. apply elem_of_app. right. left.
    + injection Heq as <- Heq. apply NoDup_cons in Hnd as [_ Hnd].
      destruct (IH a' Hnd Heq) as [-> ->]. auto.
Qed.

Lemma well_linked_volsize (vol : Volume) (v : Z) :
  well_linked vol ->
  well_linked (mkVolume (vol_name vol) (vol_path vol) (vol_sessions vol)
                 (vol_sesnames vol) (vol_first vol) (vol_last vol) v
                 (vol_que_meta_update vol)).
Proof. intros H. exact H. Qed.

(** The loop that deletes the pruned sessions, on a well-linked volume. *)
Lemma delete_sessions_linked (sources : list string) (st st' : pstate)
    (pre post : list string) (target : string) :
  well_linked (ps_vol st) ->
  vol_sesnames (ps_vol st) = pre ++ sources ++ target :: post ->
  delete_sessions st sources = (st', Ok tt) ->
  well_linked (ps_vol st')
  /\ vol_sesnames (ps_vol st') = pre ++ target :: post
  /\ (forall k, k ∈ pre ++ post ->
        vol_sessions (ps_vol st') !! k = vol_sessions (ps_vol st) !! k).
Proof.
  revert st. induction sources as [|x rest IH]; intros st Hw Hn; cbn.
  - intros [= <-]. split; [exact Hw|]. split; [exact Hn|]. reflexivity.
  - destruct (delete_session st x) as [st1 [affected|e]] eqn:Hd; [|discriminate].
    intros Hr.
    destruct (delete_session_linked _ _ _ _ Hw Hd)
      as (Hw1 & pre1 & post1 & Hn1 & Hn1' & Hx1 & Hk1 & _).
    pose proof Hw as (Hnd & _).
    rewrite Hn in Hn1. cbn [app] in Hn1.
    rewrite Hn in Hnd. cbn [app] in Hnd.
    destruct (NoDup_split_unique _ _ _ _ _ Hnd Hn1) as [<- Hpost].
    assert (Hn1'' : vol_sesnames (ps_vol st1) = pre ++ rest ++ target :: post).
    { rewrite Hn1'. f_equal. symmetry. exact Hpost. }
    destruct (IH st1 Hw1 Hn1'' Hr) as (Hw' & Hn' & Hkeep).
    split; [exact Hw'|]. split; [exact Hn'|].
    apply NoDup_app in Hnd as (Hnd1 & Hnd2 & Hnd3).
    apply NoDup_cons in Hnd3 as (Hx3 & Hnd3).
    apply NoDup_app in Hnd3 as (_ & Hr2 & Hr3).
    apply NoDup_cons in Hr3 as (Ht3 & _).
    intros k Hk. rewrite Hkeep by exact Hk. apply Hk1.
    + intros ->. apply elem_of_app in Hk as [Hk|Hk].
      * apply (Hnd2 _ Hk). left.
      * apply Hx3. apply elem_of_app. right. right. exact Hk.
    + intros ->.
      assert (Haff : affected ∈ rest ++ [target]).
      { destruct rest as [|r rest']; cbn in Hpost; injection Hpost as <- _.
        - left.
        - left. }
      apply elem_of_app in Haff as [Ha|Ha].
      * apply elem_of_app in Hk as [Hk|Hk].
        -- apply (Hnd2 _ Hk). right. apply elem_of_app. left. exact Ha.
        -- apply (Hr2 _ Ha). right. exact Hk.
      * apply list_elem_of_singleton in Ha as ->.
        apply elem_of_app in Hk as [Hk|Hk].
        -- apply (Hnd2 _ Hk). right. apply elem_of_app. right. left.
        -- apply Ht3. exact Hk.
Qed.
Lemma all_before_prefix (t1 : string) (sessions : list string) :
  exists post, sessions = all_before t1 sessions ++ post.
Proof.
  induction sessions as [|s rest [post IH]]; cbn.
  - exists []. reflexivity.
  - destruct (str_le t1 s).
    + exists (s :: rest). reflexivity.
    + exists post. cbn. f_equal. exact IH.
Qed.

Lemma py_slice_infix {A} (l : list A) (a b : Z) :
  exists pre post, l = pre ++ py_slice l a b ++ post.
Proof.
  unfold py_slice.
  set (a' := Z.to_nat (py_clamp (Z.of_nat (length l)) a)).
  set (n := Z.to_nat _).
  exists (take a' l), (drop n (drop a' l)).
  rewrite (take_drop n (drop a' l)), take_drop. reflexivity.
Qed.

(** What a [prune_sessions] that has pruned has selected: a run of
    neighbours in the session list, merged into the session that follows
    the first occurrence of its last name. *)
Lemma prune_sessions_Pruned `{DateTime} (opts : prune_options) (st st' : pstate)
    (times : list string) (to_prune : list string) (target : string) :
  prune_sessions opts st times = (st', Ok (Pruned to_prune target)) ->
  (exists pre post, vol_sesnames (ps_vol st) = pre ++ to_prune ++ post)
  /\ (exists lastp i,
        last to_prune = Some lastp
        /\ py_list_index lastp (vol_sesnames (ps_vol st)) = Some i
        /\ vol_sesnames (ps_vol st) !! S i = Some target)
  /\ merge_sessions st to_prune target = (st', Ok tt).
Proof.
  unfold prune_sessions.
  destruct (negb (forallb strptime_ok times)); [discriminate|].
  destruct times as [|time0 more]; [discriminate|].
  match goal with
  | |- context [match ?x with Ok t2 => _ | Raise e => _ end] =>
      destruct x as [t2|e]; [|discriminate]
  end.
  set (sessions := vol_sesnames (ps_vol st)).
  destruct (py_last sessions) as [newest|]; [|discriminate].
  destruct (length sessions <? 2)%nat; [discriminate|].
  destruct (_ || _); [discriminate|].
  match goal with
  | |- context [match ?x with Ok t => _ | Raise e => _ end] =>
      destruct x as [tp|e] eqn:Hto; [|discriminate]
  end.
  unfold py_last.
  destruct (last tp) as [lastp|] eqn:Hlast; [|discriminate].
  destruct (py_list_index lastp sessions) as [i|] eqn:Hi; [|discriminate].
  destruct (sessions !! S i) as [target_s|] eqn:Ht; [|discriminate].
  destruct (_ && _); [discriminate|].
  destruct (merge_sessions st tp target_s) as [st'' [[]|e]] eqn:Hm; [|discriminate].
  intros [= <- <- <-].
  split; [|split; [exists lastp, i; auto | exact Hm]].
  clear Hm Ht Hi Hlast. revert Hto.
  destruct (po_allbefore opts).
  { intros [= <-]. destruct (all_before_prefix ("S_" ++ strip time0) sessions)
      as [post Hp]. exists [], post. exact Hp. }
  destruct (String.eqb t2 "").
  { intros [= <-]. case_bool_decide as Hin.
    - apply list_elem_of_split in Hin as (pre & post & Hin).
      exists pre, post. exact Hin.
    - exists [], sessions. reflexivity. }
  repeat case_match; try discriminate; intros [= <-]; apply py_slice_infix.
Qed.

(** What a [merge_sessions] that returns has done to the volume record. *)
Lemma merge_sessions_Ok (st st' : pstate) (sources : list string) (target : string) :
  merge_sessions st sources target = (st', Ok tt) ->
  exists st2 t,
    delete_sessions
      (mkPState (ps_vol st) (ps_allsessions st)
         (ps_events st
          ++ [EvDestMerge (default EmptyString (head sources)) target
                (removelast (target :: rev sources))])) sources
    = (st2, Ok tt)
    /\ vol_sessions (ps_vol st2) !! target = Some t
    /\ ps_vol st'
       = mkVolume (vol_name (ps_vol st2)) (vol_path (ps_vol st2))
           (vol_sessions (ps_vol st2)) (vol_sesnames (ps_vol st2))
           (vol_first (ps_vol st2)) (vol_last (ps_vol st2)) (ses_volsize t)
           (vol_que_meta_update (ps_vol st2)).
Proof.
  unfold merge_sessions.
  destruct (ofold _ _ _); [|discriminate].
  destruct sources as [|merge_target rest]; [discriminate|].
  match goal with
  | |- context [delete_sessions ?s ?l] =>
      destruct (delete_sessions s l) as [st2 [[]|e]] eqn:Hd; [|discriminate]
  end.
  destruct (vol_sessions (ps_vol st2) !! target) as [t|] eqn:Ht; [|discriminate].
  intros [= <-]. exists st2, t. cbn. auto.
Qed.

(** X8: what a prune removes.  On a well-linked volume a [prune_sessions]
    that has pruned took a non-empty run of neighbours out of the session
    list and nothing else; the target of the merge is the session right
    after the run; the sessions of the run are gone from the volume, those
    before and after it are as they were, and the volume is well linked
    again. *)
Theorem prune_removes_range `{DateTime} (opts : prune_options) (st st' : pstate)
    (times : list string) (to_prune : list string) (target : string) :
  well_linked (ps_vol st) ->
  prune_sessions opts st times = (st', Ok (Pruned to_prune target)) ->
  to_prune <> []
  /\ exists pre post,
       vol_sesnames (ps_vol st) = pre ++ to_prune ++ target :: post
       /\ vol_sesnames (ps_vol st') = pre ++ target :: post
       /\ well_linked (ps_vol st')
       /\ (forall s, s ∈ to_prune -> vol_sessions (ps_vol st') !! s = None)
       /\ (forall k, k ∈ pre ++ post ->
             vol_sessions (ps_vol st') !! k = vol_sessions (ps_vol st) !! k).
Proof.
  intros Hw Hp.
  apply prune_sessions_Pruned in Hp
    as ((pre & post0 & Hn) & (lastp & i & Hlast & Hi & Ht) & Hm).
  split; [intros ->; discriminate|].
  pose proof Hw as (Hnd & _).
  assert (Hpost : exists post, post0 = target :: post).
  { apply last_Some in Hlast as [tp' ->].
    rewrite Hn in Hi, Ht, Hnd.
    replace (pre ++ (tp' ++ [lastp]) ++ post0)
      with ((pre ++ tp') ++ lastp :: post0) in Hi, Ht, Hnd
      by (rewrite <- !app_assoc; reflexivity).
    rewrite py_list_index_app in Hi.
    - injection Hi as <-.
      rewrite lookup_app_r in Ht by lia.
      replace (S (length (pre ++ tp')) - length (pre ++ tp'))%nat with 1%nat in Ht by lia.
      destruct post0 as [|t post]; [discriminate|]. cbn in Ht.
      injection Ht as ->. eauto.
    - apply NoDup_app in Hnd as (_ & Hnd & _). intros Hin. apply (Hnd _ Hin). left. }
  destruct Hpost as [post ->].
  apply merge_sessions_Ok in Hm as (st2 & t & Hd & Htg & Hv).
  apply (delete_sessions_linked _ _ _ pre post target) in Hd;
    [|exact Hw|exact Hn].
  destruct Hd as (Hw2 & Hn2 & Hkeep).
  exists pre, post. rewrite Hv. cbn.
  split; [exact Hn|]. split; [exact Hn2|].
  split; [apply well_linked_volsize; exact Hw2|].
  split; [|exact Hkeep].
  intros s Hs.
  destruct (vol_sessions (ps_vol st2) !! s) as [x|] eqn:Hx; [|reflexivity].
  exfalso. destruct Hw2 as (_ & _ & _ & Hdom & _).
  assert (Hin : s ∈ vol_sesnames (ps_vol st2)) by (apply Hdom; eauto).
  rewrite Hn2 in Hin. rewrite Hn in Hnd.
  apply NoDup_app in Hnd as (_ & H1 & H2).
  apply NoDup_app in H2 as (_ & H2 & _).
  apply elem_of_app in Hin as [Hin|Hin].
  - apply (H1 _ Hin). apply elem_of_app. left. exact Hs.
  - apply (H2 _ Hs). exact Hin.
Qed.
Ltac list_notin :=
  repeat (apply not_elem_of_cons; split; [discriminate|]); apply not_elem_of_nil.

Ltac list_in :=
  repeat first [ apply list_elem_of_here | apply list_elem_of_further ].

Lemma vol_example_linked : well_linked vol_example.
Proof.
  unfold well_linked, vol_example. cbn.
  split; [repeat (apply NoDup_cons; split; [list_notin|]); apply NoDup_nil_2|].
  split; [list_notin|].
  split.
  { unfold linked. cbn.
    repeat split; try (eexists; split; [vm_compute; reflexivity | reflexivity]). }
  split; [|split; reflexivity].
  intros k Hk.
  repeat (apply lookup_insert_is_Some in Hk as [<- | [_ Hk]]; [list_in|]).
  rewrite lookup_empty in Hk. destruct Hk; discriminate.
Qed.

(** X9: the ordered session list that [Volume.__init__] rebuilds from
    [last] and the [previous] entries is the list the volume had: on a
    well-linked volume the loop returns [sesnames], oldest first. *)
Theorem build_sesnames_of_linked (vol : Volume) :
  well_linked vol ->
  build_sesnames (vol_sessions vol) (vol_last vol) = Ok (vol_sesnames vol).
Proof. apply build_sesnames_linked. Qed.

Lemma build_sesnames_of_linked_witness :
  build_sesnames (vol_sessions vol_example) (vol_last vol_example)
  = Ok ["S_20190101-000000"; "S_20190102-000000"; "S_20190103-000000"]%string.
Proof. apply (build_sesnames_of_linked vol_example). exact vol_example_linked. Defined.

(** X10: [new_session] on a well-linked volume returns, appends the name to
    the ordered list, makes it the last one and links the new session to
    the one that was last, or to ["none"] when it is the first; the volume
    is well linked again, so that a reload finds the same list. *)
Theorem new_session_appends (vol : Volume) (sname : string) :
  well_linked vol -> sname ∉ vol_sesnames vol -> sname <> "none"%string ->
  exists vol' ns,
    new_session vol sname = Ok (vol', ns)
    /\ well_linked vol'
    /\ vol_sesnames vol' = vol_sesnames vol ++ [sname]
    /\ vol_last vol' = Some sname
    /\ vol_sessions vol' !! sname = Some ns
    /\ ses_previous ns = default "none"%string (last (vol_sesnames vol))
    /\ build_sesnames (vol_sessions vol') (vol_last vol')
       = Ok (vol_sesnames vol ++ [sname]).
Proof.
  intros Hw Hnew Hsn.
  destruct (new_session_linked vol sname Hw Hnew Hsn)
    as (vol' & ns & Hns & Hw' & Hn' & Hs' & _ & Hp & _).
  exists vol', ns. split; [exact Hns|]. split; [exact Hw'|].
  split; [exact Hn'|].
  split.
  { destruct Hw' as (_ & _ & _ & _ & _ & ->). rewrite Hn'. apply last_snoc. }
  split; [rewrite Hs'; apply lookup_insert_eq|].
  split; [exact Hp|].
  rewrite <- Hn'. apply build_sesnames_linked. exact Hw'.
Qed.

Lemma new_session_appends_witness :
  exists vol' ns,
    new_session vol_example "S_20190104-000000" = Ok (vol', ns)
    /\ vol_sesnames vol'
       = ["S_20190101-000000"; "S_20190102-000000"; "S_20190103-000000";
          "S_20190104-000000"]%string
    /\ ses_previous ns = "S_20190103-000000"%string.
Proof.
  destruct (new_session_appends vol_example "S_20190104-000000" vol_example_linked)
    as (vol' & ns & H1 & _ & H2 & _ & _ & H3 & _).
  - cbn. list_notin.
  - discriminate.
  - exists vol', ns. split; [exact H1|]. split; [exact H2 | exact H3].
Defined.

Lemma delete_session_total (st : pstate) (sname : string) :
  well_linked (ps_vol st) ->
  sname ∈ vol_sesnames (ps_vol st) ->
  vol_last (ps_vol st) <> Some sname ->
  (vol_name (ps_vol st), sname) ∈ ps_allsessions st ->
  exists st' affected, delete_session st sname = (st', Ok affected).
Proof.
  intros Hw Hin Hl Hall.
  pose proof Hw as (Hnd & _ & Hch & _ & _ & Hlast).
  unfold delete_session.
  destruct (chain_keys _ _ _ _ Hch Hin) as [ses ->].
  rewrite bool_decide_eq_false_2 by congruence.
  destruct (py_list_index_elem _ _ Hin) as [index Hi]. rewrite Hi.
  destruct (py_list_index_split _ _ _ Hi) as (pre & post & Hn & Hlen & _).
  destruct post as [|affected post].
  { exfalso. apply Hl. rewrite Hlast, Hn. apply last_snoc. }
  assert (Ha : vol_sesnames (ps_vol st) !! S index = Some affected).
  { rewrite Hn, lookup_app_r by lia.
    replace (S index - length pre)%nat with 1%nat by lia. reflexivity. }
  rewrite Ha.
  assert (Hain : affected ∈ vol_sesnames (ps_vol st)).
  { rewrite Hn. apply elem_of_app. right. right. left. }
  destruct (chain_keys _ _ _ _ Hch Hain) as [aff ->].
  destruct (py_list_index_elem _ _ Hall) as [i ->].
  eauto.
Qed.

(** X11: [delete_session] on a well-linked volume.  For a session of the
    list that is not the last one, and that the master list names, the
    call returns the name of the session after it; that session takes over
    the deleted one's [previous]; exactly the deleted name leaves the
    ordered list; the records of all other sessions stay; and the volume
    is well linked again. *)
Theorem delete_session_relinks (st : pstate) (sname : string) :
  well_linked (ps_vol st) ->
  sname ∈ vol_sesnames (ps_vol st) ->
  vol_last (ps_vol st) <> Some sname ->
  (vol_name (ps_vol st), sname) ∈ ps_allsessions st ->
  exists st' affected pre post,
    delete_session st sname = (st', Ok affected)
    /\ well_linked (ps_vol st')
    /\ vol_sesnames (ps_vol st) = pre ++ sname :: affected :: post
    /\ vol_sesnames (ps_vol st') = pre ++ affected :: post
    /\ vol_sessions (ps_vol st') !! sname = None
    /\ (forall k, k <> sname -> k <> affected ->
          vol_sessions (ps_vol st') !! k = vol_sessions (ps_vol st) !! k)
    /\ build_sesnames (vol_sessions (ps_vol st')) (vol_last (ps_vol st'))
       = Ok (pre ++ affected :: post).
Proof.
  intros Hw Hin Hl Hall.
  destruct (delete_session_total st sname Hw Hin Hl Hall) as (st' & affected & Hd).
  destruct (delete_session_linked _ _ _ _ Hw Hd)
    as (Hw' & pre & post & Hn & Hn' & Hgone & Hkeep & _).
  exists st', affected, pre, post.
  split; [exact Hd|]. split; [exact Hw'|]. split; [exact Hn|].
  split; [exact Hn'|]. split; [exact Hgone|]. split; [exact Hkeep|].
  rewrite <- Hn'. apply build_sesnames_linked. exact Hw'.
Qed.

Lemma delete_session_relinks_witness :
  exists st' affected,
    delete_session pstate_example "S_20190102-000000" = (st', Ok affected)
    /\ well_linked (ps_vol st').
Proof.
  destruct (delete_session_relinks pstate_example "S_20190102-000000"
              vol_example_linked)
    as (st' & affected & pre & post & H1 & H2 & _).
  - cbn. list_in.
  - cbn. discriminate.
  - cbn. list_in.
  - exists st', affected. split; [exact H1 | exact H2].
Defined.

Lemma prune_removes_range_witness :
  well_linked
    (ps_vol (fst (@prune_sessions length15_datetime (mkPruneOptions false true "")
                    pstate_example ["20190101-000000"; "20190102-000000"]%string))).
Proof.
  destruct (@prune_removes_range length15_datetime (mkPruneOptions false true "")
              pstate_example
              (fst (@prune_sessions length15_datetime (mkPruneOptions false true "")
                      pstate_example ["20190101-000000"; "20190102-000000"]%string))
              ["20190101-000000"; "20190102-000000"]%string
              ["S_20190101-000000"; "S_20190102-000000"]%string
              "S_20190103-000000" vol_example_linked)
    as (_ & pre & post & _ & _ & Hw & _).
  - vm_compute. reflexivity.
  - exact Hw.
Defined.
Lemma str_le_false_lt (a b : string) : str_le a b = false -> str_lt b a = true.
Proof.
  unfold str_le, str_lt, String.leb, String.ltb.
  rewrite (String.compare_antisym b a).
  destruct (String.compare a b); cbn; congruence.
Qed.

Lemma delete_session_no_unbound (st : pstate) (sname v : string) (e : exn) :
  snd (delete_session st sname) = Raise e -> e <> UnboundLocalError v.
Proof.
  unfold delete_session. repeat case_match; cbn; intros [= <-]; discriminate.
Qed.

Lemma delete_sessions_no_unbound (sources : list string) (st : pstate) (v : string) :
  snd (delete_sessions st sources) <> Raise (UnboundLocalError v).
Proof.
  revert st. induction sources as [|s rest IH]; intros st; cbn; [discriminate|].
  pose proof (delete_session_no_unbound st s v) as Hd.
  destruct (delete_session st s) as [st1 [a|e]]; [apply IH|].
  cbn in *. specialize (Hd e eq_refl). congruence.
Qed.

Lemma formats_no_unbound (vol : Volume) (l : list string) (v : string) :
  ofold (fun (_ : unit) ses =>
           match vol_sessions vol !! ses with
           | None => Raise (KeyError ses)
           | Some s =>
               if String.eqb (ses_format s) "tar"
               then x_it 1 "Cannot merge range containing tarfile session."
               else Ok tt
           end) l tt <> Raise (UnboundLocalError v).
Proof.
  induction l as [|x l IH]; cbn; [discriminate|].
  destruct (vol_sessions vol !! x) as [s|]; cbn; [|discriminate].
  destruct (String.eqb (ses_format s) "tar"); cbn; [discriminate | exact IH].
Qed.

Lemma merge_sessions_no_unbound (st : pstate) (sources : list string)
    (target v : string) :
  snd (merge_sessions st sources target) <> Raise (UnboundLocalError v).
Proof.
  unfold merge_sessions.
  pose proof (formats_no_unbound (ps_vol st) (sources ++ [target]) v) as Hf.
  destruct (ofold _ _ _) as [[]|e]; [|exact Hf].
  destruct sources as [|m rest]; [discriminate|].
  match goal with
  | |- context [delete_sessions ?s ?l] =>
      pose proof (delete_sessions_no_unbound l s v) as Hd;
      destruct (delete_sessions s l) as [st2 [[]|e]]
  end; [|exact Hd].
  destruct (vol_sessions (ps_vol st2) !! target); cbn; discriminate.
Qed.

(** X12: the local variable [start] of [prune_sessions] is bound whenever
    it is read.  The loop that sets it for a date-time that is no session
    name runs only after the check against the newest session, so it finds
    a later session; no call of [prune_sessions] ends with an
    [UnboundLocalError]. *)
Theorem prune_sessions_start_bound `{DateTime} (opts : prune_options) (st : pstate)
    (times : list string) (v : string) :
  snd (prune_sessions opts st times) <> Raise (UnboundLocalError v).
Proof.
  unfold prune_sessions.
  destruct (negb (forallb strptime_ok times)); [cbn; discriminate|].
  destruct times as [|time0 more]; [cbn; discriminate|].
  set (t1 := ("S_" ++ strip time0)%string).
  match goal with
  | |- context [match ?x with Ok t2 => _ | Raise e => _ end] =>
      assert (Hx : x <> Raise (UnboundLocalError v))
        by (repeat case_match; discriminate);
      destruct x as [t2|e]; [|cbn; intros Heq; injection Heq as Heq; subst e; apply Hx; reflexivity]
  end.
  clear Hx. set (sessions := vol_sesnames (ps_vol st)).
  destruct (py_last sessions) as [newest|] eqn:Hnew; [|cbn; discriminate].
  destruct (length sessions <? 2)%nat; [cbn; discriminate|].
  destruct (str_le newest t1) eqn:Hle1; [cbn; discriminate|]. cbn [orb].
  destruct (str_le newest t2); [cbn; discriminate|].
  assert (Hstart : (if bool_decide (t1 ∈ sessions) then py_list_index t1 sessions
                    else match List.find (fun ses => str_lt t1 ses) sessions with
                         | Some ses => py_list_index ses sessions
                         | None => None
                         end) <> None).
  { case_bool_decide as Hin.
    - destruct (py_list_index_elem _ _ Hin) as [i ->]. discriminate.
    - destruct (List.find _ sessions) as [ses|] eqn:Hf.
      + apply find_some in Hf as [Hs _]. apply list_elem_of_In in Hs.
        destruct (py_list_index_elem _ _ Hs) as [i ->]. discriminate.
      + exfalso. unfold py_last in Hnew. apply last_Some_elem_of in Hnew.
        apply list_elem_of_In in Hnew.
        pose proof (find_none _ _ Hf _ Hnew) as Hn. cbn in Hn.
        rewrite (str_le_false_lt _ _ Hle1) in Hn. discriminate. }
  match goal with
  | |- context [match ?x with Ok t => _ | Raise e => _ end] =>
      assert (Hx : x <> Raise (UnboundLocalError v));
        [|destruct x as [tp|e]; [|cbn; intros Heq; injection Heq as Heq; subst e; apply Hx; reflexivity]]
  end.
  { destruct (po_allbefore opts); [cbn; discriminate|].
    destruct (String.eqb t2 ""); [cbn; discriminate|].
    destruct (if bool_decide (t1 ∈ sessions) then _ else _) as [a|];
      [|congruence].
    repeat case_match; discriminate. }
  destruct (py_last tp) as [lastp|]; [|cbn; discriminate].
  destruct (py_list_index lastp sessions) as [i|]; [|cbn; discriminate].
  destruct (sessions !! S i); [|cbn; discriminate].
  destruct (_ && _); [cbn; discriminate|].
  match goal with
  | |- context [merge_sessions ?s ?l ?t] =>
      pose proof (merge_sessions_no_unbound s l t v) as Hm;
      destruct (merge_sessions s l t) as [st' [[]|e]]
  end; [cbn; discriminate | cbn in *; intros Heq; injection Heq as Heq; subst e; apply Hm; reflexivity].
Qed.
Lemma chain_update (m : gmap string Ses) (k : string) (s s' : Ses) (p : string)
    (l : list string) :
  m !! k = Some s -> ses_previous s' = ses_previous s ->
  chain m p l -> chain (<[k := s']> m) p l.
Proof.
  intros Hk Hp. revert p. induction l as [|x l IH]; intros p; cbn; [tauto|].
  intros [(sx & Hsx & Hpx) Hc]. split; [|apply IH; exact Hc].
  destruct (decide (k = x)) as [->|Hne].
  - exists s'. rewrite lookup_insert_eq. split; [reflexivity|]. congruence.
  - exists sx. rewrite lookup_insert_ne by exact Hne. auto.
Qed.

Lemma well_linked_update (vol : Volume) (k : string) (s s' : Ses) (v : Z) (q : string) :
  well_linked vol ->
  vol_sessions vol !! k = Some s -> ses_previous s' = ses_previous s ->
  well_linked (mkVolume (vol_name vol) (vol_path vol) (<[k := s']> (vol_sessions vol))
                 (vol_sesnames vol) (vol_first vol) (vol_last vol) v q).
Proof.
  intros (Hnd & Hnone & Hch & Hdom & Hfirst & Hlast) Hk Hp.
  unfold well_linked. cbn.
  split; [exact Hnd|]. split; [exact Hnone|].
  split; [eapply chain_update; eauto|].
  split; [|split; assumption].
  intros x Hx. apply Hdom.
  destruct (decide (k = x)) as [->|Hne]; [eauto|].
  rewrite lookup_insert_ne in Hx by exact Hne. exact Hx.
Qed.

(** The chunk loop has started the stream exactly when it has written a
    manifest line. *)
Lemma send_chunk_started `{Codec} `{DedupIndex D} (env : send_env)
    (st st' : send_state D) (addr : Z) :
  send_chunk env st addr = Ok st' ->
  ss_started st = negb (bool_decide (ss_manifest st = [])) ->
  ss_started st' = negb (bool_decide (ss_manifest st' = [])).
Proof.
  unfold send_chunk.
  destruct (if _ >=? _ then _ else _) as [sel|e]; [|discriminate]. cbn [obind].
  destruct (negb sel); [intros [= <-]; auto|].
  assert (Hne : forall (l : list (string * string)) x,
            true = negb (bool_decide (l ++ [x] = []))).
  { intros l x. rewrite bool_decide_eq_false_2; [reflexivity|].
    destruct l; discriminate. }
  destruct (_ && _); [intros [= <-] _; cbn; apply Hne|].
  destruct (negb _); [discriminate|].
  destruct (compress_level_error _); [discriminate|].
  destruct (if dedup_enabled then _ else _) as [idx hit].
  destruct hit as [[ddses_i ddchx]|].
  - destruct (py_index _ _) as [i|]; [|discriminate].
    destruct (_ !! i) as [[ddvol ddname]|]; [|discriminate].
    intros [= <-] _. cbn. apply Hne.
  - intros [= <-] _. cbn. apply Hne.
Qed.

Lemma send_loop_started `{Codec} `{DedupIndex D} (env : send_env)
    (addrs : list Z) (st st' : send_state D) :
  ofold (send_chunk env) addrs st = Ok st' ->
  ss_started st = negb (bool_decide (ss_manifest st = [])) ->
  ss_started st' = negb (bool_decide (ss_manifest st' = [])).
Proof.
  revert st. induction addrs as [|a rest IH]; intros st; cbn.
  - intros [= <-]. auto.
  - destruct (send_chunk env st a) as [st1|e] eqn:Hc; [|discriminate]. cbn.
    intros Hr Hs. apply (IH st1 Hr). eapply send_chunk_started; eauto.
Qed.

(** What a [send_volume] that returns has left in the volume record. *)
Lemma send_volume_Ok `{Codec} `{DedupIndex D} (aset : ArchiveSet) (vol : Volume)
    (snap2size : Z) (vf bmap : bytes) (localtime : string) (tarfile : bool)
    (idx : D) (r : send_result D) :
  send_volume aset vol snap2size vf bmap localtime tarfile idx = Ok r ->
  exists vol1 ns,
    new_session vol ("S_" ++ localtime) = Ok (vol1, ns)
    /\ sr_allsessions r
       = as_allsessions aset ++ [(vol_name vol, ("S_" ++ localtime)%string)]
    /\ sr_started r = negb (bool_decide (sr_manifest r = []))
    /\ sr_vol r
       = mkVolume (vol_name vol1) (vol_path vol1)
           (<[("S_" ++ localtime)%string :=
                mkSes (ses_name ns) (ses_volume ns)
                  (if sr_started r
                   then vol_path vol ++ "/" ++ ("S_" ++ localtime)
                   else vol_path vol ++ "/" ++ ("S_" ++ localtime) ++ "-tmp")%string
                  localtime snap2size
                  (if tarfile then "tar" else "folders")%string
                  (ses_sequence ns) (ses_previous ns)]> (vol_sessions vol1))
           (vol_sesnames vol1) (vol_first vol1) (vol_last vol1)
           (if sr_started r then snap2size else vol_volsize vol1)
           (if sr_started r then "false"%string else vol_que_meta_update vol1).
Proof.
  unfold send_volume.
  destruct (mapsize _ _ _) as [ms|e]; [|discriminate]. cbn [obind].
  destruct (new_session vol _) as [[vol1 ns]|e]; [|discriminate]. cbn [obind].
  destruct (py_bytes _) as [zeros|e]; [|discriminate]. cbn [obind].
  destruct (py_int _) as [level|e]; [|discriminate]. cbn [obind].
  destruct (ofold _ _ _) as [st|e] eqn:Hf; [|discriminate]. cbn [obind].
  intros [= <-]. cbn. exists vol1, ns.
  apply send_loop_started in Hf; [|reflexivity].
  split; [reflexivity|]. split; [reflexivity|]. split; [exact Hf|].
  destruct (ss_started st); reflexivity.
Qed.

(** X13: the bookkeeping of [send_volume].  On a well-linked volume a send
    that returns has appended the session [S_<localtime>] to the ordered
    list and to the master list, with the snapshot size, the date-time, the
    format and a link to the session that was last; the volume is well
    linked again.  The stream has been started exactly when the manifest
    has a line, and only then the volume takes the snapshot size. *)
Theorem send_volume_registers_session `{Codec} `{DedupIndex D} (aset : ArchiveSet)
    (vol : Volume) (snap2size : Z) (vf bmap : bytes) (localtime : string)
    (tarfile : bool) (idx : D) (r : send_result D) :
  well_linked vol ->
  ("S_" ++ localtime)%string ∉ vol_sesnames vol ->
  send_volume aset vol snap2size vf bmap localtime tarfile idx = Ok r ->
  well_linked (sr_vol r)
  /\ vol_sesnames (sr_vol r) = vol_sesnames vol ++ [("S_" ++ localtime)%string]
  /\ sr_allsessions r
     = as_allsessions aset ++ [(vol_name vol, ("S_" ++ localtime)%string)]
  /\ (exists ses,
        vol_sessions (sr_vol r) !! ("S_" ++ localtime)%string = Some ses
        /\ ses_volsize ses = snap2size /\ ses_localtime ses = localtime
        /\ ses_format ses = (if tarfile then "tar" else "folders")%string
        /\ ses_previous ses = default "none"%string (last (vol_sesnames vol)))
  /\ sr_started r = negb (bool_decide (sr_manifest r = []))
  /\ vol_volsize (sr_vol r) = (if sr_started r then snap2size else vol_volsize vol).
Proof.
  intros Hw Hnew Hs.
  apply send_volume_Ok in Hs as (vol1 & ns & Hns & Hall & Hst & Hv).
  destruct (new_session_linked vol ("S_" ++ localtime) Hw Hnew ltac:(discriminate))
    as (vol1' & ns' & Hns' & Hw1 & Hn1 & Hs1 & _ & Hp1 & Hname & Hpath & Hvs & Hq).
  rewrite Hns in Hns'. injection Hns' as <- <-.
  assert (Hlook : vol_sessions vol1 !! ("S_" ++ localtime)%string = Some ns)
    by (rewrite Hs1; apply lookup_insert_eq).
  rewrite Hv. cbn.
  split; [eapply well_linked_update; eauto|].
  split; [exact Hn1|]. split; [exact Hall|].
  split.
  { eexists. rewrite lookup_insert_eq. split; [reflexivity|]. cbn. auto. }
  split; [exact Hst|].
  rewrite Hvs. reflexivity.
Qed.

Lemma send_volume_registers_session_witness :
  exists r,
    @send_volume stored_codec unit no_dedup
      (mkArchiveSet 512 "zlib" "4" "vg0" "/mnt/backup" 1 [])
      vol_example 1024 (repeat 7 (Z.to_nat 1024)) [0] "20190104-000000"
      false tt = Ok r
    /\ well_linked (sr_vol r).
Proof.
  eexists. split; [vm_compute; reflexivity|].
  apply (@send_volume_registers_session stored_codec unit no_dedup
           (mkArchiveSet 512 "zlib" "4" "vg0" "/mnt/backup" 1 [])
           vol_example 1024 (repeat 7 (Z.to_nat 1024)) [0] "20190104-000000"
           false tt).
  - exact vol_example_linked.
  - cbn. list_notin.
  - vm_compute. reflexivity.
Defined.
Lemma apply_deltas_unmarked (chunksize dblocksize : Z) (diff : list delta)
    (st : delta_state) :
  Forall (fun d => ~ delta_marks d) diff ->
  ofold (apply_delta chunksize dblocksize) diff st = Ok st.
Proof.
  induction 1 as [|d rest Hd _ IH]; [reflexivity|].
  cbn [ofold]. unfold apply_delta at 1.
  rewrite bool_decide_eq_false_2 by (unfold delta_marks in Hd; tauto).
  rewrite bool_decide_eq_false_2 by (unfold delta_marks in Hd; tauto).
  cbn [obind]. exact IH.
Qed.

Lemma chunk_bit_zeros (l : bytes) (k : Z) :
  Forall (fun v => v = 0) l -> chunk_bit l k = false.
Proof.
  intros Hz. unfold chunk_bit.
  destruct (l !! Z.to_nat (k / 8)) as [v|] eqn:Hv; [|reflexivity].
  rewrite Forall_lookup in Hz. rewrite (Hz _ _ Hv). apply Z.testbit_0_l.
Qed.

Lemma ftruncate_zeros (l : bytes) (n : Z) :
  Forall (fun v => v = 0) l -> Forall (fun v => v = 0) (ftruncate l n).
Proof.
  intros Hz. unfold ftruncate. apply Forall_app. split.
  - apply Forall_take. exact Hz.
  - apply Forall_forall. intros x Hx. apply list_elem_of_In, repeat_spec in Hx.
    exact Hx.
Qed.

Lemma filter_all_false {A} (f : A -> bool) (l : list A) :
  (forall x, In x l -> f x = false) -> List.filter f l = [].
Proof.
  induction l as [|x l IH]; intros Hf; [reflexivity|].
  cbn. rewrite (Hf x) by (left; reflexivity).
  apply IH. intros y Hy. apply Hf. right. exact Hy.
Qed.

Lemma new_session_volsize (vol vol1 : Volume) (sname : string) (ns : Ses) :
  new_session vol sname = Ok (vol1, ns) -> vol_volsize vol1 = vol_volsize vol.
Proof.
  unfold new_session. repeat case_match; cbn; try discriminate;
    intros [= <- _]; reflexivity.
Qed.

(** X14: a volume that has not changed sends nothing.  After a backup the
    map is reset by [init_deltamap]; if the thin delta then holds no
    element that marks a range and the snapshot is not larger than the
    last session, [update_delta_digest] reports no change and a following
    [send_volume] selects no chunk: the manifest and the stream stay
    empty, the stream is not started, and the volume size is kept. *)
Theorem unchanged_volume_sends_nothing `{Codec} `{DedupIndex D} (aset : ArchiveSet)
    (vol : Volume) (snap2size dblocksize m0 : Z) (diff : list delta)
    (bmap' : bytes) (changed : bool) (vf : bytes) (localtime : string)
    (tarfile : bool) (idx : D) (r : send_result D) :
  size (vol_sessions vol) <> 0%nat ->
  0 < as_chunksize aset -> 0 < snap2size -> snap2size <= vol_volsize vol ->
  Z.of_nat (length vf) = snap2size ->
  Forall (fun d => ~ delta_marks d) diff ->
  update_delta_digest vol (as_chunksize aset) snap2size dblocksize diff
    (init_deltamap m0) = Ok (bmap', changed) ->
  send_volume aset vol snap2size vf bmap' localtime tarfile idx = Ok r ->
  changed = false
  /\ sr_manifest r = [] /\ sr_tar r = [] /\ sr_started r = false
  /\ vol_volsize (sr_vol r) = vol_volsize vol.
Proof.
  intros Hses Hc Hv Hprior Hlen Hdiff Hu Hs.
  set (C := as_chunksize aset) in *.
  assert (Hms : 0 <= snap2size / C / 8)
    by (apply Z.div_pos; [apply Z.div_pos|]; lia).
  assert (Hb : changed = false /\ Forall (fun v => v = 0) bmap').
  { revert Hu. unfold update_delta_digest, mapsize.
    rewrite bool_decide_eq_false_2 by exact Hses.
    destruct (Z.eqb_spec snap2size 0); [lia|].
    destruct (Z.eqb_spec C 0); [lia|]. cbn [obind].
    rewrite apply_deltas_unmarked by exact Hdiff. cbn [obind ds_bmap ds_lastindex ds_byte].
    set (mm := ftruncate (init_deltamap m0) (snap2size / C / 8 + 1)).
    assert (Hz : Forall (fun v => v = 0) mm).
    { apply ftruncate_zeros. unfold init_deltamap. apply ftruncate_zeros. constructor. }
    destruct (mm_or_in_range mm 0 0) as (x & Hx & ->).
    { unfold mm. rewrite length_ftruncate. lia. }
    cbn [obind]. intros [= <- <-]. split; [reflexivity|].
    rewrite Z.lor_0_r, list_insert_id by exact Hx. exact Hz. }
  destruct Hb as [-> Hz]. split; [reflexivity|].
  assert (Hem : emitted_addrs aset vol snap2size bmap' = []).
  { unfold emitted_addrs. fold C.
    rewrite bool_decide_eq_false_2 by exact Hses.
    assert (Hsa : compute_sendall_addr false (vol_volsize vol) snap2size C
                  = snap2size + 1).
    { unfold compute_sendall_addr. cbn [negb].
      destruct (Z.gtb_spec (vol_volsize vol) snap2size); [reflexivity|].
      pose proof (last_chunk_addr_bounds (vol_volsize vol) C Hc) as [Hb _].
      destruct (Z.geb_spec (snap2size - 1) (last_chunk_addr (vol_volsize vol) C + C));
        [lia | reflexivity]. }
    rewrite Hsa. apply filter_all_false. intros a Ha.
    apply py_range_In in Ha; [|exact Hc]. unfold chunk_selected.
    rewrite chunk_bit_zeros by exact Hz.
    destruct (Z.leb_spec (snap2size + 1) a); [lia | reflexivity]. }
  pose proof (send_volume_spec aset vol snap2size vf bmap' localtime tarfile idx r
                Hc Hlen Hs) as (Hm & Ht & _).
  unfold stored_addrs in Ht. rewrite Hem in Hm, Ht. cbn in Hm, Ht.
  apply Forall2_nil_inv_l in Ht.
  apply send_volume_Ok in Hs as (vol1 & ns & Hns & _ & Hst & Hvol).
  rewrite Hm in Hst. cbn in Hst.
  split; [exact Hm|]. split; [exact Ht|]. split; [exact Hst|].
  rewrite Hvol, Hst. cbn. eapply new_session_volsize; eauto.
Qed.

Lemma unchanged_volume_sends_nothing_witness :
  exists r,
    @send_volume stored_codec unit no_dedup
      (mkArchiveSet 512 "zlib" "4" "vg0" "/mnt/backup" 1 [])
      vol_example 1024 (repeat 7 (Z.to_nat 1024)) [0] "20190104-000000"
      false tt = Ok r
    /\ sr_manifest r = [].
Proof.
  eexists. split; [vm_compute; reflexivity|].
  eapply (@unchanged_volume_sends_nothing stored_codec unit no_dedup
            (mkArchiveSet 512 "zlib" "4" "vg0" "/mnt/backup" 1 [])
            vol_example 1024 128 1 [mkDelta "same" 0 1] [0] false
            (repeat 7 (Z.to_nat 1024)) "20190104-000000" false tt).
  - vm_compute. discriminate.
  - cbn. lia.
  - lia.
  - cbn. lia.
  - vm_compute. reflexivity.
  - repeat constructor. unfold delta_marks. cbn. intros [H|[H|H]]; discriminate.
  - vm_compute. reflexivity.
  - vm_compute. reflexivity.
Defined.
(** What an iteration of the receive loop in save mode has done when it
    returns: it has read the manifest line of the address and either
    written nothing (a zero entry, or the [break]) or written at the
    current position a buffer that the payload checked against the line
    decompresses to. *)
Lemma receive_chunk_save `{Codec} (env : recv_env) (st st1 : recv_state)
    (addr : Z) (ctl : loop_ctl) :
  re_mode env = RecvSave ->
  receive_chunk env st addr = Ok (st1, ctl) ->
  exists cksum ses rest,
    rs_mf st = [cksum; destfile_of addr; ses] :: rest
    /\ rs_mf st1 = rest
    /\ ((rs_savef st1 = rs_savef st
         /\ (ctl = Continue ->
             rs_savef_pos st1 = rs_savef_pos st + re_chunksize env))
        \/ (exists payload buf,
              sha256_hexdigest payload = cksum
              /\ zlib_decompress payload decomp_bits (re_chunksize env) = Some buf
              /\ rs_savef st1 = rs_savef st ++ [(rs_savef_pos st, buf)]
              /\ rs_savef_pos st1 = rs_savef_pos st + Z.of_nat (length buf)
              /\ (addr < re_lchunk_addr env ->
                  Z.of_nat (length buf) = re_chunksize env)
              /\ (addr = re_lchunk_addr env ->
                  Z.of_nat (length buf) = re_volsize env - re_lchunk_addr env))).
Proof.
  intros Hmode. unfold receive_chunk. rewrite Hmode.
  destruct (rs_mf st) as [|line rest]; [discriminate|].
  destruct line as [|cksum [|fname [|ses [|? ?]]]]; try discriminate.
  destruct (String.eqb_spec fname ("x" ++ chformat addr)) as [->|]; [|discriminate].
  cbn [negb].
  destruct (String.eqb (strip cksum) "0").
  { destruct (_ =? 0); [|discriminate]. cbn [negb obind].
    intros [= <- <-]. exists cksum, ses, rest. cbn.
    split; [reflexivity|]. split; [reflexivity|]. left. auto. }
  destruct (_ || _); [discriminate|].
  destruct (_ && _).
  { intros [= <- <-]. exists cksum, ses, rest. cbn.
    split; [reflexivity|]. split; [reflexivity|]. left.
    split; [reflexivity|]. discriminate. }
  destruct (negb (_ =? _)); [discriminate|].
  destruct (String.eqb_spec cksum (sha256_hexdigest
              (firstn (Z.to_nat (int_from_bytes_big (firstn 4 (rs_stream st))))
                 (skipn 4 (rs_stream st))))) as [Hck|]; [|discriminate].
  cbn [negb].
  destruct (negb (_ || _)); [discriminate|].
  destruct (zlib_decompress _ _ _) as [buf|] eqn:Hz; [|discriminate].
  cbn [obind].
  destruct (Z.eqb_spec (Z.of_nat (length buf)) (re_chunksize env)) as [Hl|Hl];
    cbn [negb andb].
  - destruct (Z.eqb_spec addr (re_lchunk_addr env)) as [Ha|Ha]; cbn [andb].
    + destruct (Z.eqb_spec (Z.of_nat (length buf))
                  (re_volsize env - re_lchunk_addr env)) as [Hv|Hv];
        [|discriminate].
      cbn [negb]. intros [= <- <-]. exists cksum, ses, rest. cbn.
      split; [reflexivity|]. split; [reflexivity|]. right.
      eexists _, buf. split; [symmetry; exact Hck|]. split; [exact Hz|].
      repeat split; auto.
    + intros [= <- <-]. exists cksum, ses, rest. cbn.
      split; [reflexivity|]. split; [reflexivity|]. right.
      eexists _, buf. split; [symmetry; exact Hck|]. split; [exact Hz|].
      repeat split; auto. intros; congruence.
  - destruct (Z.ltb_spec addr (re_lchunk_addr env)) as [Ha|Ha]; [discriminate|].
    destruct (Z.eqb_spec addr (re_lchunk_addr env)) as [Ha'|Ha']; cbn [andb].
    + destruct (Z.eqb_spec (Z.of_nat (length buf))
                  (re_volsize env - re_lchunk_addr env)) as [Hv|Hv];
        [|discriminate].
      cbn [negb]. intros [= <- <-]. exists cksum, ses, rest. cbn.
      split; [reflexivity|]. split; [reflexivity|]. right.
      eexists _, buf. split; [symmetry; exact Hck|]. split; [exact Hz|].
      repeat split; auto. intros; lia.
    + intros [= <- <-]. exists cksum, ses, rest. cbn.
      split; [reflexivity|]. split; [reflexivity|]. right.
      eexists _, buf. split; [symmetry; exact Hck|]. split; [exact Hz|].
      repeat split; auto; intros; lia.
Qed.
Lemma receive_loop_writes `{Codec} (env : recv_env) (mf : list (list string))
    (len s : nat) (st st' : recv_state) :
  re_mode env = RecvSave -> 0 < re_chunksize env ->
  re_lchunk_addr env = last_chunk_addr (re_volsize env) (re_chunksize env) ->
  (forall i, (s <= i < s + len)%nat ->
             Z.of_nat i * re_chunksize env < re_volsize env) ->
  rs_mf st = drop s mf ->
  rs_savef_pos st = Z.of_nat s * re_chunksize env ->
  Forall (verified_write (re_volsize env) (re_chunksize env) mf) (rs_savef st) ->
  receive_loop env st
    (map (fun i => 0 + Z.of_nat i * re_chunksize env) (seq s len)) = Ok st' ->
  Forall (verified_write (re_volsize env) (re_chunksize env) mf) (rs_savef st').
Proof.
  intros Hmode Hc Hlc. revert s st.
  induction len as [|len IH]; intros s st Hrange Hmf Hpos Hw.
  - cbn. intros [= <-]. exact Hw.
  - cbn [seq map receive_loop].
    set (C := re_chunksize env) in *. set (addr := 0 + Z.of_nat s * C).
    destruct (receive_chunk env st addr) as [[st1 ctl]|e] eqn:Hch; [|discriminate].
    cbn [obind].
    apply receive_chunk_save in Hch as (cksum & ses & rest & Hline & Hrest & Hcase);
      [|exact Hmode].
    assert (Hin : In addr (py_range 0 (re_volsize env) C)).
    { apply py_range_In; [exact Hc|]. unfold addr. split.
      - split; [nia|]. rewrite Z.add_0_l. apply Hrange. lia.
      - rewrite Z.add_0_l. apply Z.mod_mul. lia. }
    assert (Hmf1 : rs_mf st1 = drop (S s) mf).
    { rewrite Hrest. replace (S s) with (s + 1)%nat by lia.
      rewrite <- drop_drop, <- Hmf, Hline. reflexivity. }
    assert (Hlook : mf !! Z.to_nat (addr / C)
                    = Some [cksum; destfile_of addr; ses]).
    { unfold addr. rewrite Z.add_0_l, Z.div_mul, Nat2Z.id by lia.
      pose proof (lookup_drop mf s 0) as Hd. rewrite <- Hmf, Hline in Hd.
      rewrite Nat.add_0_r in Hd. symmetry. exact Hd. }
    destruct Hcase as [[Hsame Hp] | (payload & buf & Hck & Hz & Hsv & Hp & Hlt & Heq)].
    + destruct ctl.
      * apply IH.
        -- intros i Hi. apply Hrange. lia.
        -- exact Hmf1.
        -- rewrite Hp by reflexivity. rewrite Hpos. fold C. lia.
        -- rewrite Hsame. exact Hw.
      * intros [= <-]. rewrite Hsame. exact Hw.
    + assert (Hw1 : Forall (verified_write (re_volsize env) C mf) (rs_savef st1)).
      { rewrite Hsv. apply Forall_app. split; [exact Hw|].
        constructor; [|constructor].
        assert (Hpa : rs_savef_pos st = addr) by (unfold addr; lia).
        rewrite Hpa. unfold verified_write. cbn [fst snd].
        split; [exact Hin|]. split.
        - pose proof (range_addr_le_last _ _ _ Hc Hin) as (_ & _ & Hle).
          rewrite <- Hlc in Hle.
          destruct (Z.eq_dec addr (re_lchunk_addr env)) as [Hal|Hal].
          + rewrite Heq by exact Hal. lia.
          + rewrite Hlt by lia.
            pose proof (last_chunk_addr_bounds (re_volsize env) C Hc) as [Hb Hm].
            rewrite <- Hlc in Hb, Hm.
            assert (Ham : addr mod C = 0)
              by (unfold addr; rewrite Z.add_0_l; apply Z.mod_mul; lia).
            assert (addr + C <= re_lchunk_addr env); [|lia].
            apply Z.mod_divide in Ham; [|lia]. apply Z.mod_divide in Hm; [|lia].
            destruct Ham as [a Ha], Hm as [b Hb'].
            assert (a < b) by nia. nia.
        - exists cksum, ses, payload. auto. }
      destruct ctl; [|intros [= <-]; exact Hw1].
      destruct len as [|len'].
      { cbn. intros [= <-]. exact Hw1. }
      apply IH.
      * intros i Hi. apply Hrange. lia.
      * exact Hmf1.
      * rewrite Hp, Hpos. fold C.
        assert (Hnext : Z.of_nat (S s) * C < re_volsize env) by (apply Hrange; lia).
        pose proof (range_addr_le_last _ _ _ Hc Hin) as (_ & _ & Hle).
        rewrite <- Hlc in Hle.
        pose proof (last_chunk_addr_bounds (re_volsize env) C Hc) as [Hb _].
        rewrite <- Hlc in Hb.
        rewrite Hlt; [lia|]. unfold addr in *. lia.
      * exact Hw1.
Qed.

(** X15: a receive writes only verified data.  Every buffer that a
    [receive_volume] in save mode has written when it returns starts at a
    chunk address of the volume and ends inside the volume, and it is the
    decompression of a payload whose SHA-256 is the checksum of the
    manifest line of that address. *)
Theorem receive_writes_verified `{Codec} (volsize chunksize : Z)
    (compression : string) (mf : list (list string)) (stream : bytes)
    (polls : list (option Z)) (cmpf bmap : bytes) (st : recv_state) :
  receive_volume RecvSave volsize chunksize compression mf stream polls cmpf bmap
  = Ok st ->
  Forall (verified_write volsize chunksize mf) (rs_savef st).
Proof.
  unfold receive_volume, py_bytes.
  destruct (Z.ltb_spec chunksize 0); [discriminate|]. cbn [obind].
  destruct (Z.eqb_spec chunksize 0); [discriminate|].
  cbn [open_deltamap obind].
  destruct (receive_loop _ _ _) as [st0|e] eqn:Hl; [|discriminate]. cbn [obind].
  intros Hf.
  assert (Hst : st = st0).
  { revert Hf. unfold receive_finish. repeat case_match; try discriminate;
      intros [= <-]; reflexivity. }
  subst st0. revert Hl. unfold py_range.
  destruct (Z.leb_spec chunksize 0); [lia|].
  intros Hl.
  match type of Hl with
  | receive_loop ?env ?s0 (map _ (seq 0 ?cnt)) = _ =>
      apply (receive_loop_writes env mf cnt 0%nat s0 st)
  end; cbn [re_mode re_chunksize re_volsize re_lchunk_addr rs_mf rs_savef_pos
            rs_savef drop]; try reflexivity; try lia.
  - intros i Hi.
    destruct (Z.lt_ge_cases (Z.of_nat i * chunksize) volsize) as [|Hge]; [assumption|].
    exfalso.
    assert ((volsize - 0 + chunksize - 1) / chunksize < Z.of_nat i + 1); [|lia].
    apply Z.div_lt_upper_bound; [lia|]. nia.
  - constructor.
  - exact Hl.
Qed.

Lemma receive_writes_verified_witness :
  exists st,
    @receive_volume stored_codec RecvSave 1024 1024 "zlib"
      [["0178"; "x0000000000000000"; "S_20190101-000000"]%string]
      ([0; 0; 4; 1] ++ 120 :: repeat 7 (Z.to_nat 1024)) [Some 0] [] [] = Ok st
    /\ Forall (@verified_write stored_codec 1024 1024
                 [["0178"; "x0000000000000000"; "S_20190101-000000"]%string])
              (rs_savef st).
Proof.
  eexists. split; [vm_compute; reflexivity|].
  apply (@receive_writes_verified stored_codec 1024 1024 "zlib"
           [["0178"; "x0000000000000000"; "S_20190101-000000"]%string]
           ([0; 0; 4; 1] ++ 120 :: repeat 7 (Z.to_nat 1024)) [Some 0] [] []).
  vm_compute. reflexivity.
Defined.
Lemma nospace_app (a b : string) :
  nospace (a ++ b) = nospace a && nospace b.
Proof.
  induction a as [|c a IH]; [reflexivity|].
  rewrite string_app_cons. unfold nospace in *. cbn [list_ascii_of_string forallb].
  rewrite IH, andb_assoc. reflexivity.
Qed.

Lemma lstrip_nospace (s : string) : nospace s = true -> lstrip s = s.
Proof.
  destruct s as [|c s]; [reflexivity|]. unfold nospace. cbn [list_ascii_of_string forallb lstrip].
  intros [Hc _]%andb_true_iff. destruct (is_space c); [discriminate | reflexivity].
Qed.

Lemma nospace_str_rev (s : string) : nospace s = true -> nospace (str_rev s) = true.
Proof.
  unfold nospace, str_rev. rewrite list_ascii_of_string_of_list_ascii.
  rewrite !forallb_forall. intros Hs c Hc. apply Hs. apply in_rev. exact Hc.
Qed.

Lemma str_rev_involutive (s : string) : str_rev (str_rev s) = s.
Proof.
  unfold str_rev. rewrite list_ascii_of_string_of_list_ascii, rev_involutive.
  apply string_of_list_ascii_of_string.
Qed.

Lemma strip_nospace (s : string) : nospace s = true -> strip s = s.
Proof.
  intros Hs. unfold strip. rewrite (lstrip_nospace s Hs).
  rewrite (lstrip_nospace _ (nospace_str_rev s Hs)). apply str_rev_involutive.
Qed.

Lemma format_0x_byte_nospace (n : Z) : 0 <= n < 256 -> nospace (format_0x 2 n) = true.
Proof.
  intros Hn.
  assert (Hall : forallb (fun i => nospace (format_0x 2 (Z.of_nat i))) (seq 0 256) = true)
    by (vm_compute; reflexivity).
  rewrite forallb_forall in Hall.
  specialize (Hall (Z.to_nat n)). rewrite Z2Nat.id in Hall by lia.
  apply Hall. apply in_seq. lia.
Qed.

Lemma hexlify_nospace (b : bytes) : nospace (hexlify b) = true.
Proof.
  induction b as [|x b IH]; [reflexivity|].
  cbn [hexlify fold_right]. rewrite nospace_app. fold (hexlify b). rewrite IH.
  rewrite format_0x_byte_nospace; [reflexivity|]. apply Z.mod_pos_bound. lia.
Qed.

Lemma strip_hexlify_not_zero (b : bytes) : String.eqb (strip (hexlify b)) "0" = false.
Proof.
  rewrite strip_nospace by apply hexlify_nospace.
  apply String.eqb_neq. apply hexlify_not_zero.
Qed.

Lemma int_from_to_bytes4 (n : Z) (rest : bytes) : 0 <= n < 2 ^ 32 ->
  int_from_bytes_big (firstn 4 (to_bytes4 n ++ rest)) = n
  /\ skipn 4 (to_bytes4 n ++ rest) = rest.
Proof.
  intros Hn. split; [|reflexivity].
  unfold to_bytes4. cbn [app firstn]. unfold int_from_bytes_big. cbn [fold_left].
  change (2 ^ 24) with (256 * 256 * 256). change (2 ^ 16) with (256 * 256).
  change (2 ^ 8) with 256. change (2 ^ 32) with 4294967296 in Hn.
  rewrite <- !Z.div_div by lia.
  pose proof (Z.div_mod n 256 ltac:(lia)) as H1.
  pose proof (Z.div_mod (n / 256) 256 ltac:(lia)) as H2.
  pose proof (Z.div_mod (n / 256 / 256) 256 ltac:(lia)) as H3.
  pose proof (Z.mod_pos_bound n 256 ltac:(lia)).
  pose proof (Z.mod_pos_bound (n / 256) 256 ltac:(lia)).
  pose proof (Z.mod_pos_bound (n / 256 / 256) 256 ltac:(lia)).
  assert (0 <= n / 256 / 256 / 256 < 256).
  { split; [repeat apply Z.div_pos; lia|].
    repeat (apply Z.div_lt_upper_bound; [lia|]). lia. }
  rewrite (Z.mod_small (n / 256 / 256 / 256)) by lia. rewrite firstn_O. cbn [fold_left].
  lia.
Qed.
Lemma helper_receive_chunks `{Codec} (fs : string -> option bytes) (ses : string)
    (vf : bytes) (volsize chunksize level : Z) (addrs : list Z) :
  (forall a, In a addrs ->
     fs (dest_path ses (destfile_of a))
     = if zero_skipped vf volsize chunksize a then None
       else Some (zlib_compress (vf_read vf a chunksize) level)) ->
  (forall a, In a addrs -> zero_skipped vf volsize chunksize a = false ->
     Z.of_nat (length (zlib_compress (vf_read vf a chunksize) level)) < 2 ^ 32) ->
  helper_receive fs (map (fun a => dest_path ses (destfile_of a)) addrs)
  = (concat (map (helper_chunk vf volsize chunksize level) addrs), 0).
Proof.
  induction addrs as [|a addrs IH]; intros Hfs Hsz; [reflexivity|].
  cbn [map helper_receive concat].
  rewrite (Hfs a (or_introl eq_refl)).
  rewrite IH;
    [| intros; apply Hfs; right; assumption | intros; apply Hsz; [right|]; assumption].
  unfold helper_chunk.
  destruct (zero_skipped vf volsize chunksize a) eqn:Hz.
  - reflexivity.
  - specialize (Hsz a (or_introl eq_refl) Hz).
    destruct (Z.leb_spec (2 ^ 32) (Z.of_nat (length (zlib_compress (vf_read vf a chunksize) level))));
      [lia|].
    cbn zeta. rewrite <- !app_assoc. reflexivity.
Qed.

Lemma receive_chunk_round `{Codec} (env : recv_env) (st : recv_state)
    (vf : bytes) (level : Z) (ses : string) (addr : Z)
    (mfrest : list (list string)) (srest : bytes) :
  let volsize := re_volsize env in
  let chunksize := re_chunksize env in
  re_mode env = RecvSave -> re_compression env = "zlib"%string ->
  re_lchunk_addr env = last_chunk_addr volsize chunksize ->
  0 < chunksize -> Z.of_nat (length vf) = volsize ->
  chunksize + chunksize / 1024 < 2 ^ 32 ->
  In addr (py_range 0 volsize chunksize) ->
  (forall b, zlib_decompress (zlib_compress b level) decomp_bits chunksize = Some b) ->
  (zero_skipped vf volsize chunksize addr = false ->
   1 <= Z.of_nat (length (zlib_compress (vf_read vf addr chunksize) level))
     <= chunksize + chunksize / 1024) ->
  rs_mf st = verify_line ses (manifest_line vf volsize chunksize level addr) :: mfrest ->
  rs_stream st = helper_chunk vf volsize chunksize level addr ++ srest ->
  rs_savef_pos st = addr ->
  Forall okpoll (rs_polls st) ->
  exists st',
    receive_chunk env st addr = Ok (st', Continue)
    /\ rs_mf st' = mfrest /\ rs_stream st' = srest
    /\ Forall okpoll (rs_polls st')
    /\ rs_savef st' = rs_savef st ++ chunk_write vf volsize chunksize addr
    /\ (addr <> last_chunk_addr volsize chunksize ->
        rs_savef_pos st' = addr + chunksize)
    /\ rs_addr st' = Some addr
    /\ (zero_skipped vf volsize chunksize addr = false ->
        (exists p, rs_rc st' = Some p /\ okpoll p)
        /\ rs_buf st' = Some (vf_read vf addr chunksize)).
Proof.
  intros volsize chunksize Hmode Hcomp Hlc Hc Hlen Hlim Hin Hinv Hsz Hmf Hs Hpos Hpolls.
  destruct (range_addr_le_last volsize chunksize addr Hc Hin) as (Ha & Hm & Hle).
  pose proof (last_chunk_addr_bounds volsize chunksize Hc) as [Hb Hlm].
  unfold receive_chunk. rewrite Hmf, Hs. fold chunksize.
  unfold verify_line, manifest_line, helper_chunk, chunk_write.
  destruct (zero_skipped vf volsize chunksize addr) eqn:Hz; cbn [fst snd].
  - unfold destfile_of. rewrite String.eqb_refl. cbn [negb].
    destruct (int_from_to_bytes4 0 srest ltac:(lia)) as [-> ->].
    replace (String.eqb (strip "0") "0") with true by (vm_compute; reflexivity).
    cbn [Z.eqb negb]. rewrite Hmode. cbn [obind].
    eexists. split; [reflexivity|]. cbn.
    split; [reflexivity|]. split; [reflexivity|]. split; [exact Hpolls|].
    split; [rewrite app_nil_r; reflexivity|].
    split; [intros _; rewrite Hpos; reflexivity|]. split; [reflexivity|].
    intros Hd; discriminate.
  - specialize (Hsz eq_refl).
    set (d := zlib_compress (vf_read vf addr chunksize) level) in *.
    unfold destfile_of. rewrite String.eqb_refl. cbn [negb].
    rewrite <- app_assoc.
    destruct (int_from_to_bytes4 (Z.of_nat (length d)) (d ++ srest) ltac:(lia)) as [-> ->].
    unfold sha256_hexdigest at 1. rewrite strip_hexlify_not_zero.
    destruct (Z.gtb_spec (Z.of_nat (length d)) (chunksize + chunksize / 1024)); [lia|].
    destruct (Z.ltb_spec (Z.of_nat (length d)) 1); [lia|].
    cbn [orb]. rewrite Nat2Z.id, take_app_length, drop_app_length.
    destruct (Nat.eqb_spec (length d) 0); [lia|]. rewrite andb_false_r.
    rewrite Z.eqb_refl. cbn [negb]. rewrite String.eqb_refl. cbn [negb].
    rewrite Hcomp. cbn [String.eqb Ascii.eqb Bool.eqb orb negb].
    pose proof (Hinv (vf_read vf addr chunksize)) as Hd. fold d in Hd.
    rewrite Hd. cbn [obind].
    assert (Hvl : Z.of_nat (length (vf_read vf addr chunksize))
                  = if addr =? last_chunk_addr volsize chunksize
                    then volsize - last_chunk_addr volsize chunksize else chunksize).
    { unfold vf_read. rewrite length_firstn, length_skipn.
      destruct (Z.eqb_spec addr (last_chunk_addr volsize chunksize)) as [->|Hne]; [lia|].
      assert (addr + chunksize <= last_chunk_addr volsize chunksize); [|lia].
      pose proof (Z.div_mod addr chunksize ltac:(lia)).
      pose proof (Z.div_mod (last_chunk_addr volsize chunksize) chunksize ltac:(lia)).
      assert (addr / chunksize < last_chunk_addr volsize chunksize / chunksize); [|nia].
      apply Z.div_lt_upper_bound; [lia|]. nia. }
    rewrite Hvl, Hlc. fold volsize.
    destruct (Z.eqb_spec addr (last_chunk_addr volsize chunksize)) as [He|Hne].
    + rewrite Z.eqb_refl. cbn [negb andb].
      replace (addr <? last_chunk_addr volsize chunksize) with false
        by (symmetry; apply Z.ltb_ge; lia).
      rewrite andb_false_r. rewrite Hmode.
      eexists. split; [reflexivity|]. cbn.
      split; [reflexivity|]. split; [reflexivity|].
      split; [destruct (rs_polls st); [constructor | inversion Hpolls; assumption]|].
      split; [rewrite Hpos; reflexivity|].
      split; [intros Hn; contradiction|]. split; [reflexivity|].
      intros _. split; [|reflexivity].
      eexists. split; [reflexivity|].
      destruct (rs_polls st); [left; reflexivity | inversion Hpolls; assumption].
    + rewrite Z.eqb_refl. cbn [negb andb]. rewrite Hmode.
      eexists. split; [reflexivity|]. cbn.
      split; [reflexivity|]. split; [reflexivity|].
      split; [destruct (rs_polls st); [constructor | inversion Hpolls; assumption]|].
      split; [rewrite Hpos; reflexivity|].
      split; [intros _; rewrite Hpos; reflexivity|]. split; [reflexivity|].
      intros _. split; [|reflexivity].
      eexists. split; [reflexivity|].
      destruct (rs_polls st); [left; reflexivity | inversion Hpolls; assumption].
Qed.
Lemma receive_loop_round `{Codec} (env : recv_env) (vf : bytes) (level : Z)
    (ses : string) (cnt : nat) :
  let volsize := re_volsize env in
  let chunksize := re_chunksize env in
  let addr_of := fun i : nat => 0 + Z.of_nat i * chunksize in
  re_mode env = RecvSave -> re_compression env = "zlib"%string ->
  re_lchunk_addr env = last_chunk_addr volsize chunksize ->
  0 < chunksize -> Z.of_nat (length vf) = volsize ->
  chunksize + chunksize / 1024 < 2 ^ 32 ->
  (forall b, zlib_decompress (zlib_compress b level) decomp_bits chunksize = Some b) ->
  (forall a, In a (py_range 0 volsize chunksize) ->
     zero_skipped vf volsize chunksize a = false ->
     1 <= Z.of_nat (length (zlib_compress (vf_read vf a chunksize) level))
       <= chunksize + chunksize / 1024) ->
  forall (s : nat) (st : recv_state) (mfrest : list (list string)) (srest : bytes),
    Z.of_nat (s + cnt) * chunksize <= last_chunk_addr volsize chunksize ->
    rs_mf st
    = map (fun a => verify_line ses (manifest_line vf volsize chunksize level a))
          (map addr_of (seq s cnt)) ++ mfrest ->
    rs_stream st
    = concat (map (helper_chunk vf volsize chunksize level) (map addr_of (seq s cnt)))
      ++ srest ->
    rs_savef_pos st = addr_of s ->
    Forall okpoll (rs_polls st) ->
    exists st',
      (forall rest, receive_loop env st (map addr_of (seq s cnt) ++ rest)
                    = receive_loop env st' rest)
      /\ rs_mf st' = mfrest /\ rs_stream st' = srest
      /\ Forall okpoll (rs_polls st')
      /\ rs_savef_pos st' = addr_of (s + cnt)%nat
      /\ rs_savef st'
         = rs_savef st
           ++ concat (map (chunk_write vf volsize chunksize) (map addr_of (seq s cnt))).
Proof.
  intros volsize chunksize addr_of Hmode Hcomp Hlc Hc Hlen Hlim Hinv Hsz.
  pose proof (last_chunk_addr_bounds volsize chunksize Hc) as [Hb Hlm].
  induction cnt as [|cnt IH]; intros s st mfrest srest Hle Hmf Hs Hpos Hpolls.
  - exists st. cbn in *. rewrite Nat.add_0_r, app_nil_r.
    repeat split; try assumption. 
  - cbn [seq map concat] in *. rewrite <- app_assoc in Hs.
    assert (Hin : In (addr_of s) (py_range 0 volsize chunksize)).
    { apply py_range_In; [exact Hc|]. unfold addr_of.
      rewrite Z.add_0_l, Z.mod_mul by lia. split; [|reflexivity]. nia. }
    assert (Hne : addr_of s <> last_chunk_addr volsize chunksize).
    { unfold addr_of. nia. }
    destruct (receive_chunk_round env st vf level ses (addr_of s) _ _
                Hmode Hcomp Hlc Hc Hlen Hlim Hin Hinv (Hsz _ Hin) Hmf Hs Hpos Hpolls)
      as (st1 & Hc1 & Hmf1 & Hs1 & Hp1 & Hw1 & Hpos1 & _).
    destruct (IH (S s) st1 mfrest srest) as (st' & Hl & Hmf' & Hs' & Hp' & Hpos' & Hw').
    + lia.
    + exact Hmf1.
    + exact Hs1.
    + rewrite (Hpos1 Hne). unfold addr_of, chunksize. nia.
    + exact Hp1.
    + exists st'. split.
      { intros rest. cbn [app receive_loop]. rewrite Hc1. cbn [obind]. apply Hl. }
      split; [exact Hmf'|]. split; [exact Hs'|]. split; [exact Hp'|].
      split; [rewrite Hpos'; replace (S s + cnt)%nat with (s + S cnt)%nat by lia; reflexivity|].
      rewrite Hw', Hw1, <- app_assoc. reflexivity.
Qed.

Lemma write_at_prefix (pre buf : bytes) (p z : nat) :
  length pre = p ->
  write_at (pre ++ repeat 0 z) (Z.of_nat p) buf = pre ++ buf ++ repeat 0 (z - length buf).
Proof.
  intros Hp. unfold write_at. rewrite Nat2Z.id.
  rewrite take_app_length' by (symmetry; exact Hp).
  rewrite length_app, repeat_length.
  replace (p - (length pre + z))%nat with 0%nat by lia. cbn [repeat app].
  rewrite drop_app_add' by (symmetry; exact Hp).
  rewrite skipn_repeat_sub. reflexivity.
Qed.

Lemma file_image_round (vf : bytes) (volsize chunksize : Z) (cnt : nat) :
  0 < chunksize -> Z.of_nat (length vf) = volsize ->
  forall s : nat,
    Z.of_nat (s + cnt) * chunksize <= last_chunk_addr volsize chunksize ->
    fold_left (fun f w => write_at f (fst w) (snd w))
      (concat (map (chunk_write vf volsize chunksize)
                   (map (fun i : nat => 0 + Z.of_nat i * chunksize) (seq s cnt))))
      (firstn (s * Z.to_nat chunksize) vf
       ++ repeat 0 (length vf - s * Z.to_nat chunksize))
    = firstn ((s + cnt) * Z.to_nat chunksize) vf
      ++ repeat 0 (length vf - (s + cnt) * Z.to_nat chunksize).
Proof.
  intros Hc Hlen.
  pose proof (last_chunk_addr_bounds volsize chunksize Hc) as [Hb Hlm].
  induction cnt as [|cnt IH]; intros s Hle.
  - cbn. rewrite Nat.add_0_r. reflexivity.
  - cbn [seq map concat]. rewrite fold_left_app.
    replace ((s + S cnt) * Z.to_nat chunksize)%nat
      with ((S s + cnt) * Z.to_nat chunksize)%nat by lia.
    rewrite <- (IH (S s)) by lia. f_equal.
    set (c := Z.to_nat chunksize).
    assert (Hsc : (s * c + c <= length vf)%nat) by (unfold c; nia).
    assert (Ha : Z.to_nat (0 + Z.of_nat s * chunksize) = (s * c)%nat) by (unfold c; nia).
    assert (Hr : vf_read vf (0 + Z.of_nat s * chunksize) chunksize
                 = firstn c (skipn (s * c) vf)).
    { unfold vf_read. rewrite Ha. reflexivity. }
    assert (Hlr : length (firstn c (skipn (s * c) vf)) = c).
    { rewrite length_firstn, length_skipn. lia. }
    replace (S s * c)%nat with (s * c + c)%nat by lia.
    rewrite <- take_take_drop.
    unfold chunk_write.
    destruct (zero_skipped vf volsize chunksize (0 + Z.of_nat s * chunksize)) eqn:Hz.
    + cbn [fold_left].
      unfold zero_skipped, chunk_all_zero in Hz. apply andb_true_iff in Hz as [Hz _].
      rewrite forallb_zero_repeat, Hr in Hz. apply bool_decide_eq_true in Hz.
      rewrite Hlr in Hz. rewrite Hz at 1.
      replace (length vf - s * c)%nat with (c + (length vf - (s * c + c)))%nat by lia.
      rewrite repeat_app, <- app_assoc. reflexivity.
    + cbn [fold_left fst snd]. rewrite Hr.
      replace (0 + Z.of_nat s * chunksize) with (Z.of_nat (s * c)) by (unfold c; nia).
      rewrite write_at_prefix by (rewrite length_firstn; lia).
      rewrite Hlr, <- app_assoc. f_equal. f_equal. f_equal. lia.
Qed.

Lemma file_image_last (vf : bytes) (volsize chunksize : Z) (k : nat) :
  0 < chunksize -> Z.of_nat (length vf) = volsize ->
  Z.of_nat k * chunksize = last_chunk_addr volsize chunksize ->
  write_at (firstn (k * Z.to_nat chunksize) vf
            ++ repeat 0 (length vf - k * Z.to_nat chunksize))
           (last_chunk_addr volsize chunksize)
           (vf_read vf (last_chunk_addr volsize chunksize) chunksize)
  = vf.
Proof.
  intros Hc Hlen Hk.
  pose proof (last_chunk_addr_bounds volsize chunksize Hc) as [Hb Hlm].
  set (c := Z.to_nat chunksize).
  assert (Hkc : (k * c <= length vf)%nat) by (unfold c; nia).
  assert (Hkc' : (length vf <= k * c + c)%nat) by (unfold c; nia).
  unfold vf_read. rewrite <- Hk.
  replace (Z.to_nat (Z.of_nat k * chunksize)) with (k * c)%nat by (unfold c; nia).
  replace (Z.of_nat k * chunksize) with (Z.of_nat (k * c)) by (unfold c; nia).
  rewrite write_at_prefix by (rewrite length_firstn; lia).
  fold c. rewrite (firstn_all2 (n := c)) by (rewrite length_skipn; lia).
  rewrite length_skipn.
  replace (length vf - k * c - (length vf - k * c))%nat with 0%nat by lia.
  cbn [repeat]. rewrite app_nil_r. apply firstn_skipn.
Qed.
Lemma py_range_split (volsize chunksize : Z) :
  0 < chunksize -> 0 < volsize ->
  exists k : nat,
    Z.of_nat k * chunksize = last_chunk_addr volsize chunksize
    /\ py_range 0 volsize chunksize
       = map (fun i : nat => 0 + Z.of_nat i * chunksize) (seq 0 k)
         ++ [last_chunk_addr volsize chunksize].
Proof.
  intros Hc Hv. exists (Z.to_nat ((volsize - 1) / chunksize)).
  assert (Hq : 0 <= (volsize - 1) / chunksize) by (apply Z.div_pos; lia).
  assert (Hk : Z.of_nat (Z.to_nat ((volsize - 1) / chunksize)) * chunksize
               = last_chunk_addr volsize chunksize).
  { unfold last_chunk_addr. rewrite Z2Nat.id by exact Hq.
    pose proof (Z.div_mod (volsize - 1) chunksize ltac:(lia)). lia. }
  split; [exact Hk|].
  unfold py_range. destruct (Z.leb_spec chunksize 0); [lia|].
  replace (volsize - 0 + chunksize - 1) with (volsize - 1 + 1 * chunksize) by lia.
  rewrite Z.div_add by lia.
  replace (Z.to_nat ((volsize - 1) / chunksize + 1))
    with (S (Z.to_nat ((volsize - 1) / chunksize))) by lia.
  rewrite seq_S, map_app. cbn [map Nat.add]. rewrite <- Hk. reflexivity.
Qed.

(** The archive a first send leaves: the volume size, the lines of
    [manifest.verify] and what the destination helper sends for them. *)
Lemma first_send_archive `{Codec} (aset : ArchiveSet) (vol : Volume)
    (volsize : Z) (vf bmap : bytes) (localtime : string) (r : send_result unit)
    (fs : string -> option bytes) :
  let chunksize := as_chunksize aset in
  let level := compresslevel aset in
  let sname := ("S_" ++ localtime)%string in
  0 < chunksize -> chunksize + chunksize / 1024 < 2 ^ 32 ->
  Z.of_nat (length vf) = volsize -> 0 < volsize ->
  size (vol_sessions vol) = 0%nat ->
  (forall a, In a (py_range 0 volsize chunksize) ->
     zero_skipped vf volsize chunksize a = false ->
     1 <= Z.of_nat (length (zlib_compress (vf_read vf a chunksize) level))
       <= chunksize + chunksize / 1024) ->
  send_volume aset vol volsize vf bmap localtime false tt = Ok r ->
  (forall a data, In a (py_range 0 volsize chunksize) ->
     In (TarFile (tar_path (session_dir vol localtime) (destfile_of a)) data)
        (sr_tar r) ->
     fs (dest_path sname (destfile_of a)) = Some data) ->
  (forall a, In a (py_range 0 volsize chunksize) ->
     In ("0"%string, destfile_of a) (sr_manifest r) ->
     fs (dest_path sname (destfile_of a)) = None) ->
  vol_volsize (sr_vol r) = volsize
  /\ map (verify_line sname) (sr_manifest r)
     = map (fun a => verify_line sname (manifest_line vf volsize chunksize level a))
           (py_range 0 volsize chunksize)
  /\ helper_receive fs (map (fun l => dest_path sname (snd l)) (sr_manifest r))
     = (concat (map (helper_chunk vf volsize chunksize level)
                    (py_range 0 volsize chunksize)), 0).
Proof.
  intros chunksize level sname Hc Hlim Hlen Hv Hfirst Hsz Hsend Htar Hzero.
  destruct (send_volume_spec aset vol volsize vf bmap localtime false tt r Hc Hlen Hsend)
    as (Hm & _ & Ht & _). specialize (Ht eq_refl).
  assert (Hem : emitted_addrs aset vol volsize bmap = py_range 0 volsize chunksize).
  { unfold emitted_addrs. rewrite bool_decide_eq_true_2 by exact Hfirst.
    apply filter_all_true. intros a Ha.
    apply (py_range_In volsize chunksize a Hc) in Ha as [Ha _].
    unfold chunk_selected, compute_sendall_addr. cbn.
    destruct (Z.leb_spec 0 a); [reflexivity | lia]. }
  rewrite Hem in Hm. unfold stored_addrs in Ht. rewrite Hem in Ht.
  fold chunksize level in Hm, Ht.
  destruct (py_range_split volsize chunksize Hc Hv) as (k & Hk & Hr).
  split.
  { destruct (send_volume_Ok aset vol volsize vf bmap localtime false tt r Hsend)
      as (vol1 & ns & _ & _ & Hst & ->). cbn [vol_volsize].
    rewrite Hst, Hm, Hr.
    rewrite bool_decide_eq_false_2; [reflexivity|].
    rewrite map_app. intros Hnil. apply app_eq_nil in Hnil as [_ Hnil]. discriminate. }
  split; [rewrite Hm, map_map; reflexivity|].
  assert (Hfs : forall a, In a (py_range 0 volsize chunksize) ->
            fs (dest_path sname (destfile_of a))
            = if zero_skipped vf volsize chunksize a then None
              else Some (zlib_compress (vf_read vf a chunksize) level)).
  { intros a Ha. destruct (zero_skipped vf volsize chunksize a) eqn:Hz.
    - apply (Hzero a Ha). rewrite Hm. apply in_map_iff. exists a.
      split; [|exact Ha]. unfold manifest_line. rewrite Hz. reflexivity.
    - apply (Htar a _ Ha). rewrite Ht. apply in_map_iff. exists a.
      split; [reflexivity|]. apply filter_In. split; [exact Ha|].
      rewrite Hz. reflexivity. }
  replace (map (fun l => dest_path sname (snd l)) (sr_manifest r))
    with (map (fun a => dest_path sname (destfile_of a)) (py_range 0 volsize chunksize)).
  2:{ rewrite Hm, map_map. apply map_ext. intros a.
      unfold manifest_line. destruct (zero_skipped _ _ _ a); reflexivity. }
  apply helper_receive_chunks; [exact Hfs|].
  intros a Ha Hz. specialize (Hsz a Ha Hz). lia.
Qed.

(** X16: what a first backup sends is what a receive writes.  Take a
    volume without sessions and a send of the snapshot bytes [vf] with
    compression [zlib] and without [--tarfile], at a date-time that is not
    empty and has no white space, of a volume of at most [max_address + 1]
    bytes, so that the lines of [manifest.verify] have their three columns
    and are in address order.  Let the destination hold, under the chunk
    paths of the new session, the data of every file of the stream and no
    file for a chunk the manifest marks with [0]; let the digest not be
    empty, the codec decompress what it has compressed, and every
    compressed chunk have between 1 and [chunksize + chunksize // 1024]
    bytes, the sizes a receive accepts.  Then [receive --save-to] of that
    session, fed by the destination helper from the list made of the
    manifest, returns, and the file it has written holds exactly [vf]. *)
Theorem send_receive_round_trip `{Codec} (aset : ArchiveSet) (vol : Volume)
    (volsize : Z) (vf bmap : bytes) (localtime : string) (r : send_result unit)
    (fs : string -> option bytes) (polls : list (option Z)) :
  let chunksize := as_chunksize aset in
  let sname := ("S_" ++ localtime)%string in
  let lst := map (fun l => dest_path sname (snd l)) (sr_manifest r) in
  let mf := map (verify_line sname) (sr_manifest r) in
  0 < chunksize -> chunksize + chunksize / 1024 < 2 ^ 32 ->
  Z.of_nat (length vf) = volsize -> 0 < volsize ->
  size (vol_sessions vol) = 0%nat ->
  as_compression aset = "zlib"%string ->
  localtime <> EmptyString -> nospace localtime = true ->
  volsize <= max_address + 1 ->
  (forall b, sha256_digest b <> []) ->
  (forall b, zlib_decompress (zlib_compress b (compresslevel aset))
                             decomp_bits chunksize = Some b) ->
  (forall a, In a (py_range 0 volsize chunksize) ->
     zero_skipped vf volsize chunksize a = false ->
     1 <= Z.of_nat (length (zlib_compress (vf_read vf a chunksize)
                                          (compresslevel aset)))
       <= chunksize + chunksize / 1024) ->
  send_volume aset vol volsize vf bmap localtime false tt = Ok r ->
  (forall a data, In a (py_range 0 volsize chunksize) ->
     In (TarFile (tar_path (session_dir vol localtime) (destfile_of a)) data)
        (sr_tar r) ->
     fs (dest_path sname (destfile_of a)) = Some data) ->
  (forall a, In a (py_range 0 volsize chunksize) ->
     In ("0"%string, destfile_of a) (sr_manifest r) ->
     fs (dest_path sname (destfile_of a)) = None) ->
  Forall (fun p => p = None \/ p = Some (snd (helper_receive fs lst))) polls ->
  exists st,
    receive_volume RecvSave (vol_volsize (sr_vol r)) chunksize (as_compression aset)
                   mf (fst (helper_receive fs lst)) polls [] [] = Ok st
    /\ file_image (vol_volsize (sr_vol r)) (rs_savef st) = vf.
Proof.
  intros chunksize sname lst mf Hc Hlim Hlen Hv Hfirst Hcomp _ _ _ _ Hinv Hsz Hsend
         Htar Hzero Hpolls.
  set (level := compresslevel aset) in *.
  destruct (first_send_archive aset vol volsize vf bmap localtime r fs Hc Hlim Hlen Hv
              Hfirst Hsz Hsend Htar Hzero) as (Hvs & Hmf & Hh).
  fold chunksize level sname in Hmf, Hh.
  destruct (py_range_split volsize chunksize Hc Hv) as (k & Hk & Hr).
  unfold lst, mf in *.
  rewrite Hvs. rewrite Hh in Hpolls |- *. cbn [fst snd] in Hpolls |- *.
  rewrite Hmf, Hr, !map_app, concat_app. cbn [map concat].
  (* the loop *)
  pose proof (last_chunk_addr_bounds volsize chunksize Hc) as [Hb Hlm].
  unfold receive_volume, py_bytes.
  destruct (Z.ltb_spec chunksize 0); [lia|]. cbn [obind].
  destruct (Z.eqb_spec chunksize 0); [lia|].
  cbn [open_deltamap obind]. rewrite Hr.
  match goal with
  | |- context [receive_loop ?env ?st0 _] =>
      destruct (receive_loop_round env vf level sname k eq_refl Hcomp eq_refl Hc Hlen
                  Hlim Hinv Hsz 0%nat st0
                  [verify_line sname
                     (manifest_line vf volsize chunksize level
                        (last_chunk_addr volsize chunksize))]
                  (helper_chunk vf volsize chunksize level
                     (last_chunk_addr volsize chunksize) ++ []))
        as (st1 & Hl1 & Hmf1 & Hs1 & Hp1 & Hpos1 & Hw1);
      [cbn [Nat.add re_volsize re_chunksize]; lia | reflexivity | reflexivity
      | reflexivity | exact Hpolls |];
      assert (Hlast : In (last_chunk_addr volsize chunksize)
                         (py_range 0 volsize chunksize))
        by (rewrite Hr; apply in_or_app; right; left; reflexivity);
      assert (Hzl : zero_skipped vf volsize chunksize
                      (last_chunk_addr volsize chunksize) = false)
        by (unfold zero_skipped; rewrite Z.eqb_refl, andb_false_r; reflexivity);
      destruct (receive_chunk_round env st1 vf level sname
                  (last_chunk_addr volsize chunksize) [] []
                  eq_refl Hcomp eq_refl Hc Hlen Hlim Hlast Hinv (Hsz _ Hlast)
                  Hmf1 Hs1)
        as (st2 & Hc2 & _ & _ & _ & Hw2 & _ & Ha2 & Hb2);
      [rewrite Hpos1; cbn [Nat.add re_chunksize]; lia | exact Hp1 |];
      rewrite Hl1
  end.
  cbn [receive_loop]. rewrite Hc2. cbn [obind].
  destruct (Hb2 Hzl) as ((p & Hrc & Hp) & Hbuf).
  unfold receive_finish. rewrite Hrc, Ha2, Hbuf.
  replace (match p with Some c => c >? 0 | None => false end) with false
    by (destruct Hp as [-> | ->]; reflexivity).
  cbn [re_volsize re_mode].
  match goal with
  | |- context [negb (?a =? ?b)] => destruct (Z.eqb_spec a b) as [_|Hne]
  end.
  - cbn [negb]. exists st2. split; [reflexivity|].
    cbn [re_volsize re_chunksize] in Hw1, Hw2.
    rewrite Hw2, Hw1. cbn [rs_savef app]. unfold chunk_write at 2. rewrite Hzl.
    unfold file_image. rewrite fold_left_app. cbn [fold_left fst snd].
    pose proof (file_image_round vf volsize chunksize k Hc Hlen 0%nat) as Him.
    change (0 * Z.to_nat chunksize)%nat with 0%nat in Him.
    rewrite firstn_O, Nat.sub_0_r in Him. cbn [Nat.add app] in Him.
    replace (Z.to_nat volsize) with (length vf) by lia.
    rewrite Him by lia.
    apply file_image_last; assumption.
  - exfalso. apply Hne. unfold vf_read. rewrite length_firstn, length_skipn.
    cbn [re_chunksize].
    assert (0 <= last_chunk_addr volsize chunksize) by nia. lia.
Qed.
Lemma send_receive_round_trip_witness :
  exists r,
    @send_volume stored_codec unit no_dedup aset_1k vol_no_session 2148 gap_device []
                 "20190101-000000" false tt = Ok r
    /\ exists st,
         @receive_volume stored_codec RecvSave (vol_volsize (sr_vol r)) 1024 "zlib"
           (map (verify_line "S_20190101-000000") (sr_manifest r))
           (fst (helper_receive dest_example
                   (map (fun l => dest_path "S_20190101-000000" (snd l))
                        (sr_manifest r))))
           [None; Some 0] [] [] = Ok st
         /\ file_image (vol_volsize (sr_vol r)) (rs_savef st) = gap_device.
Proof.
  eexists. split; [vm_compute; reflexivity|].
  apply (@send_receive_round_trip stored_codec aset_1k vol_no_session 2148 gap_device
           [] "20190101-000000" _ dest_example [None; Some 0]).
  - reflexivity.
  - vm_compute. reflexivity.
  - reflexivity.
  - reflexivity.
  - reflexivity.
  - reflexivity.
  - discriminate.
  - reflexivity.
  - unfold max_address. lia.
  - intros b. cbn. discriminate.
  - intros b. reflexivity.
  - intros a _ _. cbn [zlib_compress stored_codec length as_chunksize aset_1k].
    unfold vf_read. rewrite length_firstn.
    change (1024 + 1024 / 1024) with 1025. lia.
  - vm_compute. reflexivity.
  - intros a data Ha. vm_compute in Ha.
    destruct Ha as [<- | [<- | [<- | []]]]; vm_compute;
      intros [Heq | [Heq | []]]; inversion Heq; subst; reflexivity.
  - intros a Ha. vm_compute in Ha.
    destruct Ha as [<- | [<- | [<- | []]]]; vm_compute;
      intros [Heq | [Heq | [Heq | []]]]; try discriminate Heq; reflexivity.
  - constructor; [left; reflexivity|].
    constructor; [right; vm_compute; reflexivity | constructor].
Defined.
Lemma volname_rest_spec (s : string) :
  volname_rest s = true
  <-> exists w, forallb volname_char (list_ascii_of_string w) = true
                /\ (s = w \/ s = (w ++ String "010" "")%string).
Proof.
  induction s as [|c s IH].
  - split; [|reflexivity]. intros _. exists EmptyString. split; [reflexivity | left; reflexivity].
  - cbn [volname_rest]. destruct (volname_char c) eqn:Hc.
    + rewrite IH. split.
      * intros (w & Hw & Hs). exists (String c w). cbn [list_ascii_of_string forallb].
        rewrite Hc, Hw. split; [reflexivity|].
        destruct Hs as [-> | ->]; [left | right]; reflexivity.
      * intros (w & Hw & Hs). destruct w as [|c' w].
        { destruct Hs as [Hs|Hs]; [discriminate|].
          rewrite string_app_nil in Hs. injection Hs as -> ->.
          vm_compute in Hc. discriminate. }
        exists w. cbn [list_ascii_of_string forallb] in Hw.
        apply andb_true_iff in Hw as [_ Hw]. split; [exact Hw|].
        rewrite string_app_cons in Hs.
        destruct Hs as [Hs|Hs]; injection Hs as _ ->; [left | right]; reflexivity.
    + split.
      * intros [Hn He]%andb_true_iff. apply Ascii.eqb_eq in Hn. apply String.eqb_eq in He.
        subst. exists EmptyString. split; [reflexivity | right; reflexivity].
      * intros (w & Hw & Hs). destruct w as [|c' w].
        { destruct Hs as [Hs|Hs]; [discriminate|].
          rewrite string_app_nil in Hs. injection Hs as -> ->. reflexivity. }
        cbn [list_ascii_of_string forallb] in Hw.
        apply andb_true_iff in Hw as [Hc' _]. rewrite string_app_cons in Hs.
        destruct Hs as [Hs|Hs]; injection Hs as -> _; congruence.
Qed.

(** X17: which names [add_volume] accepts.  The call returns exactly for a
    name that is not configured yet, has at most 112 characters and
    consists of one or more of the characters [a-z A-Z 0-9 + . _ -],
    followed by nothing or by one newline, which the [$] of the pattern lets
    pass; it then adds the name with the value [enable] and changes no
    other entry. *)
Theorem add_volume_accepts (volumes volumes' : gmap string string) (datavol : string) :
  add_volume volumes datavol = Ok volumes'
  <-> volumes !! datavol = None
      /\ (String.length datavol <= 112)%nat
      /\ (exists w, w <> EmptyString
                    /\ forallb volname_char (list_ascii_of_string w) = true
                    /\ (datavol = w \/ datavol = (w ++ String "010" "")%string))
      /\ volumes' = <[datavol := "enable"%string]> volumes.
Proof.
  unfold add_volume, x_it.
  assert (Hchk : volname_check datavol = true
                 <-> exists w, w <> EmptyString
                       /\ forallb volname_char (list_ascii_of_string w) = true
                       /\ (datavol = w \/ datavol = (w ++ String "010" "")%string)).
  { unfold volname_check. destruct datavol as [|c s].
    - split; [discriminate|]. intros (w & Hne & _ & Hs).
      destruct w as [|c w]; [congruence|]. rewrite string_app_cons in Hs.
      destruct Hs; discriminate.
    - rewrite andb_true_iff, volname_rest_spec. split.
      + intros (Hc & w & Hw & Hs). exists (String c w).
        split; [discriminate|]. cbn [list_ascii_of_string forallb]. rewrite Hc, Hw.
        split; [reflexivity|]. rewrite string_app_cons.
        destruct Hs as [-> | ->]; [left | right]; reflexivity.
      + intros (w & Hne & Hw & Hs). destruct w as [|c' w]; [congruence|].
        cbn [list_ascii_of_string forallb] in Hw. apply andb_true_iff in Hw as [Hc Hw].
        rewrite string_app_cons in Hs.
        assert (c = c' /\ (s = w \/ s = (w ++ String "010" "")%string)) as [-> Hs'].
        { destruct Hs as [Hs|Hs]; injection Hs as -> ->; split; auto. }
        split; [exact Hc|]. exists w. split; assumption. }
  destruct (bool_decide_reflect (is_Some (volumes !! datavol))) as [Hs|Hn].
  { split; [discriminate|]. intros (Hnone & _). rewrite Hnone in Hs.
    destruct Hs; discriminate. }
  assert (Hnone : volumes !! datavol = None).
  { destruct (volumes !! datavol) eqn:E; [exfalso; apply Hn; eauto | reflexivity]. }
  destruct (volname_check datavol) eqn:Hv; cbn [negb].
  - destruct (Nat.ltb_spec 112 (String.length datavol)).
    + split; [discriminate|]. intros (_ & Hl & _). lia.
    + split.
      * intros [= <-]. split; [exact Hnone|]. split; [lia|].
        split; [apply Hchk; reflexivity | reflexivity].
      * intros (_ & _ & _ & ->). reflexivity.
  - split; [discriminate|]. intros (_ & _ & Hw & _).
    apply Hchk in Hw. discriminate.
Qed.
Lemma list_del_keeps `{EqDecision A} (x y : A) (l : list A) (i : nat) :
  x ∈ l -> x <> y -> py_list_index y l = Some i -> x ∈ list_del l i.
Proof.
  intros Hx Hne Hi.
  apply py_list_index_split in Hi as (pre & post & -> & <- & _).
  rewrite list_del_app.
  apply elem_of_app in Hx as [Hx|Hx]; apply elem_of_app; [left; exact Hx|].
  apply elem_of_cons in Hx as [->|Hx]; [contradiction | right; exact Hx].
Qed.

Lemma delete_sessions_total (sources : list string) :
  forall (st : pstate) (pre post : list string) (target : string),
    well_linked (ps_vol st) ->
    vol_sesnames (ps_vol st) = pre ++ sources ++ target :: post ->
    (forall s, s ∈ sources -> (vol_name (ps_vol st), s) ∈ ps_allsessions st) ->
    exists st', delete_sessions st sources = (st', Ok tt).
Proof.
  induction sources as [|s rest IH]; intros st pre post target Hw Hn Hall;
    [cbn; eauto|].
  pose proof Hw as (Hnd & _ & _ & _ & _ & Hlast).
  assert (Hin : s ∈ vol_sesnames (ps_vol st)).
  { rewrite Hn. apply elem_of_app. right. left. }
  assert (Hnl : vol_last (ps_vol st) <> Some s).
  { rewrite Hlast, Hn. intros Hl.
    rewrite (app_assoc pre), last_app_cons in Hl. rewrite Hn in Hnd.
    change (pre ++ (s :: rest) ++ target :: post)
      with (pre ++ s :: (rest ++ target :: post)) in Hnd.
    apply NoDup_app in Hnd as (_ & _ & Hnd). apply NoDup_cons in Hnd as [Hnd _].
    apply Hnd. apply elem_of_app. right.
    apply last_Some_elem_of. exact Hl. }
  destruct (delete_session_total st s Hw Hin Hnl (Hall s ltac:(left)))
    as (st1 & affected & Hd).
  cbn [delete_sessions]. rewrite Hd.
  destruct (delete_session_linked _ _ _ _ Hw Hd)
    as (Hw1 & pre' & post' & Hn1 & Hn1' & _).
  assert (Hsplit : pre = pre' /\ rest ++ target :: post = affected :: post').
  { apply (NoDup_split_unique s).
    - rewrite Hn in Hnd. exact Hnd.
    - rewrite <- Hn1, Hn. reflexivity. }
  destruct Hsplit as [<- Hrest].
  apply (IH st1 pre post target Hw1).
  - rewrite Hn1', <- Hrest. reflexivity.
  - intros s' Hs'.
    apply delete_session_Ok in Hd
      as (ses & aff & index & i & _ & _ & _ & _ & _ & Hi & ->).
    cbn [ps_vol ps_allsessions vol_name].
    apply (list_del_keeps _ (vol_name (ps_vol st), s)); [| |exact Hi].
    + apply Hall. right. exact Hs'.
    + intros [= ->]. rewrite Hn in Hnd.
      apply NoDup_app in Hnd as (_ & _ & Hnd). apply NoDup_cons in Hnd as [Hnd _].
      apply Hnd. apply elem_of_app. left. exact Hs'.
Qed.

Lemma merge_sessions_total (st : pstate) (sources pre post : list string)
    (target : string) :
  well_linked (ps_vol st) ->
  vol_sesnames (ps_vol st) = pre ++ sources ++ target :: post ->
  sources <> [] ->
  (forall s, s ∈ sources -> (vol_name (ps_vol st), s) ∈ ps_allsessions st) ->
  (forall s ses, vol_sessions (ps_vol st) !! s = Some ses ->
                 ses_format ses <> "tar"%string) ->
  exists st', merge_sessions st sources target = (st', Ok tt).
Proof.
  intros Hw Hn Hne Hall Htar.
  pose proof Hw as (_ & _ & Hch & _).
  unfold merge_sessions.
  assert (Hf : forall l, (forall s, s ∈ l -> s ∈ vol_sesnames (ps_vol st)) ->
            ofold (fun (_ : unit) ses =>
                     match vol_sessions (ps_vol st) !! ses with
                     | None => Raise (KeyError ses)
                     | Some s =>
                         if String.eqb (ses_format s) "tar"
                         then x_it 1 "Cannot merge range containing tarfile session."
                         else Ok tt
                     end) l tt = Ok tt).
  { induction l as [|x l IHl]; intros Hl; [reflexivity|]. cbn [ofold].
    destruct (chain_keys _ _ _ x Hch (Hl x ltac:(left))) as [sx Hsx]. rewrite Hsx.
    destruct (String.eqb_spec (ses_format sx) "tar") as [He|_];
      [exfalso; exact (Htar _ _ Hsx He)|].
    cbn [obind]. apply IHl. intros s Hs. apply Hl. right. exact Hs. }
  rewrite Hf.
  2:{ intros s Hs. rewrite Hn. apply elem_of_app. right.
      apply elem_of_app in Hs as [Hs|Hs].
      - apply elem_of_app. left. exact Hs.
      - apply elem_of_app. right. apply list_elem_of_singleton in Hs as ->. left. }
  destruct sources as [|m rest]; [congruence|].
  match goal with
  | |- context [delete_sessions ?s ?l] =>
      destruct (delete_sessions_total l s pre post target Hw Hn Hall) as [st2 Hd];
      pose proof (delete_sessions_linked l s st2 pre post target Hw Hn Hd)
        as (Hw2 & Hn2 & _);
      rewrite Hd
  end.
  destruct Hw2 as (_ & _ & Hch2 & _).
  destruct (chain_keys _ _ _ target Hch2) as [t Ht].
  { rewrite Hn2. apply elem_of_app. right. left. }
  rewrite Ht. eauto.
Qed.
Lemma str_lt_le (a b : string) : str_lt a b = true -> str_le a b = true.
Proof.
  unfold str_lt, str_le, String.ltb, String.leb.
  destruct (String.compare a b); congruence.
Qed.

Lemma str_lt_not_ge (a b : string) : str_lt a b = true -> str_le b a = false.
Proof.
  unfold str_lt, str_le, String.ltb, String.leb.
  rewrite (String.compare_antisym a b).
  destruct (String.compare b a); cbn; congruence.
Qed.

Lemma str_le_refl (a : string) : str_le a a = true.
Proof.
  unfold str_le, String.leb.
  pose proof (String.compare_antisym a a) as Ha.
  destruct (String.compare a a); cbn in Ha; congruence.
Qed.

Lemma all_before_lt (t1 : string) (l : list string) (x : string) :
  x ∈ all_before t1 l -> str_le t1 x = false.
Proof.
  induction l as [|s l IH]; cbn; [intros Hx; inversion Hx|].
  destruct (str_le t1 s) eqn:Hs; [intros Hx; inversion Hx|].
  intros [-> | Hx]%elem_of_cons; [exact Hs | apply IH; exact Hx].
Qed.

Lemma py_slice_infix_len {A} (l : list A) (a b : nat) :
  exists pre post,
    l = pre ++ py_slice l (Z.of_nat a) (Z.of_nat b) ++ post
    /\ (py_slice l (Z.of_nat a) (Z.of_nat b) <> [] ->
        (length pre + length (py_slice l (Z.of_nat a) (Z.of_nat b)) <= b)%nat).
Proof.
  unfold py_slice, py_clamp.
  destruct (Z.ltb_spec (Z.of_nat a) 0); [lia|].
  destruct (Z.ltb_spec (Z.of_nat b) 0); [lia|].
  set (a' := Z.to_nat (Z.min (Z.of_nat a) (Z.of_nat (length l)))).
  set (n := Z.to_nat _).
  exists (take a' l), (drop n (drop a' l)).
  split; [rewrite (take_drop n (drop a' l)), take_drop; reflexivity|].
  intros Hne. rewrite !length_take, length_drop.
  destruct (Nat.eq_dec n 0%nat) as [Hn|Hn]; [rewrite Hn in Hne; contradiction|].
  unfold n, a' in *. lia.
Qed.

Lemma py_list_index_not_last `{EqDecision A} (x newest : A) (l : list A) (j : nat) :
  py_list_index x l = Some j -> last l = Some newest -> x <> newest ->
  (S j < length l)%nat.
Proof.
  intros Hj Hl Hne.
  apply py_list_index_split in Hj as (p & q & -> & <- & _).
  rewrite length_app. cbn [length].
  destruct q as [|y q]; [|cbn [length]; lia].
  rewrite last_snoc in Hl. congruence.
Qed.
(** X18: on a consistent archive a prune does not fail.  Take a
    well-linked volume whose sessions are all in the master list and none
    of which is a tarfile session, one date-time or two with the second
    later than the first, all of the accepted form, and a run that is
    unattended or confirmed.  Then [prune_sessions] returns through one of
    its four ways out: nothing to prune, the most recent session named, no
    session in the range, or the range merged into the session after it. *)
Theorem prune_sessions_returns `{DateTime} (opts : prune_options) (st : pstate)
    (times : list string) :
  well_linked (ps_vol st) ->
  (forall s, s ∈ vol_sesnames (ps_vol st) ->
             (vol_name (ps_vol st), s) ∈ ps_allsessions st) ->
  (forall s ses, vol_sessions (ps_vol st) !! s = Some ses ->
                 ses_format ses <> "tar"%string) ->
  times <> [] -> forallb strptime_ok times = true ->
  (forall time0 time1 more, times = time0 :: time1 :: more ->
     str_lt ("S_" ++ strip time0) ("S_" ++ strip time1) = true) ->
  po_unattended opts = true
  \/ str_lower (po_answer opts) ∈ ["y"%string; "yes"%string] ->
  exists st' status, prune_sessions opts st times = (st', Ok status).
Proof.
  intros Hw Hall Htar Hne Hvalid Hord Hconf.
  pose proof Hw as (Hnd & _).
  unfold prune_sessions. rewrite Hvalid. cbn [negb].
  destruct times as [|time0 more]; [congruence|].
  set (t1 := ("S_" ++ strip time0)%string).
  match goal with
  | |- context [match ?x with Ok t2 => _ | Raise e => _ end] =>
      assert (Ht2 : exists t2, x = Ok t2)
  end.
  { destruct more as [|time1 more']; [eauto|]. cbn zeta.
    pose proof (str_lt_not_ge _ _ (Hord _ _ _ eq_refl)) as Ho. fold t1 in Ho.
    rewrite Ho. eauto. }
  destruct Ht2 as [t2 ->].
  set (sessions := vol_sesnames (ps_vol st)) in *.
  destruct (py_last sessions) as [newest|] eqn:Hnew; [|eauto].
  unfold py_last in Hnew.
  destruct (length sessions <? 2)%nat; [eauto|].
  destruct (str_le newest t1) eqn:Hle1; [cbn [orb]; eauto|]. cbn [orb].
  destruct (str_le newest t2) eqn:Hle2; [eauto|].
  (* the sessions to prune are a run that ends before the newest one *)
  match goal with
  | |- context [match ?x with Ok t => _ | Raise e => _ end] =>
      assert (Hsplit : exists tp pre post,
                x = Ok tp /\ sessions = pre ++ tp ++ post /\ (tp <> [] -> post <> []))
  end.
  { destruct (po_allbefore opts).
    { destruct (all_before_prefix t1 sessions) as [post Hp].
      exists (all_before t1 sessions), [], post.
      split; [reflexivity|]. split; [exact Hp|].
      intros _ ->. rewrite app_nil_r in Hp.
      apply last_Some_elem_of in Hnew. rewrite Hp in Hnew.
      apply all_before_lt in Hnew.
      rewrite (str_lt_le _ _ (str_le_false_lt _ _ Hle1)) in Hnew. discriminate. }
    destruct (String.eqb t2 "").
    { case_bool_decide as Hin.
      - apply list_elem_of_split in Hin as (pre & post & Hin).
        exists [t1], pre, post. split; [reflexivity|]. split; [exact Hin|].
        intros _ ->. rewrite Hin in Hnew. cbn [app] in Hnew.
        rewrite last_snoc in Hnew. injection Hnew as <-.
        rewrite str_le_refl in Hle1. discriminate.
      - exists [], [], sessions. split; [reflexivity|]. split; [reflexivity|].
        congruence. }
    assert (Hstart : exists a,
              (if bool_decide (t1 ∈ sessions) then py_list_index t1 sessions
               else match List.find (fun ses => str_lt t1 ses) sessions with
                    | Some ses => py_list_index ses sessions
                    | None => None
                    end) = Some a).
    { case_bool_decide as Hin.
      - apply py_list_index_elem. exact Hin.
      - destruct (List.find _ sessions) as [ses|] eqn:Hf.
        + apply find_some in Hf as [Hs _]. apply list_elem_of_In in Hs.
          apply py_list_index_elem. exact Hs.
        + exfalso. apply last_Some_elem_of in Hnew. apply list_elem_of_In in Hnew.
          pose proof (find_none _ _ Hf _ Hnew) as Hn. cbn in Hn.
          rewrite (str_le_false_lt _ _ Hle1) in Hn. discriminate. }
    destruct Hstart as [a ->].
    assert (Hend : exists b,
              (if bool_decide (t2 ∈ sessions)
               then option_map S (py_list_index t2 sessions)
               else match List.find (fun ses => str_lt ses t2) (rev sessions) with
                    | Some ses => option_map S (py_list_index ses sessions)
                    | None => Some 0%nat
                    end) = Some b /\ (b < length sessions)%nat).
    { assert (Hidx : forall x, x ∈ sessions -> x <> newest ->
                exists b, option_map S (py_list_index x sessions) = Some b
                          /\ (b < length sessions)%nat).
      { intros x Hx Hxn. destruct (py_list_index_elem _ _ Hx) as [j Hj].
        rewrite Hj. exists (S j). split; [reflexivity|].
        apply (py_list_index_not_last x newest); assumption. }
      case_bool_decide as Hin.
      - apply Hidx; [exact Hin|]. intros ->.
        rewrite str_le_refl in Hle2. discriminate.
      - destruct (List.find _ (rev sessions)) as [ses|] eqn:Hf.
        + apply find_some in Hf as [Hs Hlt]. apply in_rev in Hs.
          apply list_elem_of_In in Hs. apply Hidx; [exact Hs|]. intros ->.
          rewrite (str_lt_le _ _ Hlt) in Hle2. discriminate.
        + exists 0%nat. split; [reflexivity|].
          apply last_Some in Hnew as [l' ->]. rewrite length_app. cbn. lia. }
    destruct Hend as (b & -> & Hb).
    destruct (py_slice_infix_len sessions a b) as (pre & post & Hs & Hlen).
    exists (py_slice sessions (Z.of_nat a) (Z.of_nat b)), pre, post.
    split; [reflexivity|]. split; [exact Hs|].
    intros Htp ->. specialize (Hlen Htp).
    apply (f_equal (@length string)) in Hs.
    rewrite !length_app in Hs. cbn [length] in Hs. lia. }
  destruct Hsplit as (tp & pre & post0 & -> & Hn & Hpost).
  unfold py_last.
  destruct (last tp) as [lastp|] eqn:Hlast; [|eauto].
  assert (Htpne : tp <> []) by (intros ->; discriminate).
  destruct post0 as [|target post]; [exfalso; apply (Hpost Htpne); reflexivity|].
  assert (Hi : py_list_index lastp sessions = Some (length pre + length tp - 1)%nat
               /\ sessions !! S (length pre + length tp - 1)%nat = Some target).
  { apply last_Some in Hlast as [tp' ->].
    rewrite Hn in Hnd |- *.
    replace (pre ++ (tp' ++ [lastp]) ++ target :: post)
      with ((pre ++ tp') ++ lastp :: target :: post) in Hnd |- *
      by (rewrite <- !app_assoc; reflexivity).
    rewrite length_app. cbn [length].
    replace (length pre + (length tp' + 1) - 1)%nat with (length (pre ++ tp'))
      by (rewrite length_app; lia).
    split.
    - apply py_list_index_app.
      apply NoDup_app in Hnd as (_ & Hnd & _). intros Hin. apply (Hnd _ Hin). left.
    - rewrite lookup_app_r by lia.
      replace (S (length (pre ++ tp')) - length (pre ++ tp'))%nat with 1%nat by lia.
      reflexivity. }
  destruct Hi as [-> ->].
  replace (negb (po_unattended opts) && (1 <? length tp)%nat
           && negb (bool_decide (str_lower (po_answer opts)
                                 ∈ ["y"%string; "yes"%string]))) with false.
  2:{ destruct Hconf as [-> | Hy]; [reflexivity|].
      rewrite (bool_decide_eq_true_2 _ Hy), andb_false_r. reflexivity. }
  destruct (merge_sessions_total st tp pre post target Hw Hn Htpne) as [st' ->].
  - intros s Hs. apply Hall. fold sessions. rewrite Hn.
    apply elem_of_app. right. apply elem_of_app. left. exact Hs.
  - exact Htar.
  - eauto.
Qed.

Lemma prune_sessions_returns_witness :
  exists st' status,
    @prune_sessions length15_datetime (mkPruneOptions false true "") pstate_example
                    ["20190101-000000"; "20190102-000000"]%string = (st', Ok status).
Proof.
  apply (@prune_sessions_returns length15_datetime (mkPruneOptions false true "")
           pstate_example ["20190101-000000"; "20190102-000000"]%string).
  - exact vol_example_linked.
  - intros s Hs. cbn in Hs |- *.
    repeat (apply elem_of_cons in Hs as [-> | Hs]; [list_in|]).
    inversion Hs.
  - intros s ses Hs. cbn in Hs.
    repeat (apply lookup_insert_Some in Hs as [[_ <-] | [_ Hs]]; [vm_compute; discriminate|]).
    rewrite lookup_empty in Hs. discriminate.
  - discriminate.
  - vm_compute. reflexivity.
  - intros time0 time1 more [= <- <- <-]. vm_compute. reflexivity.
  - left. reflexivity.
Defined.
Lemma receive_chunk_diff `{Codec} (env : recv_env) (st : recv_state)
    (remap : bool) (vf cmp : bytes) (level : Z) (ses : string) (addr : Z)
    (mfrest : list (list string)) (srest : bytes) :
  let volsize := re_volsize env in
  let chunksize := re_chunksize env in
  re_mode env = RecvDiff remap -> re_compression env = "zlib"%string ->
  re_zeros env = repeat 0 (Z.to_nat chunksize) ->
  re_lchunk_addr env = last_chunk_addr volsize chunksize ->
  0 < chunksize -> Z.of_nat (length vf) = volsize ->
  chunksize + chunksize / 1024 < 2 ^ 32 ->
  In addr (py_range 0 volsize chunksize) ->
  (forall b, zlib_decompress (zlib_compress b level) decomp_bits chunksize = Some b) ->
  (zero_skipped vf volsize chunksize addr = false ->
   1 <= Z.of_nat (length (zlib_compress (vf_read vf addr chunksize) level))
     <= chunksize + chunksize / 1024) ->
  rs_mf st = verify_line ses (manifest_line vf volsize chunksize level addr) :: mfrest ->
  rs_stream st = helper_chunk vf volsize chunksize level addr ++ srest ->
  rs_cmpf st = skipn (Z.to_nat addr) cmp ->
  (remap = true -> addr / chunksize / 8 < Z.of_nat (length (rs_bmap st))) ->
  Forall okpoll (rs_polls st) ->
  exists st',
    receive_chunk env st addr = Ok (st', Continue)
    /\ rs_mf st' = mfrest /\ rs_stream st' = srest
    /\ Forall okpoll (rs_polls st')
    /\ rs_cmpf st' = skipn (Z.to_nat (addr + chunksize)) cmp
    /\ rs_diff_count st'
       = rs_diff_count st + diff_bytes vf cmp chunksize [addr]
    /\ length (rs_bmap st') = length (rs_bmap st)
    /\ (forall j, 0 <= j ->
          chunk_bit (rs_bmap st') j
          = chunk_bit (rs_bmap st) j
            || (remap && (j =? addr / chunksize)
                && negb (bool_decide (vf_read vf addr chunksize
                                      = vf_read cmp addr chunksize))))
    /\ rs_addr st' = Some addr
    /\ (zero_skipped vf volsize chunksize addr = false ->
        (exists p, rs_rc st' = Some p /\ okpoll p)
        /\ rs_buf st' = Some (vf_read vf addr chunksize)).
Proof.
  intros volsize chunksize Hmode Hcomp Hzeros Hlc Hc Hlen Hlim Hin Hinv Hsz Hmf Hs Hcmp
         Hmap Hpolls.
  destruct (range_addr_le_last volsize chunksize addr Hc Hin) as (Ha & Hm & Hle).
  pose proof (last_chunk_addr_bounds volsize chunksize Hc) as [Hb Hlm].
  assert (Hdc : forall dbuf,
            exists bmap',
              diff_compare env remap addr (rs_cmpf st) (rs_bmap st) dbuf
              = Ok (skipn (Z.to_nat (addr + chunksize)) cmp, bmap',
                    if bool_decide (dbuf = vf_read cmp addr chunksize) then 0
                    else Z.of_nat (length dbuf))
              /\ length bmap' = length (rs_bmap st)
              /\ forall j, 0 <= j ->
                   chunk_bit bmap' j
                   = chunk_bit (rs_bmap st) j
                     || (remap && (j =? addr / chunksize)
                         && negb (bool_decide (dbuf = vf_read cmp addr chunksize)))).
  { intros dbuf. unfold diff_compare. fold chunksize. rewrite Hcmp.
    fold (vf_read cmp addr chunksize). rewrite drop_drop.
    replace (Z.to_nat addr + Z.to_nat chunksize)%nat
      with (Z.to_nat (addr + chunksize)) by lia.
    destruct (bool_decide (dbuf = vf_read cmp addr chunksize)); cbn [negb].
    - exists (rs_bmap st). split; [reflexivity|]. split; [reflexivity|].
      intros j _. rewrite andb_false_r, orb_false_r. reflexivity.
    - destruct remap.
      + assert (Hq : 0 <= addr / chunksize) by (apply Z.div_pos; lia).
        assert (Hq8 : 0 <= addr / chunksize / 8) by (apply Z.div_pos; lia).
        destruct (mm_or_in_range (rs_bmap st) (addr / chunksize / 8)
                    (Z.shiftl 1 (addr / chunksize mod 8)))
          as (x & Hx & ->); [split; [exact Hq8 | apply Hmap; reflexivity]|].
        cbn [obind]. eexists. split; [reflexivity|].
        split; [apply length_insert|].
        intros j Hj. rewrite (chunk_bit_insert _ _ _ _ _ Hj Hx).
        rewrite Z2Nat.id by exact Hq8.
        rewrite (bit_of_segment j (addr / chunksize) Hj Hq).
        cbn [andb]. rewrite andb_true_r. reflexivity.
      + cbn [obind]. exists (rs_bmap st). split; [reflexivity|].
        split; [reflexivity|]. intros j _. rewrite orb_false_r. reflexivity. }
  unfold receive_chunk. rewrite Hmf, Hs. fold chunksize.
  unfold verify_line, manifest_line, helper_chunk, diff_bytes. cbn [fold_right].
  rewrite Z.add_0_r.
  destruct (zero_skipped vf volsize chunksize addr) eqn:Hz; cbn [fst snd].
  - unfold destfile_of. rewrite String.eqb_refl. cbn [negb].
    destruct (int_from_to_bytes4 0 srest ltac:(lia)) as [-> ->].
    replace (String.eqb (strip "0") "0") with true by (vm_compute; reflexivity).
    cbn [Z.eqb negb]. rewrite Hmode.
    assert (Hzr : re_zeros env = vf_read vf addr chunksize).
    { rewrite Hzeros. symmetry.
      pose proof (zero_test vf volsize chunksize addr Hc Hlen Hin) as Hzt.
      rewrite Hz in Hzt. apply andb_true_iff in Hzt as [Hzt _].
      apply bool_decide_eq_true in Hzt. exact Hzt. }
    rewrite Hzr.
    destruct (Hdc (vf_read vf addr chunksize)) as (bmap' & -> & Hbl & Hbb).
    cbn [obind].
    eexists. split; [reflexivity|]. cbn.
    split; [reflexivity|]. split; [reflexivity|]. split; [exact Hpolls|].
    split; [reflexivity|]. split; [reflexivity|]. split; [exact Hbl|].
    split; [exact Hbb|]. split; [reflexivity|].
    intros Hd; discriminate.
  - specialize (Hsz eq_refl).
    set (d := zlib_compress (vf_read vf addr chunksize) level) in *.
    unfold destfile_of. rewrite String.eqb_refl. cbn [negb].
    rewrite <- app_assoc.
    destruct (int_from_to_bytes4 (Z.of_nat (length d)) (d ++ srest) ltac:(lia)) as [-> ->].
    unfold sha256_hexdigest at 1. rewrite strip_hexlify_not_zero.
    destruct (Z.gtb_spec (Z.of_nat (length d)) (chunksize + chunksize / 1024)); [lia|].
    destruct (Z.ltb_spec (Z.of_nat (length d)) 1); [lia|].
    cbn [orb]. rewrite Nat2Z.id, take_app_length, drop_app_length.
    destruct (Nat.eqb_spec (length d) 0); [lia|]. rewrite andb_false_r.
    rewrite Z.eqb_refl. cbn [negb]. rewrite String.eqb_refl. cbn [negb].
    rewrite Hcomp. cbn [String.eqb Ascii.eqb Bool.eqb orb negb].
    pose proof (Hinv (vf_read vf addr chunksize)) as Hd. fold d in Hd.
    rewrite Hd. cbn [obind].
    assert (Hvl : Z.of_nat (length (vf_read vf addr chunksize))
                  = if addr =? last_chunk_addr volsize chunksize
                    then volsize - last_chunk_addr volsize chunksize else chunksize).
    { unfold vf_read. rewrite length_firstn, length_skipn.
      destruct (Z.eqb_spec addr (last_chunk_addr volsize chunksize)) as [->|Hne]; [lia|].
      assert (addr + chunksize <= last_chunk_addr volsize chunksize); [|lia].
      pose proof (Z.div_mod addr chunksize ltac:(lia)).
      pose proof (Z.div_mod (last_chunk_addr volsize chunksize) chunksize ltac:(lia)).
      assert (addr / chunksize < last_chunk_addr volsize chunksize / chunksize); [|nia].
      apply Z.div_lt_upper_bound; [lia|]. nia. }
    assert (Hp' : Forall okpoll (match rs_polls st with [] => [] | _ :: p => p end)).
    { destruct (rs_polls st); [constructor | inversion Hpolls; assumption]. }
    assert (Hr' : okpoll (match rs_polls st with [] => None | r :: _ => r end)).
    { destruct (rs_polls st); [left; reflexivity | inversion Hpolls; assumption]. }
    destruct (Hdc (vf_read vf addr chunksize)) as (bmap' & Hdc' & Hbl & Hbb).
    rewrite Hlc. fold volsize.
    replace (negb (Z.of_nat (length (vf_read vf addr chunksize)) =? chunksize)
             && (addr <? last_chunk_addr volsize chunksize)) with false.
    2:{ rewrite Hvl.
        destruct (Z.eqb_spec addr (last_chunk_addr volsize chunksize)) as [He|Hne].
        - replace (addr <? last_chunk_addr volsize chunksize) with false
            by (symmetry; apply Z.ltb_ge; lia).
          rewrite andb_false_r. reflexivity.
        - rewrite Z.eqb_refl. reflexivity. }
    replace ((addr =? last_chunk_addr volsize chunksize)
             && negb (Z.of_nat (length (vf_read vf addr chunksize))
                      =? volsize - last_chunk_addr volsize chunksize)) with false.
    2:{ rewrite Hvl.
        destruct (Z.eqb_spec addr (last_chunk_addr volsize chunksize)) as [He|Hne];
          [rewrite Z.eqb_refl|]; reflexivity. }
    rewrite Hmode, Hdc'. cbn [obind].
    eexists. split; [reflexivity|]. cbn.
    split; [reflexivity|]. split; [reflexivity|]. split; [exact Hp'|].
    split; [reflexivity|]. split; [reflexivity|]. split; [exact Hbl|].
    split; [exact Hbb|]. split; [reflexivity|].
    intros _. split; [|reflexivity]. eexists. split; [reflexivity | exact Hr'].
Qed.
Lemma diff_bytes_app (vf cmp : bytes) (chunksize : Z) (l1 l2 : list Z) :
  diff_bytes vf cmp chunksize (l1 ++ l2)
  = diff_bytes vf cmp chunksize l1 + diff_bytes vf cmp chunksize l2.
Proof.
  induction l1 as [|a l1 IH]; [reflexivity|].
  cbn [app]. unfold diff_bytes in *. cbn [fold_right]. rewrite IH. lia.
Qed.

Lemma diff_bytes_nonneg (vf cmp : bytes) (chunksize : Z) (l : list Z) :
  0 <= diff_bytes vf cmp chunksize l.
Proof.
  induction l as [|a l IH]; [reflexivity|].
  unfold diff_bytes in *. cbn [fold_right].
  destruct (bool_decide _); lia.
Qed.

Lemma diff_bytes_zero (vf cmp : bytes) (chunksize : Z) (n : nat) :
  0 < chunksize -> length vf = length cmp ->
  diff_bytes vf cmp chunksize
    (map (fun i : nat => 0 + Z.of_nat i * chunksize) (seq 0 n)) = 0
  <-> firstn (n * Z.to_nat chunksize) vf = firstn (n * Z.to_nat chunksize) cmp.
Proof.
  intros Hc Hlen. induction n as [|n IH]; [split; reflexivity|].
  rewrite seq_S, map_app, diff_bytes_app. cbn [Nat.add map].
  pose proof (diff_bytes_nonneg vf cmp chunksize
                (map (fun i : nat => 0 + Z.of_nat i * chunksize) (seq 0 n))) as Hn.
  pose proof (diff_bytes_nonneg vf cmp chunksize [0 + Z.of_nat n * chunksize]) as Hn1.
  set (c := Z.to_nat chunksize) in *.
  replace (S n * c)%nat with (n * c + c)%nat by lia.
  rewrite <- !take_take_drop.
  assert (Hr : forall l : bytes,
            vf_read l (0 + Z.of_nat n * chunksize) chunksize
            = firstn c (skipn (n * c) l)).
  { intros l. unfold vf_read. fold c. f_equal. f_equal. unfold c. nia. }
  assert (Hterm : diff_bytes vf cmp chunksize [0 + Z.of_nat n * chunksize] = 0
                  <-> firstn c (skipn (n * c) vf) = firstn c (skipn (n * c) cmp)).
  { unfold diff_bytes. cbn [fold_right]. rewrite !Hr.
    case_bool_decide as He; [split; [intros _; exact He | intros _; reflexivity]|].
    split; [|contradiction]. intros H0.
    assert (Hl0 : length (firstn c (skipn (n * c) vf)) = 0%nat) by lia.
    assert (Hl1 : length (firstn c (skipn (n * c) cmp)) = 0%nat).
    { rewrite length_firstn, length_skipn in Hl0 |- *. lia. }
    apply length_zero_iff_nil in Hl0, Hl1. congruence. }
  split.
  - intros Hsum.
    assert (H1 : diff_bytes vf cmp chunksize
                   (map (fun i : nat => 0 + Z.of_nat i * chunksize) (seq 0 n)) = 0) by lia.
    assert (H2 : diff_bytes vf cmp chunksize [0 + Z.of_nat n * chunksize] = 0) by lia.
    apply IH in H1. apply Hterm in H2. rewrite H1, H2. reflexivity.
  - intros Heq. apply app_inj_1 in Heq as [H1 H2].
    + apply IH in H1. apply Hterm in H2. lia.
    + rewrite !length_firstn. lia.
Qed.

Lemma receive_loop_diff `{Codec} (env : recv_env) (remap : bool) (vf cmp : bytes)
    (level : Z) (ses : string) (cnt : nat) :
  let volsize := re_volsize env in
  let chunksize := re_chunksize env in
  let addr_of := fun i : nat => 0 + Z.of_nat i * chunksize in
  re_mode env = RecvDiff remap -> re_compression env = "zlib"%string ->
  re_zeros env = repeat 0 (Z.to_nat chunksize) ->
  re_lchunk_addr env = last_chunk_addr volsize chunksize ->
  0 < chunksize -> Z.of_nat (length vf) = volsize ->
  chunksize + chunksize / 1024 < 2 ^ 32 ->
  (forall b, zlib_decompress (zlib_compress b level) decomp_bits chunksize = Some b) ->
  (forall a, In a (py_range 0 volsize chunksize) ->
     zero_skipped vf volsize chunksize a = false ->
     1 <= Z.of_nat (length (zlib_compress (vf_read vf a chunksize) level))
       <= chunksize + chunksize / 1024) ->
  forall (s : nat) (st : recv_state) (mfrest : list (list string)) (srest : bytes),
    Z.of_nat (s + cnt) * chunksize <= last_chunk_addr volsize chunksize ->
    rs_mf st
    = map (fun a => verify_line ses (manifest_line vf volsize chunksize level a))
          (map addr_of (seq s cnt)) ++ mfrest ->
    rs_stream st
    = concat (map (helper_chunk vf volsize chunksize level) (map addr_of (seq s cnt)))
      ++ srest ->
    rs_cmpf st = skipn (Z.to_nat (addr_of s)) cmp ->
    (remap = true -> volsize / chunksize / 8 < Z.of_nat (length (rs_bmap st))) ->
    Forall okpoll (rs_polls st) ->
    exists st',
      (forall rest, receive_loop env st (map addr_of (seq s cnt) ++ rest)
                    = receive_loop env st' rest)
      /\ rs_mf st' = mfrest /\ rs_stream st' = srest
      /\ Forall okpoll (rs_polls st')
      /\ rs_cmpf st' = skipn (Z.to_nat (addr_of (s + cnt)%nat)) cmp
      /\ rs_diff_count st'
         = rs_diff_count st + diff_bytes vf cmp chunksize (map addr_of (seq s cnt))
      /\ length (rs_bmap st') = length (rs_bmap st)
      /\ (forall j, 0 <= j ->
            chunk_bit (rs_bmap st') j
            = chunk_bit (rs_bmap st) j
              || (remap && (Z.of_nat s <=? j) && (j <? Z.of_nat (s + cnt))
                  && negb (bool_decide (vf_read vf (j * chunksize) chunksize
                                        = vf_read cmp (j * chunksize) chunksize)))).
Proof.
  intros volsize chunksize addr_of Hmode Hcomp Hzeros Hlc Hc Hlen Hlim Hinv Hsz.
  pose proof (last_chunk_addr_bounds volsize chunksize Hc) as [Hb Hlm].
  induction cnt as [|cnt IH]; intros s st mfrest srest Hle Hmf Hs Hcmp Hmap Hpolls.
  - exists st. cbn in *. rewrite Nat.add_0_r, Z.add_0_r.
    repeat split; try assumption.
    intros j Hj. destruct (Z.leb_spec (Z.of_nat s) j), (Z.ltb_spec j (Z.of_nat s));
      try lia; rewrite ?andb_false_r, ?andb_false_l, orb_false_r; reflexivity.
  - cbn [seq map concat] in *. rewrite <- app_assoc in Hs.
    assert (Hin : In (addr_of s) (py_range 0 volsize chunksize)).
    { apply py_range_In; [exact Hc|]. unfold addr_of.
      rewrite Z.add_0_l, Z.mod_mul by lia. split; [|reflexivity]. nia. }
    assert (Hq : addr_of s / chunksize = Z.of_nat s).
    { unfold addr_of. rewrite Z.add_0_l. apply Z.div_mul. lia. }
    assert (Hmap1 : remap = true
                    -> addr_of s / chunksize / 8 < Z.of_nat (length (rs_bmap st))).
    { intros Hr. specialize (Hmap Hr).
      assert (addr_of s / chunksize / 8 <= volsize / chunksize / 8); [|lia].
      apply Z.div_le_mono; [lia|]. apply Z.div_le_mono; [lia|].
      apply (py_range_In volsize chunksize _ Hc) in Hin. lia. }
    destruct (receive_chunk_diff env st remap vf cmp level ses (addr_of s) _ _
                Hmode Hcomp Hzeros Hlc Hc Hlen Hlim Hin Hinv (Hsz _ Hin) Hmf Hs Hcmp
                Hmap1 Hpolls)
      as (st1 & Hc1 & Hmf1 & Hs1 & Hp1 & Hcmp1 & Hd1 & Hbl1 & Hbb1 & _).
    destruct (IH (S s) st1 mfrest srest)
      as (st' & Hl & Hmf' & Hs' & Hp' & Hcmp' & Hd' & Hbl' & Hbb').
    + lia.
    + exact Hmf1.
    + exact Hs1.
    + rewrite Hcmp1. f_equal. f_equal. unfold addr_of, chunksize. nia.
    + rewrite Hbl1. exact Hmap.
    + exact Hp1.
    + exists st'. split.
      { intros rest. cbn [app receive_loop]. rewrite Hc1. cbn [obind]. apply Hl. }
      split; [exact Hmf'|]. split; [exact Hs'|]. split; [exact Hp'|].
      split; [rewrite Hcmp'; replace (S s + cnt)%nat with (s + S cnt)%nat by lia;
              reflexivity|].
      split.
      { rewrite Hd', Hd1.
        change (addr_of s :: map addr_of (seq (S s) cnt))
          with ([addr_of s] ++ map addr_of (seq (S s) cnt)).
        rewrite (diff_bytes_app _ _ _ [addr_of s]). fold chunksize. lia. }
      split; [rewrite Hbl'; exact Hbl1|].
      intros j Hj. specialize (Hbb1 j Hj). specialize (Hbb' j Hj).
      fold chunksize in Hbb1, Hbb'. rewrite Hq in Hbb1. rewrite Hbb', Hbb1.
      replace (S s + cnt)%nat with (s + S cnt)%nat by lia.
      destruct remap; cbn [andb]; [|rewrite !orb_false_r; reflexivity].
      rewrite <- orb_assoc. f_equal. clear Hbb1 Hbb'.
      destruct (Z.eqb_spec j (Z.of_nat s)) as [Hjs|Hjs].
      * rewrite Hjs. replace (Z.of_nat s * chunksize) with (addr_of s) by (unfold addr_of; lia).
        destruct (Z.leb_spec (Z.of_nat (S s)) (Z.of_nat s)); [lia|].
        destruct (Z.leb_spec (Z.of_nat s) (Z.of_nat s)); [|lia].
        destruct (Z.ltb_spec (Z.of_nat s) (Z.of_nat (s + S cnt))); [|lia].
        cbn [andb]. rewrite orb_false_r. reflexivity.
      * cbn [andb orb].
        destruct (Z.leb_spec (Z.of_nat (S s)) j), (Z.leb_spec (Z.of_nat s) j);
          try lia; reflexivity.
Qed.
Lemma receive_diff_run `{Codec} (remap : bool) (volsize chunksize level : Z)
    (sname : string) (vf cmp dmap : bytes) (polls : list (option Z)) :
  0 < chunksize -> chunksize + chunksize / 1024 < 2 ^ 32 ->
  Z.of_nat (length vf) = volsize -> 0 < volsize ->
  (forall b, zlib_decompress (zlib_compress b level) decomp_bits chunksize = Some b) ->
  (forall a, In a (py_range 0 volsize chunksize) ->
     zero_skipped vf volsize chunksize a = false ->
     1 <= Z.of_nat (length (zlib_compress (vf_read vf a chunksize) level))
       <= chunksize + chunksize / 1024) ->
  Forall okpoll polls ->
  (remap = true -> volsize / chunksize / 8 < Z.of_nat (length dmap)) ->
  exists st,
    receive_loop
      (mkRecvEnv (RecvDiff remap) volsize chunksize "zlib"
                 (repeat 0 (Z.to_nat chunksize)) (last_chunk_addr volsize chunksize))
      (mkRecvState
         (map (fun a => verify_line sname (manifest_line vf volsize chunksize level a))
              (py_range 0 volsize chunksize))
         (concat (map (helper_chunk vf volsize chunksize level)
                      (py_range 0 volsize chunksize)))
         polls 0 [] cmp dmap 0 None None None)
      (py_range 0 volsize chunksize) = Ok st
    /\ rs_diff_count st = diff_bytes vf cmp chunksize (py_range 0 volsize chunksize)
    /\ length (rs_bmap st) = length dmap
    /\ (forall j, 0 <= j ->
          chunk_bit (rs_bmap st) j
          = chunk_bit dmap j
            || (remap && (j * chunksize <? volsize)
                && negb (bool_decide (vf_read vf (j * chunksize) chunksize
                                      = vf_read cmp (j * chunksize) chunksize))))
    /\ (exists p, rs_rc st = Some p /\ okpoll p)
    /\ rs_addr st = Some (last_chunk_addr volsize chunksize)
    /\ rs_buf st = Some (vf_read vf (last_chunk_addr volsize chunksize) chunksize).
Proof.
  intros Hc Hlim Hlen Hv Hinv Hsz Hpolls Hmap.
  destruct (py_range_split volsize chunksize Hc Hv) as (k & Hk & Hr).
  pose proof (last_chunk_addr_bounds volsize chunksize Hc) as [Hb Hlm].
  rewrite Hr, !map_app, concat_app. cbn [map concat].
  assert (Hlast : In (last_chunk_addr volsize chunksize) (py_range 0 volsize chunksize))
    by (rewrite Hr; apply in_or_app; right; left; reflexivity).
  assert (Hzl : zero_skipped vf volsize chunksize (last_chunk_addr volsize chunksize)
                = false)
    by (unfold zero_skipped; rewrite Z.eqb_refl, andb_false_r; reflexivity).
  match goal with
  | |- context [receive_loop ?env ?st0 _] =>
      destruct (receive_loop_diff env remap vf cmp level sname k eq_refl eq_refl eq_refl
                  eq_refl Hc Hlen Hlim Hinv Hsz 0%nat st0
                  [verify_line sname
                     (manifest_line vf volsize chunksize level
                        (last_chunk_addr volsize chunksize))]
                  (helper_chunk vf volsize chunksize level
                     (last_chunk_addr volsize chunksize) ++ []))
        as (st1 & Hl1 & Hmf1 & Hs1 & Hp1 & Hcmp1 & Hd1 & Hbl1 & Hbb1);
      [cbn [Nat.add re_volsize re_chunksize]; lia | reflexivity | reflexivity
      | reflexivity | exact Hmap | exact Hpolls |];
      destruct (receive_chunk_diff env st1 remap vf cmp level sname
                  (last_chunk_addr volsize chunksize) [] []
                  eq_refl eq_refl eq_refl eq_refl Hc Hlen Hlim Hlast Hinv (Hsz _ Hlast)
                  Hmf1 Hs1)
        as (st2 & Hc2 & _ & _ & _ & _ & Hd2 & Hbl2 & Hbb2 & Ha2 & Hb2);
      [rewrite Hcmp1; cbn [Nat.add re_chunksize]; rewrite Hk; reflexivity
      | intros Hrm; rewrite Hbl1; cbn [rs_bmap re_chunksize];
        assert (last_chunk_addr volsize chunksize / chunksize / 8
                <= volsize / chunksize / 8)
          by (apply Z.div_le_mono; [lia|]; apply Z.div_le_mono; lia);
        specialize (Hmap Hrm); lia
      | exact Hp1 |];
      rewrite Hl1
  end.
  cbn [receive_loop]. rewrite Hc2. cbn [obind].
  cbn [rs_diff_count rs_bmap re_chunksize re_volsize] in *.
  exists st2. split; [reflexivity|].
  split.
  { rewrite Hd2, Hd1, diff_bytes_app. lia. }
  split; [rewrite Hbl2; exact Hbl1|].
  split.
  { intros j Hj. rewrite (Hbb2 j Hj), (Hbb1 j Hj).
    rewrite <- Hk. rewrite Z.div_mul by lia.
    destruct remap; cbn [andb]; [|rewrite !orb_false_r; reflexivity].
    rewrite <- orb_assoc. f_equal. cbn [Nat.add].
    destruct (Z.eqb_spec j (Z.of_nat k)) as [Hjk|Hjk].
    - rewrite Hjk.
      destruct (Z.ltb_spec (Z.of_nat k) (Z.of_nat k)); [lia|].
      destruct (Z.ltb_spec (Z.of_nat k * chunksize) volsize); [|lia].
      rewrite andb_false_r. reflexivity.
    - cbn [andb]. rewrite orb_false_r.
      change (Z.of_nat 0) with 0.
      destruct (Z.leb_spec 0 j); [|lia]. cbn [andb].
      destruct (Z.ltb_spec j (Z.of_nat k)) as [Hlt|Hge],
               (Z.ltb_spec (j * chunksize) volsize) as [Hlv|Hgv];
        try reflexivity; exfalso.
      + assert (j * chunksize <= Z.of_nat k * chunksize)
          by (apply Z.mul_le_mono_nonneg_r; lia). lia.
      + assert ((Z.of_nat k + 1) * chunksize <= j * chunksize)
          by (apply Z.mul_le_mono_nonneg_r; lia). lia. }
  destruct (Hb2 Hzl) as (Hrc & Hbuf).
  split; [exact Hrc|]. split; [exact Ha2 | exact Hbuf].
Qed.

(** X19: a [diff] finds a difference exactly when there is one.  With the
    archive of a first backup as in the round trip above, and a local
    volume [cmp] of the archived size, [diff] without [--remap] returns
    when [cmp] holds the bytes that were sent, and ends with exit status 1
    and the count of differing bytes when it holds anything else. *)
Theorem diff_detects_change `{Codec} (aset : ArchiveSet) (vol : Volume)
    (volsize : Z) (vf bmap : bytes) (localtime : string) (r : send_result unit)
    (fs : string -> option bytes) (polls : list (option Z)) (cmp dmap : bytes) :
  let chunksize := as_chunksize aset in
  let sname := ("S_" ++ localtime)%string in
  let lst := map (fun l => dest_path sname (snd l)) (sr_manifest r) in
  let mf := map (verify_line sname) (sr_manifest r) in
  0 < chunksize -> chunksize + chunksize / 1024 < 2 ^ 32 ->
  Z.of_nat (length vf) = volsize -> 0 < volsize ->
  size (vol_sessions vol) = 0%nat ->
  as_compression aset = "zlib"%string ->
  localtime <> EmptyString -> nospace localtime = true ->
  volsize <= max_address + 1 ->
  (forall b, sha256_digest b <> []) ->
  (forall b, zlib_decompress (zlib_compress b (compresslevel aset))
                             decomp_bits chunksize = Some b) ->
  (forall a, In a (py_range 0 volsize chunksize) ->
     zero_skipped vf volsize chunksize a = false ->
     1 <= Z.of_nat (length (zlib_compress (vf_read vf a chunksize)
                                          (compresslevel aset)))
       <= chunksize + chunksize / 1024) ->
  send_volume aset vol volsize vf bmap localtime false tt = Ok r ->
  (forall a data, In a (py_range 0 volsize chunksize) ->
     In (TarFile (tar_path (session_dir vol localtime) (destfile_of a)) data)
        (sr_tar r) ->
     fs (dest_path sname (destfile_of a)) = Some data) ->
  (forall a, In a (py_range 0 volsize chunksize) ->
     In ("0"%string, destfile_of a) (sr_manifest r) ->
     fs (dest_path sname (destfile_of a)) = None) ->
  Forall (fun p => p = None \/ p = Some (snd (helper_receive fs lst))) polls ->
  Z.of_nat (length cmp) = volsize ->
  (cmp = vf ->
   exists st,
     receive_volume (RecvDiff false) (vol_volsize (sr_vol r)) chunksize
                    (as_compression aset) mf (fst (helper_receive fs lst)) polls
                    cmp dmap = Ok st
     /\ rs_diff_count st = 0)
  /\ (cmp <> vf ->
      receive_volume (RecvDiff false) (vol_volsize (sr_vol r)) chunksize
                     (as_compression aset) mf (fst (helper_receive fs lst)) polls
                     cmp dmap = x_it 1 "bytes differ.").
Proof.
  intros chunksize sname lst mf Hc Hlim Hlen Hv Hfirst Hcomp _ _ _ _ Hinv Hsz Hsend
         Htar Hzero Hpolls Hclen.
  set (level := compresslevel aset) in *.
  destruct (first_send_archive aset vol volsize vf bmap localtime r fs Hc Hlim Hlen Hv
              Hfirst Hsz Hsend Htar Hzero) as (Hvs & Hmf & Hh).
  fold chunksize level sname in Hmf, Hh.
  unfold lst, mf in *.
  rewrite Hvs, Hcomp. rewrite Hh in Hpolls |- *. cbn [fst snd] in Hpolls |- *.
  rewrite Hmf.
  pose proof (last_chunk_addr_bounds volsize chunksize Hc) as [Hb Hlm].
  unfold receive_volume, py_bytes.
  destruct (Z.ltb_spec chunksize 0); [lia|]. cbn [obind].
  destruct (Z.eqb_spec chunksize 0); [lia|].
  cbn [open_deltamap obind].
  destruct (receive_diff_run false volsize chunksize level sname vf cmp dmap polls
              Hc Hlim Hlen Hv Hinv Hsz Hpolls ltac:(discriminate))
    as (st & -> & Hd & _ & _ & (p & Hrc & Hp) & Ha & Hbuf).
  cbn [obind]. unfold receive_finish. rewrite Hrc, Ha, Hbuf.
  replace (match p with Some c => c >? 0 | None => false end) with false
    by (destruct Hp as [-> | ->]; reflexivity).
  cbn [re_volsize re_mode].
  match goal with
  | |- context [negb (?a + ?b =? ?c)] => destruct (Z.eqb_spec (a + b) c) as [_|Hne]
  end.
  2:{ exfalso. apply Hne. unfold vf_read. rewrite length_firstn, length_skipn.
      assert (0 <= last_chunk_addr volsize chunksize).
      { unfold last_chunk_addr.
        pose proof (Z.mod_le (volsize - 1) chunksize ltac:(lia) Hc). lia. }
      lia. }
  cbn [negb].
  assert (Hcount : rs_diff_count st = 0 <-> cmp = vf).
  { rewrite Hd. unfold py_range. destruct (Z.leb_spec chunksize 0); [lia|].
    rewrite diff_bytes_zero by (try exact Hc; lia).
    set (cnt := Z.to_nat ((volsize - 0 + chunksize - 1) / chunksize)).
    assert (Hn : (length vf <= cnt * Z.to_nat chunksize)%nat).
    { assert (volsize <= Z.of_nat cnt * chunksize); [|nia]. unfold cnt.
      rewrite Z2Nat.id by (apply Z.div_pos; lia).
      pose proof (Z.div_mod (volsize - 0 + chunksize - 1) chunksize ltac:(lia)).
      pose proof (Z.mod_pos_bound (volsize - 0 + chunksize - 1) chunksize Hc). nia. }
    rewrite !firstn_all2 by lia. split; congruence. }
  split.
  - intros Heq. apply Hcount in Heq. rewrite Heq. cbn [Z.eqb negb]. eauto.
  - intros Hneq.
    destruct (Z.eqb_spec (rs_diff_count st) 0) as [Hz0|_];
      [apply Hcount in Hz0; contradiction | reflexivity].
Qed.

Lemma diff_detects_change_witness :
  exists r,
    @send_volume stored_codec unit no_dedup aset_1k vol_no_session 2148 gap_device []
                 "20190101-000000" false tt = Ok r
    /\ (exists st,
          @receive_volume stored_codec (RecvDiff false) (vol_volsize (sr_vol r)) 1024
            "zlib" (map (verify_line "S_20190101-000000") (sr_manifest r))
            (fst (helper_receive dest_example
                    (map (fun l => dest_path "S_20190101-000000" (snd l))
                         (sr_manifest r))))
            [None; Some 0] gap_device [] = Ok st
          /\ rs_diff_count st = 0).
Proof.
  eexists. split; [vm_compute; reflexivity|].
  refine ((fun Hboth => proj1 Hboth eq_refl) _).
  apply (@diff_detects_change stored_codec aset_1k vol_no_session 2148 gap_device
           [] "20190101-000000" _ dest_example [None; Some 0] gap_device []).
  - reflexivity.
  - vm_compute. reflexivity.
  - reflexivity.
  - reflexivity.
  - reflexivity.
  - reflexivity.
  - discriminate.
  - reflexivity.
  - unfold max_address. lia.
  - intros b. cbn. discriminate.
  - intros b. reflexivity.
  - intros a _ _. cbn [zlib_compress stored_codec length as_chunksize aset_1k].
    unfold vf_read. rewrite length_firstn.
    change (1024 + 1024 / 1024) with 1025. lia.
  - vm_compute. reflexivity.
  - intros a data Ha. vm_compute in Ha.
    destruct Ha as [<- | [<- | [<- | []]]]; vm_compute;
      intros [Heq | [Heq | []]]; inversion Heq; subst; reflexivity.
  - intros a Ha. vm_compute in Ha.
    destruct Ha as [<- | [<- | [<- | []]]]; vm_compute;
      intros [Heq | [Heq | [Heq | []]]]; try discriminate Heq; reflexivity.
  - constructor; [left; reflexivity|].
    constructor; [right; vm_compute; reflexivity | constructor].
  - reflexivity.
Defined.
Lemma chunk_bit_ftruncate (f : bytes) (n j : Z) : 0 <= j -> 0 <= n ->
  chunk_bit (ftruncate f n) j = (j / 8 <? n) && chunk_bit f j.
Proof.
  intros Hj Hn. unfold chunk_bit.
  assert (Hq : 0 <= j / 8) by (apply Z.div_pos; lia).
  destruct (Z.ltb_spec (j / 8) n) as [Hlt|Hge]; cbn [andb].
  - unfold ftruncate.
    destruct (decide (Z.to_nat (j / 8) < length f)%nat) as [Hin|Hout].
    + rewrite lookup_app_l by (rewrite length_firstn; lia).
      rewrite lookup_take_lt by lia. reflexivity.
    + rewrite lookup_app_r by (rewrite length_firstn; lia).
      rewrite (lookup_ge_None_2 f) by lia.
      destruct (repeat 0 _ !! _) as [v|] eqn:Hv; [|reflexivity].
      apply list_elem_of_lookup_2, list_elem_of_In, repeat_spec in Hv.
      rewrite Hv. apply Z.testbit_0_l.
  - rewrite lookup_ge_None_2; [reflexivity|]. rewrite length_ftruncate. lia.
Qed.

(** X20: [diff --remap] marks the chunks that differ.  With the archive
    of a first backup as above, the call returns.  The Delta Map is first
    cut or extended to the size [mapsize] gives for the volume, so the map
    that is left has that size and of the bits it had those inside that
    size; it gains the bit of exactly those chunks of the volume whose
    archived bytes are not what the local volume [cmp] has at their
    place. *)
Theorem diff_remap_marks `{Codec} (aset : ArchiveSet) (vol : Volume)
    (volsize : Z) (vf bmap : bytes) (localtime : string) (r : send_result unit)
    (fs : string -> option bytes) (polls : list (option Z)) (cmp dmap : bytes) :
  let chunksize := as_chunksize aset in
  let sname := ("S_" ++ localtime)%string in
  let lst := map (fun l => dest_path sname (snd l)) (sr_manifest r) in
  let mf := map (verify_line sname) (sr_manifest r) in
  0 < chunksize -> chunksize + chunksize / 1024 < 2 ^ 32 ->
  Z.of_nat (length vf) = volsize -> 0 < volsize ->
  size (vol_sessions vol) = 0%nat ->
  as_compression aset = "zlib"%string ->
  localtime <> EmptyString -> nospace localtime = true ->
  volsize <= max_address + 1 ->
  (forall b, sha256_digest b <> []) ->
  (forall b, zlib_decompress (zlib_compress b (compresslevel aset))
                             decomp_bits chunksize = Some b) ->
  (forall a, In a (py_range 0 volsize chunksize) ->
     zero_skipped vf volsize chunksize a = false ->
     1 <= Z.of_nat (length (zlib_compress (vf_read vf a chunksize)
                                          (compresslevel aset)))
       <= chunksize + chunksize / 1024) ->
  send_volume aset vol volsize vf bmap localtime false tt = Ok r ->
  (forall a data, In a (py_range 0 volsize chunksize) ->
     In (TarFile (tar_path (session_dir vol localtime) (destfile_of a)) data)
        (sr_tar r) ->
     fs (dest_path sname (destfile_of a)) = Some data) ->
  (forall a, In a (py_range 0 volsize chunksize) ->
     In ("0"%string, destfile_of a) (sr_manifest r) ->
     fs (dest_path sname (destfile_of a)) = None) ->
  Forall (fun p => p = None \/ p = Some (snd (helper_receive fs lst))) polls ->
  exists st,
    receive_volume (RecvDiff true) (vol_volsize (sr_vol r)) chunksize
                   (as_compression aset) mf (fst (helper_receive fs lst)) polls
                   cmp dmap = Ok st
    /\ mapsize (vol_volsize (sr_vol r)) chunksize None
       = Ok (Z.of_nat (length (rs_bmap st)))
    /\ forall j, 0 <= j ->
         chunk_bit (rs_bmap st) j
         = (j / 8 <? volsize / chunksize / 8 + 1) && chunk_bit dmap j
           || ((j * chunksize <? volsize)
               && negb (bool_decide (vf_read vf (j * chunksize) chunksize
                                     = vf_read cmp (j * chunksize) chunksize))).
Proof.
  intros chunksize sname lst mf Hc Hlim Hlen Hv Hfirst Hcomp _ _ _ _ Hinv Hsz Hsend
         Htar Hzero Hpolls.
  set (level := compresslevel aset) in *.
  destruct (first_send_archive aset vol volsize vf bmap localtime r fs Hc Hlim Hlen Hv
              Hfirst Hsz Hsend Htar Hzero) as (Hvs & Hmf & Hh).
  fold chunksize level sname in Hmf, Hh.
  unfold lst, mf in *.
  rewrite Hvs, Hcomp. rewrite Hh in Hpolls |- *. cbn [fst snd] in Hpolls |- *.
  rewrite Hmf.
  pose proof (last_chunk_addr_bounds volsize chunksize Hc) as [Hb Hlm].
  assert (Hms : 0 <= volsize / chunksize / 8)
    by (apply Z.div_pos; [apply Z.div_pos|]; lia).
  unfold receive_volume, py_bytes.
  destruct (Z.ltb_spec chunksize 0); [lia|]. cbn [obind].
  destruct (Z.eqb_spec chunksize 0); [lia|].
  cbn [open_deltamap]. unfold mapsize.
  destruct (Z.eqb_spec chunksize 0); [lia|]. cbn [obind].
  set (dmap' := ftruncate dmap (volsize / chunksize / 8 + 1)).
  assert (Hdl : length dmap' = Z.to_nat (volsize / chunksize / 8 + 1))
    by apply length_ftruncate.
  destruct (receive_diff_run true volsize chunksize level sname vf cmp dmap' polls
              Hc Hlim Hlen Hv Hinv Hsz Hpolls ltac:(intros _; lia))
    as (st & -> & _ & Hbl & Hbb & (p & Hrc & Hp) & Ha & Hbuf).
  cbn [obind]. unfold receive_finish. rewrite Hrc, Ha, Hbuf.
  replace (match p with Some c => c >? 0 | None => false end) with false
    by (destruct Hp as [-> | ->]; reflexivity).
  cbn [re_volsize re_mode].
  match goal with
  | |- context [negb (?a + ?b =? ?c)] => destruct (Z.eqb_spec (a + b) c) as [_|Hne]
  end.
  2:{ exfalso. apply Hne. unfold vf_read. rewrite length_firstn, length_skipn.
      assert (0 <= last_chunk_addr volsize chunksize).
      { unfold last_chunk_addr.
        pose proof (Z.mod_le (volsize - 1) chunksize ltac:(lia) Hc). lia. }
      lia. }
  cbn [negb]. exists st. split; [reflexivity|]. split.
  - rewrite Hbl, Hdl. f_equal. lia.
  - intros j Hj. rewrite (Hbb j Hj). unfold dmap'.
    rewrite chunk_bit_ftruncate by lia. reflexivity.
Qed.

Lemma diff_remap_marks_witness :
  exists r,
    @send_volume stored_codec unit no_dedup aset_1k vol_no_session 2148 gap_device []
                 "20190101-000000" false tt = Ok r
    /\ (exists st,
          @receive_volume stored_codec (RecvDiff true) (vol_volsize (sr_vol r)) 1024
            "zlib" (map (verify_line "S_20190101-000000") (sr_manifest r))
            (fst (helper_receive dest_example
                    (map (fun l => dest_path "S_20190101-000000" (snd l))
                         (sr_manifest r))))
            [None; Some 0] (repeat 7 (Z.to_nat 2148)) [0; 128; 1] = Ok st
          /\ mapsize (vol_volsize (sr_vol r)) 1024 None
             = Ok (Z.of_nat (length (rs_bmap st)))
          /\ forall j, 0 <= j ->
               chunk_bit (rs_bmap st) j
               = (j / 8 <? 2148 / 1024 / 8 + 1) && chunk_bit [0; 128; 1] j
                 || ((j * 1024 <? 2148)
                     && negb (bool_decide
                                (vf_read gap_device (j * 1024) 1024
                                 = vf_read (repeat 7 (Z.to_nat 2148)) (j * 1024) 1024)))).
Proof.
  eexists. split; [vm_compute; reflexivity|].
  apply (@diff_remap_marks stored_codec aset_1k vol_no_session 2148 gap_device
           [] "20190101-000000" _ dest_example [None; Some 0]
           (repeat 7 (Z.to_nat 2148)) [0; 128; 1]).
  - reflexivity.
  - vm_compute. reflexivity.
  - reflexivity.
  - reflexivity.
  - reflexivity.
  - reflexivity.
  - discriminate.
  - reflexivity.
  - unfold max_address. lia.
  - intros b. cbn. discriminate.
  - intros b. reflexivity.
  - intros a _ _. cbn [zlib_compress stored_codec length as_chunksize aset_1k].
    unfold vf_read. rewrite length_firstn.
    change (1024 + 1024 / 1024) with 1025. lia.
  - vm_compute. reflexivity.
  - intros a data Ha. vm_compute in Ha.
    destruct Ha as [<- | [<- | [<- | []]]]; vm_compute;
      intros [Heq | [Heq | []]]; inversion Heq; subst; reflexivity.
  - intros a Ha. vm_compute in Ha.
    destruct Ha as [<- | [<- | [<- | []]]]; vm_compute;
      intros [Heq | [Heq | [Heq | []]]]; try discriminate Heq; reflexivity.
  - constructor; [left; reflexivity|].
    constructor; [right; vm_compute; reflexivity | constructor].
Defined.
